(** * ezbot ingestion core: feed registry, schema validation, batch insert
      and store health monitor

    A shallow embedding of
      - [core/questdb_manager/schema_manager.py]  (modules [Py], [Schema]),
      - [core/questdb_manager/client.py]          (module [Client]),
      - [core/feed_registry/registry.py]          (module [Registry]),
      - [core/questdb_manager/health_monitor.py]  (module [HealthMonitor]),
    followed by the properties the specification states about them
    (modules [SchemaFacts], [ClientFacts], [RegistryFacts] and
    [HealthMonitorFacts]).

    The modules [SchemaOps], [ClientOps], [RegistryOps], [HealthMonitorOps]
    and [HealthCheck] embed further operations of the same files
    (serialization and type mapping of schemas, queries, look-ups and
    category starts of the registry, thresholds and reset of the monitor,
    the manager's health check); their properties are in [SchemaOpsFacts],
    [ClientOpsFacts], [RegistryOpsFacts], [HealthMonitorOpsFacts] and
    [HealthCheckFacts].

    Conventions.  Python dictionaries keyed by strings are [gmap string _];
    [datetime.now()] is an explicit clock argument (microseconds, in [Z]);
    the numbers of the health formulas are exact rationals ([Q]); a Python
    [float] that is converted to and from integers is an IEEE double
    ([spec_float], 53 bits of precision); a call that may raise returns a
    [result], or a [Completion] where the registry catches it; objects
    that are shared and updated in place (the monitor's alerts) live in a
    store and are referred to by position. *)

From Stdlib Require Import ZArith QArith Qminmax Qround Qabs Lia.
From Stdlib Require Import Floats.SpecFloat.
From Stdlib Require Import Lqa.
From stdpp Require Import gmap strings list fin_maps pretty.

#[global] Set Warnings "-clear-no-such-hyp".

(** ** Outcomes of calls that may raise *)

Inductive result (E A : Type) : Type :=
| Ok (a : A)
| Err (e : E).
Arguments Ok {E A} a.
Arguments Err {E A} e.

(** Sequencing: the first error aborts, as an exception does.  With the
    instances below, [x ← r; k] is stdpp's notation for it. *)
#[global] Instance result_ret {E} : MRet (result E) := fun _ a => Ok a.
#[global] Instance result_bind {E} : MBind (result E) := fun _ _ k r =>
  match r with
  | Ok a => k a
  | Err e => Err e
  end.

Definition is_ok {E A} (r : result E A) : bool :=
  match r with Ok _ => true | Err _ => false end.

(** ** Python floats: the conversions [float(int)] and [int(float)] *)

Module PyFloat.

Local Open Scope Z_scope.

(** Doubles: 53 bits of mantissa, exponents of the mantissa's unit up to
    971 ([m * 2^e < 2^1024]). *)
Definition prec : Z := 53.
Definition emax_unit : Z := 971.
Definition emin_unit : Z := -1074.

(** A finite [spec_float] is a double when its mantissa fits the precision
    and its exponent the range. *)
Definition valid (f : spec_float) : bool :=
  match f with
  | S754_finite _ m e =>
      (Z.pos m <? 2 ^ prec) && (emin_unit <=? e) && (e <=? emax_unit)
  | _ => true
  end.

Definition is_nan (f : spec_float) : bool :=
  match f with S754_nan => true | _ => false end.

(** Errors of the numeric conversions. *)
Inductive conv_error : Type :=
| ConvValueError      (* ValueError *)
| ConvTypeError       (* TypeError *)
| ConvOverflowError.  (* OverflowError: not a ValueError nor a TypeError *)

(** [float(n)] for a Python int: the nearest double, ties to even;
    [OverflowError] when it would not be finite. *)
Definition of_Z (n : Z) : result conv_error spec_float :=
  if n =? 0 then Ok (S754_zero false)
  else
    let s := n <? 0 in
    let a := Z.abs n in
    let k := Z.log2 a + 1 - prec in
    if k <=? 0 then Ok (S754_finite s (Z.to_pos a) 0)
    else
      let q := a / 2 ^ k in
      let r := a mod 2 ^ k in
      let half := 2 ^ (k - 1) in
      let up := (half <? r) || ((r =? half) && Z.odd q) in
      let q' := if up then q + 1 else q in
      let me := if q' =? 2 ^ prec then (2 ^ (prec - 1), k + 1) else (q', k) in
      if emax_unit <? snd me then Err ConvOverflowError
      else Ok (S754_finite s (Z.to_pos (fst me)) (snd me)).

(** [int(f)] for a Python float: truncation toward zero; [ValueError] on
    NaN, [OverflowError] on an infinity. *)
Definition trunc (f : spec_float) : result conv_error Z :=
  match f with
  | S754_zero _ => Ok 0
  | S754_nan => Err ConvValueError
  | S754_infinity _ => Err ConvOverflowError
  | S754_finite s m e =>
      let a := if 0 <=? e then Z.pos m * 2 ^ e else Z.pos m / 2 ^ (- e) in
      Ok (if s then - a else a)
  end.

(** [bool(f)]: every float but the two zeros is true (NaN included). *)
Definition truth (f : spec_float) : bool :=
  match f with S754_zero _ => false | _ => true end.

(** The rational a finite double stands for, for comparisons with ints. *)
Definition to_Q (f : spec_float) : option Q :=
  match f with
  | S754_zero _ => Some 0%Q
  | S754_finite s m e =>
      let v := if 0 <=? e then inject_Z (Z.pos m * 2 ^ e)
               else (Z.pos m # Z.to_pos (2 ^ (- e)))%Q in
      Some (if s then Qopp v else v)
  | _ => None
  end.

(** Python [==] on two floats. *)
Definition eqb (f g : spec_float) : bool :=
  match f, g with
  | S754_nan, _ | _, S754_nan => false
  | S754_infinity s, S754_infinity t => Bool.eqb s t
  | S754_infinity _, _ | _, S754_infinity _ => false
  | _, _ =>
      match to_Q f, to_Q g with
      | Some x, Some y => Qeq_bool x y
      | _, _ => false
      end
  end.

End PyFloat.

(** ** Values of raw records *)

Module Py.

(** A [datetime]: proleptic ordinal of the day, microsecond of the day and
    the UTC offset in seconds of an aware value ([None]: naive). *)
Record datetime : Type := {
  dt_ordinal : Z;
  dt_micros : Z;
  dt_utcoffset : option Z
}.

(** A [date]: the ordinal of the day. *)
Record date : Type := { d_ordinal : Z }.

(** Any other object, seen through the protocols the validators use:
    [__float__] (absent: [float()] raises [TypeError]), [__bool__] and
    [__str__].  Two such objects are [==] when they are the same one. *)
Record object : Type := {
  obj_id : nat;
  obj_float : option spec_float;
  obj_truth : bool;
  obj_str : string
}.

Inductive value : Type :=
| VNone
| VBool (b : bool)
| VInt (n : Z)
| VFloat (f : spec_float)
| VStr (s : string)
| VDatetime (d : datetime)
| VDate (d : date)
| VObject (o : object).

(** The interpreter's parsers and printers, which the validators call and
    the repository does not define: [float(str)], [datetime.fromisoformat],
    [datetime.strptime(_, '%Y-%m-%d').date()], and [str()] of a float, a
    datetime or a date.  A parser answers [None] where Python raises
    [ValueError]. *)
Class Builtins : Type := {
  float_of_str : string -> option spec_float;
  fromisoformat : string -> option datetime;
  strptime_ymd : string -> option date;
  str_other : value -> string
}.

(** The floats a value can hold are doubles. *)
Definition wf_value (v : value) : bool :=
  match v with
  | VFloat f => PyFloat.valid f
  | VObject o => match obj_float o with Some f => PyFloat.valid f | None => true end
  | _ => true
  end.

(** The parser only produces doubles. *)
Definition wf_builtins (B : Builtins) : Prop :=
  forall s f, float_of_str s = Some f -> PyFloat.valid f = true.

Definition is_none (v : value) : bool :=
  match v with VNone => true | _ => false end.

Definition is_nan (v : value) : bool :=
  match v with VFloat f => PyFloat.is_nan f | _ => false end.

Section Conversions.
Context {B : Builtins}.

(** [float(v)] *)
Definition float (v : value) : result PyFloat.conv_error spec_float :=
  match v with
  | VBool b => Ok (if b then S754_finite false 1 0 else S754_zero false)
  | VInt n => PyFloat.of_Z n
  | VFloat f => Ok f
  | VStr s =>
      match float_of_str s with
      | Some f => Ok f
      | None => Err PyFloat.ConvValueError
      end
  | VObject o =>
      match obj_float o with
      | Some f => Ok f
      | None => Err PyFloat.ConvTypeError
      end
  | VNone | VDatetime _ | VDate _ => Err PyFloat.ConvTypeError
  end.

(** [int(float(v))] *)
Definition int_of_float (v : value) : result PyFloat.conv_error Z :=
  f ← float v; PyFloat.trunc f.

(** [bool(v)] *)
Definition truth (v : value) : bool :=
  match v with
  | VNone => false
  | VBool b => b
  | VInt n => negb (n =? 0)%Z
  | VFloat f => PyFloat.truth f
  | VStr s => negb (String.eqb s "")
  | VDatetime _ | VDate _ => true
  | VObject o => obj_truth o
  end.

(** [str(v)] *)
Definition str (v : value) : string :=
  match v with
  | VStr s => s
  | VNone => "None"
  | VBool b => if b then "True" else "False"
  | VInt n => pretty n
  | VObject o => obj_str o
  | VFloat _ | VDatetime _ | VDate _ => str_other v
  end.

End Conversions.

(** [s.lower()], on the ASCII letters. *)
Definition lower_ascii (c : Ascii.ascii) : Ascii.ascii :=
  let n := Ascii.N_of_ascii c in
  if ((65 <=? n) && (n <=? 90))%N then Ascii.ascii_of_N (n + 32) else c.

Fixpoint lower (s : string) : string :=
  match s with
  | EmptyString => EmptyString
  | String c r => String (lower_ascii c) (lower r)
  end.

(** [s.replace('Z', '+00:00')] *)
Fixpoint replace_Z (s : string) : string :=
  match s with
  | EmptyString => EmptyString
  | String c r =>
      if Ascii.eqb c (Ascii.ascii_of_N 90) then String.append "+00:00" (replace_Z r)
      else String c (replace_Z r)
  end.

(** The instant of an aware datetime, in microseconds. *)
Definition instant (d : datetime) (off : Z) : Z :=
  ((dt_ordinal d * 86400 - off) * 1000000 + dt_micros d)%Z.

(** Python [==] on the values above: numbers compare by value across
    [bool], [int] and [float]; a NaN equals nothing; a naive and an aware
    datetime are never equal. *)
Definition eqb (v w : value) : bool :=
  let num (x : value) : option (Z + spec_float) :=
    match x with
    | VBool b => Some (inl (if b then 1 else 0)%Z)
    | VInt n => Some (inl n)
    | VFloat f => Some (inr f)
    | _ => None
    end in
  match num v, num w with
  | Some (inl a), Some (inl b) => (a =? b)%Z
  | Some (inr f), Some (inr g) => PyFloat.eqb f g
  | Some (inl a), Some (inr f) | Some (inr f), Some (inl a) =>
      match PyFloat.to_Q f with
      | Some q => Qeq_bool q (inject_Z a)
      | None => false
      end
  | Some _, None | None, Some _ => false
  | None, None =>
      match v, w with
      | VNone, VNone => true
      | VStr s, VStr t => String.eqb s t
      | VDatetime d, VDatetime e =>
          match dt_utcoffset d, dt_utcoffset e with
          | None, None =>
              (dt_ordinal d =? dt_ordinal e)%Z && (dt_micros d =? dt_micros e)%Z
          | Some a, Some b => (instant d a =? instant e b)%Z
          | _, _ => false
          end
      | VDate d, VDate e => (d_ordinal d =? d_ordinal e)%Z
      | VObject o, VObject p => Nat.eqb (obj_id o) (obj_id p)
      | _, _ => false
      end
  end.

End Py.

(** ** schema_manager.py *)

Module Schema.
Import Py.

Inductive ColumnType : Type :=
| TIMESTAMP | SYMBOL | STRING | DOUBLE | FLOAT | LONG | INT | BOOLEAN | DATE | BINARY.

Record ColumnDefinition : Type := {
  name : string;
  type : ColumnType;
  nullable : bool;
  symbol_capacity : option Z;
  symbol_cache : bool;
  index : bool;
  default_value : value;   (* [VNone]: no default configured *)
  description : string
}.

(** The exceptions [validate_value] lets out: the [ValueError] it raises
    itself, and an [OverflowError] of [float()] or [int()], which its
    handler for [(ValueError, TypeError)] does not catch.  The message
    texts are not modelled. *)
Inductive error : Type :=
| ValueError
| OverflowError.

(** [except (ValueError, TypeError) as e: raise ValueError(...)] *)
Definition reraise {A} (r : result PyFloat.conv_error A) : result error A :=
  match r with
  | Ok a => Ok a
  | Err PyFloat.ConvValueError | Err PyFloat.ConvTypeError => Err ValueError
  | Err PyFloat.ConvOverflowError => Err OverflowError
  end.

Definition true_words : list string := ["true"; "1"; "yes"; "on"].

Section Validation.
Context {B : Builtins}.

(** The body of the [try] of [validate_value], the value not being [None]. *)
Definition convert (ty : ColumnType) (v : value) : result PyFloat.conv_error value :=
  match ty with
  | TIMESTAMP =>
      match v with
      | VStr s =>
          match fromisoformat (replace_Z s) with
          | Some d => Ok (VDatetime d)
          | None => Err PyFloat.ConvValueError
          end
      | VDatetime _ => Ok v
      | _ => Err PyFloat.ConvValueError
      end
  | DATE =>
      match v with
      | VStr s =>
          match strptime_ymd s with
          | Some d => Ok (VDate d)
          | None => Err PyFloat.ConvValueError
          end
      (* [isinstance(value, date)]: a datetime is a date, and is returned
         as it is; the later [isinstance(value, datetime)] is never reached *)
      | VDate _ | VDatetime _ => Ok v
      | _ => Err PyFloat.ConvValueError
      end
  | DOUBLE | FLOAT => f ← float v; Ok (VFloat f)
  | LONG | INT => n ← int_of_float v; Ok (VInt n)
  | BOOLEAN =>
      match v with
      | VBool _ => Ok v
      | VStr s => Ok (VBool (bool_decide (lower s ∈ true_words)))
      | _ => Ok (VBool (truth v))
      end
  | STRING | SYMBOL => Ok (VStr (str v))
  | BINARY => Ok v
  end.

Definition validate_value (c : ColumnDefinition) (v : value) : result error value :=
  if is_none v then
    if negb (nullable c) then Err ValueError else Ok VNone
  else reraise (convert (type c) v).

End Validation.

Record TableSchema : Type := {
  table_name : string;
  columns : list ColumnDefinition;
  timestamp_column : string;
  partition_by : string;
  wal_enabled : bool;
  schema_description : string;
  version : string
}.

(** [next((col for col in self.columns if col.name == name), None)] *)
Definition get_column (s : TableSchema) (n : string) : option ColumnDefinition :=
  List.find (fun c => String.eqb (name c) n) (columns s).

Definition column_names (s : TableSchema) : list string := name <$> columns s.

Definition is_timestamp (ty : ColumnType) : bool :=
  match ty with TIMESTAMP => true | _ => false end.

(** [_validate_schema], run by [__post_init__]: every [TableSchema] that
    exists has passed it. *)
Definition _validate_schema (s : TableSchema) : result error unit :=
  if String.eqb (table_name s) "" then Err ValueError
  else match columns s with
  | [] => Err ValueError
  | _ =>
      match get_column s (timestamp_column s) with
      | None => Err ValueError
      | Some tc =>
          if negb (is_timestamp (type tc)) then Err ValueError
          else if negb (length (column_names s) =? length (remove_dups (column_names s)))%nat
               then Err ValueError
               else Ok tt
      end
  end.

(** [", ".join(l)] *)
Fixpoint join (sep : string) (l : list string) : string :=
  match l with
  | [] => ""
  | [x] => x
  | x :: r => String.append x (String.append sep (join sep r))
  end.

Definition newline : string := String (Ascii.ascii_of_N 10) EmptyString.

Definition to_insert_sql (s : TableSchema) : string :=
  String.concat "" [newline; "INSERT INTO "; table_name s; " ("; newline; "    ";
                    join ", " (column_names s); newline; ") VALUES %s"; newline].

Section Records.
Context {B : Builtins}.

(** [record.get(column.name)], then the default when that is [None]. *)
Definition field_value (record : gmap string value) (c : ColumnDefinition) : value :=
  let v := default VNone (record !! name c) in
  if is_none v && negb (is_none (default_value c)) then default_value c else v.

(** The loop of [validate_record], from the dictionary built so far. *)
Fixpoint validate_columns (cs : list ColumnDefinition) (record validated : gmap string value)
  : result error (gmap string value) :=
  match cs with
  | [] => Ok validated
  | c :: cs' =>
      v ← validate_value c (field_value record c);
      validate_columns cs' record (<[name c := v]> validated)
  end.

Definition validate_record (s : TableSchema) (record : gmap string value)
  : result error (gmap string value) :=
  validate_columns (columns s) record ∅.

End Records.

(** [tuple(record.get(col.name) for col in self.columns)] *)
Definition record_to_values (s : TableSchema) (record : gmap string value) : list value :=
  (fun c => default VNone (record !! name c)) <$> columns s.

(** [SchemaManager]: the registered schemas by table name. *)
Record SchemaManager : Type := { schemas : gmap string TableSchema }.

Definition register_schema (m : SchemaManager) (s : TableSchema) : SchemaManager :=
  {| schemas := <[table_name s := s]> (schemas m) |}.

Definition get_schema (m : SchemaManager) (t : string) : option TableSchema :=
  schemas m !! t.

End Schema.

(** ** Sample columns and a small interpreter, to run the validators *)

Module Samples.
Import Py Schema.

(** The doubles 12.5 and 92.0. *)
Definition f12_5 : spec_float := S754_finite false 25 (-1).

(** A stand-in for the interpreter's parsers that knows a few literals. *)
Definition sample_builtins : Builtins := {|
  float_of_str s :=
    if String.eqb s "12.5" then Some f12_5
    else if String.eqb s "nan" then Some S754_nan
    else if String.eqb s "7" then Some (S754_finite false 7 0)
    else None;
  fromisoformat s :=
    if String.eqb s "2024-01-02T00:00:00+00:00"
    then Some {| dt_ordinal := 738887; dt_micros := 0; dt_utcoffset := Some 0%Z |}
    else None;
  strptime_ymd s :=
    if String.eqb s "2024-01-02" then Some {| d_ordinal := 738887 |} else None;
  str_other v := "?"
|}.

Definition column (n : string) (ty : ColumnType) (null : bool) (dflt : value)
  : ColumnDefinition :=
  {| name := n; type := ty; nullable := null; symbol_capacity := None;
     symbol_cache := false; index := false; default_value := dflt;
     description := "" |}.

(** [price DOUBLE NOT NULL] *)
Definition price : ColumnDefinition := column "price" DOUBLE false VNone.

(** A table of quotes: timestamp, price, a volume that defaults to the
    string ["7"], and a nullable note. *)
Definition quotes : TableSchema := {|
  table_name := "quotes";
  columns := [column "timestamp" TIMESTAMP false VNone; price;
              column "volume" LONG true (VStr "7");
              column "note" STRING true VNone];
  timestamp_column := "timestamp";
  partition_by := "DAY";
  wal_enabled := true;
  schema_description := "";
  version := "1.0.0"
|}.

Definition quote_ok : gmap string value :=
  <["timestamp" := VStr "2024-01-02T00:00:00Z"]>
    (<["price" := VStr "12.5"]> (<["exchange" := VStr "X"]> ∅)).

Definition quote_bad : gmap string value :=
  <["timestamp" := VStr "2024-01-02T00:00:00Z"]> (<["price" := VStr "abc"]> ∅).

End Samples.

(** ** client.py: the batched insert *)

Module Client.
Import Py Schema.

Record BatchInsertResult : Type := {
  success : bool;
  records_inserted : nat;
  records_failed : nat;
  execution_time_ms : Q;
  error_message : option string
}.

Record QuestDBConfig : Type := {
  host : string;
  port : Z;
  database : string;
  user : string;
  password : string;
  pool_size : Z;
  pool_max_overflow : Z;
  connection_timeout : Z;
  query_timeout : Z;
  retry_attempts : Z;
  retry_delay : Q
}.

Definition default_config : QuestDBConfig := {|
  host := "localhost"; port := 8812; database := "qdb"; user := "admin";
  password := "quest"; pool_size := 10; pool_max_overflow := 5;
  connection_timeout := 10; query_timeout := 30; retry_attempts := 3;
  retry_delay := 1
|}.

(** The counters of [self.metrics] ([uptime_start] is a timestamp that no
    operation below reads). *)
Record Metrics : Type := {
  total_queries : nat;
  successful_queries : nat;
  failed_queries : nat;
  total_inserts : nat;
  total_records_inserted : nat;
  avg_query_time : Q;
  last_error : option string
}.

Definition initial_metrics : Metrics := {|
  total_queries := 0; successful_queries := 0; failed_queries := 0;
  total_inserts := 0; total_records_inserted := 0; avg_query_time := 0;
  last_error := None
|}.

Record QuestDBManager : Type := {
  config : QuestDBConfig;
  schema_manager : SchemaManager;
  metrics : Metrics
}.

(** What the store and the clock answer during one call.  An answer
    [Some msg] is an [Exception] whose [str()] is [msg].
    - [connect]: taking a connection from the pool and opening a cursor;
    - [insert i k]: [execute_values] and [commit] of chunk [i], attempt [k];
    - [rollback i k]: the [rollback] after that attempt failed;
    - [elapsed_ms]: [(time.time() - start_time) * 1000] when the call ends. *)
Record Store : Type := {
  connect : option string;
  insert : nat -> nat -> option string;
  rollback : nat -> nat -> option string;
  elapsed_ms : Q
}.

(** A row as sent to the store: [schema.record_to_values(record)]. *)
Definition row : Type := list value.

(** The local variables the handler of the call reads, and the chunks
    committed so far. *)
Record Locals : Type := {
  l_inserted : nat;
  l_failed : nat;
  l_committed : list (list row)
}.

(** How the [try] block ends: with a [return], or with an exception. *)
Inductive Outcome : Type :=
| Returned (r : BatchInsertResult)
| Raised (msg : string).

Section WithBuiltins.
Context {B : Builtins}.

(** The validation loop: a record that fails is counted and left out. *)
Fixpoint validate_all (s : TableSchema) (data : list (gmap string value))
    (validated_data : list (gmap string value)) (inserted failed : nat)
  : list (gmap string value) * nat * nat :=
  match data with
  | [] => (validated_data, inserted, failed)
  | record :: rest =>
      match validate_record s record with
      | Ok validated_record =>
          validate_all s rest (validated_data ++ [validated_record]) (S inserted) failed
      | Err _ => validate_all s rest validated_data inserted (S failed)
      end
  end.

(** [validated_data[i:i + batch_size]] for [i] in
    [range(0, len(validated_data), batch_size)], [batch_size] positive.
    The fuel bounds the number of chunks. *)
Fixpoint chunks {A} (fuel : nat) (batch_size : nat) (l : list A) : list (list A) :=
  match fuel with
  | O => []
  | S fuel' =>
      match l with
      | [] => []
      | _ => take batch_size l :: chunks fuel' batch_size (drop batch_size l)
      end
  end.

(** [for attempt in range(retry_attempts)] on chunk [i], from attempt [k]
    with [left] attempts left: [None] when the loop ends (committed or not),
    [Some msg] when it raises.  The flag tells whether the chunk was
    committed. *)
Fixpoint attempts (db : Store) (retry : Z) (i k left : nat) : bool * option string :=
  match left with
  | O => (false, None)
  | S left' =>
      match insert db i k with
      | None => (true, None)
      | Some msg =>
          if (Z.of_nat k =? retry - 1)%Z then (false, Some msg)
          else match rollback db i k with
               | Some msg' => (false, Some msg')
               | None => attempts db retry i (S k) left'
               end
      end
  end.

(** The loop over the chunks, numbered from [i]. *)
Fixpoint insert_chunks (db : Store) (retry : Z) (s : TableSchema) (i : nat)
    (batches : list (list (gmap string value))) (committed : list (list row))
  : list (list row) * option string :=
  match batches with
  | [] => (committed, None)
  | batch :: rest =>
      let values := record_to_values s <$> batch in
      match attempts db retry i 0 (Z.to_nat retry) with
      | (_, Some msg) => (committed, Some msg)
      | (done, None) =>
          insert_chunks db retry s (S i) rest
            (if done then committed ++ [values] else committed)
      end
  end.

(** The [try] block of [execute_batch_insert], [data] not empty. *)
Definition try_block (m : QuestDBManager) (db : Store) (table : string)
    (data : list (gmap string value)) (batch_size : Z) : Locals * Metrics * Outcome :=
  let total_records := length data in
  match get_schema (schema_manager m) table with
  | None =>
      ({| l_inserted := 0; l_failed := 0; l_committed := [] |}, metrics m,
       Raised (String.concat "" ["No schema found for table '"; table; "'"]))
  | Some schema =>
      let '(validated_data, inserted, failed) := validate_all schema data [] 0 0 in
      let locals c := {| l_inserted := inserted; l_failed := failed; l_committed := c |} in
      match validated_data with
      | [] =>
          (locals [], metrics m,
           Returned {| success := false; records_inserted := 0;
                       records_failed := total_records;
                       execution_time_ms := elapsed_ms db;
                       error_message := Some "No valid records to insert" |})
      | _ =>
          match connect db with
          | Some msg => (locals [], metrics m, Raised msg)
          | None =>
              if (batch_size =? 0)%Z
              then (locals [], metrics m, Raised "range() arg 3 must not be zero")
              else
                let batches :=
                  if (batch_size <? 0)%Z then []
                  else chunks (length validated_data) (Z.to_nat batch_size) validated_data in
                match insert_chunks db (retry_attempts (config m)) schema 0 batches [] with
                | (committed, Some msg) => (locals committed, metrics m, Raised msg)
                | (committed, None) =>
                    let mt := metrics m in
                    (locals committed,
                     {| total_queries := total_queries mt;
                        successful_queries := S (successful_queries mt);
                        failed_queries := failed_queries mt;
                        total_inserts := S (total_inserts mt);
                        total_records_inserted := total_records_inserted mt + inserted;
                        avg_query_time := avg_query_time mt;
                        last_error := last_error mt |},
                     Returned {| success := true; records_inserted := inserted;
                                 records_failed := failed;
                                 execution_time_ms := elapsed_ms db;
                                 error_message := None |})
                end
          end
      end
  end.

(** [execute_batch_insert]: the manager afterwards, the chunks the store
    committed, and the result. *)
Definition execute_batch_insert (m : QuestDBManager) (db : Store) (table : string)
    (data : list (gmap string value)) (batch_size : Z)
  : QuestDBManager * list (list row) * BatchInsertResult :=
  match data with
  | [] =>
      (m, [], {| success := true; records_inserted := 0; records_failed := 0;
                 execution_time_ms := 0; error_message := None |})
  | _ =>
      match try_block m db table data batch_size with
      | (l, mt, Returned r) =>
          ({| config := config m; schema_manager := schema_manager m; metrics := mt |},
           l_committed l, r)
      | (l, mt, Raised error_msg) =>
          ({| config := config m; schema_manager := schema_manager m;
              metrics := {| total_queries := total_queries mt;
                            successful_queries := successful_queries mt;
                            failed_queries := S (failed_queries mt);
                            total_inserts := total_inserts mt;
                            total_records_inserted := total_records_inserted mt;
                            avg_query_time := avg_query_time mt;
                            last_error := Some error_msg |} |},
           l_committed l,
           {| success := false; records_inserted := l_inserted l;
              records_failed := l_failed l;
              execution_time_ms := elapsed_ms db;
              error_message := Some error_msg |})
      end
  end.

(** A record fails schema validation. *)
Definition fails (s : TableSchema) (record : gmap string value) : Prop :=
  is_ok (validate_record s record) = false.

End WithBuiltins.

(** A store on which everything succeeds. *)
Definition good_store : Store :=
  {| connect := None; insert := fun _ _ => None; rollback := fun _ _ => None;
     elapsed_ms := 1 |}.

Definition empty_manager : QuestDBManager :=
  {| config := default_config; schema_manager := {| schemas := ∅ |};
     metrics := initial_metrics |}.

Definition quotes_manager : QuestDBManager :=
  {| config := default_config;
     schema_manager := register_schema {| schemas := ∅ |} Samples.quotes;
     metrics := initial_metrics |}.

End Client.

(** ** registry.py: the feed registry *)

Module Registry.

Inductive FeedStatus : Type :=
| UNKNOWN | REGISTERED | STARTING | RUNNING | STOPPING | STOPPED | ERROR
| HEALTHY | DEGRADED | UNHEALTHY.

#[global] Instance FeedStatus_eq_dec : EqDecision FeedStatus.
Proof. solve_decision. Defined.

(** The metrics dictionary a feed reports, by the keys the registry reads.
    [m_success] is the truth value of [metrics['success']]; [m_others]
    tells whether the dictionary has any other key. *)
Record FeedMetrics : Type := {
  m_success_rate : option Q;
  m_execution_time_ms : option Q;
  m_error_count : option Q;
  m_success : option bool;
  m_others : bool
}.

Definition empty_metrics : FeedMetrics :=
  {| m_success_rate := None; m_execution_time_ms := None; m_error_count := None;
     m_success := None; m_others := false |}.


(** A feed instance, by the attributes the registry reads.  An attribute
    that is [None] or the empty string is false for [or]. *)
Record FeedInstance : Type := {
  feed_name : string;
  feed_category : string;
  inst_market_type : option string;
  inst_priority : option string;
  has_stop : bool   (* [hasattr(feed_instance, 'stop')] *)
}.

(** An exception: whether it is an instance of [Exception] (which
    [SystemExit], [KeyboardInterrupt] and, since Python 3.8,
    [asyncio.CancelledError] are not), and its [str()]. *)
Record PyException : Type := {
  is_Exception : bool;
  exn_str : string
}.

(** How a call ends: it returns, or it raises. *)
Inductive Completion (A : Type) : Type :=
| Returns (a : A)
| Raises (e : PyException).
Arguments Returns {A} a.
Arguments Raises {A} e.

(** The calls the registry makes on feed instances. *)
Inductive Call : Type :=
| CallStart (feed : string)   (* [feed_instance.start_standalone()] *)
| CallStop (feed : string).   (* [feed_instance.stop()] *)

Record FeedInfo : Type := {
  name : string;
  category : string;
  market_type : string;
  priority : string;
  feed_instance : FeedInstance;
  status : FeedStatus;
  last_heartbeat : Z;
  start_time : option Z;
  error_count : nat;
  last_error : option string;
  metrics : FeedMetrics;
  health_score : Q;
  consecutive_failures : nat;
  total_runs : nat;
  successful_runs : nat
}.

Record RegistryMetrics : Type := {
  total_feeds : nat;
  running_feeds : nat;
  healthy_feeds : nat;
  degraded_feeds : nat;
  unhealthy_feeds : nat;
  error_feeds : nat;
  avg_health_score : Q;
  last_updated : Z
}.

Record FeedRegistry : Type := {
  feeds : gmap string FeedInfo;
  feed_categories : gmap string (list string);
  feed_priorities : gmap string (list string);
  startup_order : list string;
  shutdown_order : list string;
  registry_metrics : RegistryMetrics;
  health_check_interval : Z;
  heartbeat_timeout : Z     (* seconds *)
}.

Definition priority_classes : list string := ["critical"; "high"; "medium"; "low"].

(** [FeedRegistry(config)] at time [now], with the two settings it reads
    from [config] (defaults 60 and 300). *)
Definition new_registry (interval timeout : Z) (now : Z) : FeedRegistry := {|
  feeds := ∅;
  feed_categories := ∅;
  feed_priorities := list_to_map ((fun p => (p, [])) <$> priority_classes);
  startup_order := [];
  shutdown_order := [];
  registry_metrics := {| total_feeds := 0; running_feeds := 0; healthy_feeds := 0;
                         degraded_feeds := 0; unhealthy_feeds := 0; error_feeds := 0;
                         avg_health_score := 100; last_updated := now |};
  health_check_interval := interval;
  heartbeat_timeout := timeout
|}.

(** Field updates of a [FeedInfo]. *)
Definition set_status (st : FeedStatus) (f : FeedInfo) : FeedInfo :=
  {| name := name f; category := category f; market_type := market_type f;
     priority := priority f; feed_instance := feed_instance f; status := st;
     last_heartbeat := last_heartbeat f; start_time := start_time f;
     error_count := error_count f; last_error := last_error f; metrics := metrics f;
     health_score := health_score f; consecutive_failures := consecutive_failures f;
     total_runs := total_runs f; successful_runs := successful_runs f |}.

Definition set_last_heartbeat (t : Z) (f : FeedInfo) : FeedInfo :=
  {| name := name f; category := category f; market_type := market_type f;
     priority := priority f; feed_instance := feed_instance f; status := status f;
     last_heartbeat := t; start_time := start_time f;
     error_count := error_count f; last_error := last_error f; metrics := metrics f;
     health_score := health_score f; consecutive_failures := consecutive_failures f;
     total_runs := total_runs f; successful_runs := successful_runs f |}.

Definition set_start_time (t : Z) (f : FeedInfo) : FeedInfo :=
  {| name := name f; category := category f; market_type := market_type f;
     priority := priority f; feed_instance := feed_instance f; status := status f;
     last_heartbeat := last_heartbeat f; start_time := Some t;
     error_count := error_count f; last_error := last_error f; metrics := metrics f;
     health_score := health_score f; consecutive_failures := consecutive_failures f;
     total_runs := total_runs f; successful_runs := successful_runs f |}.

Definition set_error (n : nat) (e : option string) (f : FeedInfo) : FeedInfo :=
  {| name := name f; category := category f; market_type := market_type f;
     priority := priority f; feed_instance := feed_instance f; status := status f;
     last_heartbeat := last_heartbeat f; start_time := start_time f;
     error_count := n; last_error := e; metrics := metrics f;
     health_score := health_score f; consecutive_failures := consecutive_failures f;
     total_runs := total_runs f; successful_runs := successful_runs f |}.

Definition set_metrics (m : FeedMetrics) (score : Q) (f : FeedInfo) : FeedInfo :=
  {| name := name f; category := category f; market_type := market_type f;
     priority := priority f; feed_instance := feed_instance f; status := status f;
     last_heartbeat := last_heartbeat f; start_time := start_time f;
     error_count := error_count f; last_error := last_error f; metrics := m;
     health_score := score; consecutive_failures := consecutive_failures f;
     total_runs := total_runs f; successful_runs := successful_runs f |}.

Definition set_runs (failures total successful : nat) (f : FeedInfo) : FeedInfo :=
  {| name := name f; category := category f; market_type := market_type f;
     priority := priority f; feed_instance := feed_instance f; status := status f;
     last_heartbeat := last_heartbeat f; start_time := start_time f;
     error_count := error_count f; last_error := last_error f; metrics := metrics f;
     health_score := health_score f; consecutive_failures := failures;
     total_runs := total; successful_runs := successful |}.

(** Field updates of the registry. *)
Definition with_feeds (fs : gmap string FeedInfo) (r : FeedRegistry) : FeedRegistry :=
  {| feeds := fs; feed_categories := feed_categories r;
     feed_priorities := feed_priorities r; startup_order := startup_order r;
     shutdown_order := shutdown_order r; registry_metrics := registry_metrics r;
     health_check_interval := health_check_interval r;
     heartbeat_timeout := heartbeat_timeout r |}.

Definition with_categories (cs : gmap string (list string)) (r : FeedRegistry) : FeedRegistry :=
  {| feeds := feeds r; feed_categories := cs;
     feed_priorities := feed_priorities r; startup_order := startup_order r;
     shutdown_order := shutdown_order r; registry_metrics := registry_metrics r;
     health_check_interval := health_check_interval r;
     heartbeat_timeout := heartbeat_timeout r |}.

Definition with_priorities (ps : gmap string (list string)) (r : FeedRegistry) : FeedRegistry :=
  {| feeds := feeds r; feed_categories := feed_categories r;
     feed_priorities := ps; startup_order := startup_order r;
     shutdown_order := shutdown_order r; registry_metrics := registry_metrics r;
     health_check_interval := health_check_interval r;
     heartbeat_timeout := heartbeat_timeout r |}.

(** [x or d] on an optional string attribute. *)
Definition or_default (x : option string) (d : string) : string :=
  match x with
  | Some s => if String.eqb s "" then d else s
  | None => d
  end.

(** Python's [min(a, b)] and [max(a, b)]: the first argument unless the
    second is strictly smaller (larger). *)
Definition Qltb (a b : Q) : bool := negb (Qle_bool b a).
Definition py_min (a b : Q) : Q := if Qltb b a then b else a.
Definition py_max (a b : Q) : Q := if Qltb a b then b else a.

Definition _calculate_health_score (m : FeedMetrics) : Q :=
  let score := 100%Q in
  let success_rate := default 100%Q (m_success_rate m) in
  let score := (score - (100 - success_rate) * (1 # 2))%Q in
  let execution_time := default 0%Q (m_execution_time_ms m) in
  let score :=
    if Qltb 10000 execution_time then (score - 20)%Q
    else if Qltb 5000 execution_time then (score - 10)%Q
    else score in
  let error_count := default 0%Q (m_error_count m) in
  let score := (score - py_min (error_count * 5) 30)%Q in
  py_max 0 (py_min 100 score).

(** [sum(1 for f in self.feeds.values() if f.status == st)] *)
Definition count_status (st : FeedStatus) (fs : gmap string FeedInfo) : nat :=
  length (filter (fun f => status f = st) (snd <$> map_to_list fs)).

Definition _update_registry_metrics (now : Z) (r : FeedRegistry) : FeedRegistry :=
  let fs := feeds r in
  let total := size fs in
  {| feeds := fs; feed_categories := feed_categories r;
     feed_priorities := feed_priorities r; startup_order := startup_order r;
     shutdown_order := shutdown_order r;
     registry_metrics :=
       {| total_feeds := total;
          running_feeds := count_status RUNNING fs;
          healthy_feeds := count_status HEALTHY fs;
          degraded_feeds := count_status DEGRADED fs;
          unhealthy_feeds := count_status UNHEALTHY fs;
          error_feeds := count_status ERROR fs;
          avg_health_score :=
            if (0 <? total)%nat
            then (foldr Qplus 0 (health_score ∘ snd <$> map_to_list fs)
                  / inject_Z (Z.of_nat total))%Q
            else 100%Q;
          last_updated := now |};
     health_check_interval := health_check_interval r;
     heartbeat_timeout := heartbeat_timeout r |}.

(** [self.feed_priorities[p]] for one of the four classes. *)
Definition class_list (r : FeedRegistry) (p : string) : list string :=
  default [] (feed_priorities r !! p).

Definition _update_startup_order (r : FeedRegistry) : FeedRegistry :=
  let order := concat (class_list r <$> priority_classes) in
  {| feeds := feeds r; feed_categories := feed_categories r;
     feed_priorities := feed_priorities r; startup_order := order;
     shutdown_order := reverse order; registry_metrics := registry_metrics r;
     health_check_interval := health_check_interval r;
     heartbeat_timeout := heartbeat_timeout r |}.

(** [register_feed].  A priority that is not one of the four classes makes
    [self.feed_priorities[priority]] raise [KeyError]: the handler returns
    [False], the feed and its category being recorded already. *)
Definition register_feed (inst : FeedInstance) (now : Z) (r : FeedRegistry)
  : FeedRegistry * bool :=
  let fname := feed_name inst in
  let fcategory := feed_category inst in
  let mtype := or_default (inst_market_type inst) "stock_market" in
  let prio := or_default (inst_priority inst) "medium" in
  let info := {| name := fname; category := fcategory; market_type := mtype;
                 priority := prio; feed_instance := inst; status := REGISTERED;
                 last_heartbeat := now; start_time := None; error_count := 0;
                 last_error := None; metrics := empty_metrics; health_score := 100;
                 consecutive_failures := 0; total_runs := 0; successful_runs := 0 |} in
  let r := with_feeds (<[fname := info]> (feeds r)) r in
  let members := default [] (feed_categories r !! fcategory) in
  let members := if bool_decide (fname ∈ members) then members else members ++ [fname] in
  let r := with_categories (<[fcategory := members]> (feed_categories r)) r in
  match feed_priorities r !! prio with
  | None => (r, false)
  | Some l =>
      let l := if bool_decide (fname ∈ l) then l else l ++ [fname] in
      let r := with_priorities (<[prio := l]> (feed_priorities r)) r in
      (_update_registry_metrics now (_update_startup_order r), true)
  end.

(** [list.remove(x)]: the first occurrence. *)
Fixpoint remove_first (x : string) (l : list string) : list string :=
  match l with
  | [] => []
  | y :: l' => if String.eqb x y then l' else y :: remove_first x l'
  end.

Definition unregister_feed (fname : string) (now : Z) (r : FeedRegistry)
  : FeedRegistry * bool :=
  match feeds r !! fname with
  | None => (r, false)
  | Some info =>
      let r :=
        match feed_categories r !! category info with
        | Some members =>
            with_categories (<[category info := remove_first fname members]>
                               (feed_categories r)) r
        | None => r
        end in
      match feed_priorities r !! priority info with
      | None => (r, false)   (* [KeyError], caught *)
      | Some l =>
          let r := with_priorities (<[priority info := remove_first fname l]>
                                      (feed_priorities r)) r in
          let r := with_feeds (delete fname (feeds r)) r in
          (_update_registry_metrics now (_update_startup_order r), true)
      end
  end.

(** [self.feeds[feed_name].f = ...] on a feed that is there. *)
Definition update_feed (fname : string) (g : FeedInfo -> FeedInfo) (r : FeedRegistry)
  : FeedRegistry :=
  with_feeds (alter g fname (feeds r)) r.

(** The [try] block of [start_feed]: the registry as the block leaves it,
    the calls made on the instance, and how the block ends.  [started] is
    how [start_standalone()] ends if it is called. *)
Definition start_feed_try (fname : string) (started : Completion unit) (now : Z)
    (r : FeedRegistry) : FeedRegistry * list Call * Completion bool :=
  match feeds r !! fname with
  | None => (r, [], Returns false)
  | Some feed_info =>
      if bool_decide (status feed_info = RUNNING) then (r, [], Returns true)
      else
        let r := update_feed fname (set_status STARTING) r in
        match started with
        | Raises e => (r, [CallStart fname], Raises e)
        | Returns _ =>
            let r := update_feed fname (set_status RUNNING) r in
            let r := update_feed fname (set_start_time now) r in
            (r, [CallStart fname], Returns true)
        end
  end.

(** [start_feed]: the [try] block under its [except Exception] handler,
    which an exception that is no [Exception] passes through. *)
Definition start_feed (fname : string) (started : Completion unit) (now : Z)
    (r : FeedRegistry) : FeedRegistry * list Call * Completion bool :=
  match start_feed_try fname started now r with
  | (r, calls, Raises e) =>
      if is_Exception e then
        let r :=
          if bool_decide (is_Some (feeds r !! fname)) then
            let r := update_feed fname (set_status ERROR) r in
            update_feed fname (fun f => set_error (S (error_count f)) (Some (exn_str e)) f) r
          else r in
        (r, calls, Returns false)
      else (r, calls, Raises e)
  | done => done
  end.

(** The [try] block of [stop_feed]; [stopped] is how [stop()] ends if the
    instance has that method and it is called. *)
Definition stop_feed_try (fname : string) (stopped : Completion unit)
    (r : FeedRegistry) : FeedRegistry * list Call * Completion bool :=
  match feeds r !! fname with
  | None => (r, [], Returns false)
  | Some feed_info =>
      if bool_decide (status feed_info = STOPPED) then (r, [], Returns true)
      else
        let r := update_feed fname (set_status STOPPING) r in
        if has_stop (feed_instance feed_info) then
          match stopped with
          | Raises e => (r, [CallStop fname], Raises e)
          | Returns _ => (update_feed fname (set_status STOPPED) r, [CallStop fname], Returns true)
          end
        else (update_feed fname (set_status STOPPED) r, [], Returns true)
  end.

Definition stop_feed (fname : string) (stopped : Completion unit)
    (r : FeedRegistry) : FeedRegistry * list Call * Completion bool :=
  match stop_feed_try fname stopped r with
  | (r, calls, Raises e) =>
      if is_Exception e then
        let r :=
          if bool_decide (is_Some (feeds r !! fname)) then
            let r := update_feed fname (set_status ERROR) r in
            update_feed fname (fun f => set_error (error_count f) (Some (exn_str e)) f) r
          else r in
        (r, calls, Returns false)
      else (r, calls, Raises e)
  | done => done
  end.

(** The loop of [start_all_feeds] over the names that are left, the [i]-th
    call of the run reading its instance's answer from [answers i] and the
    time from [clock i].  An exception that [start_feed] lets through ends
    the loop. *)
Fixpoint start_each (names : list string) (i : nat) (answers : nat -> Completion unit)
    (clock : nat -> Z) (r : FeedRegistry) (results : gmap string bool) (calls : list Call)
  : FeedRegistry * Completion (gmap string bool) * list Call :=
  match names with
  | [] => (r, Returns results, calls)
  | fname :: rest =>
      match start_feed fname (answers i) (clock i) r with
      | (r, cs, Returns b) =>
          start_each rest (S i) answers clock r (<[fname := b]> results) (calls ++ cs)
      | (r, cs, Raises e) => (r, Raises e, calls ++ cs)
      end
  end.

Definition start_all_feeds (answers : nat -> Completion unit) (clock : nat -> Z)
    (r : FeedRegistry) : FeedRegistry * Completion (gmap string bool) * list Call :=
  start_each (startup_order r) 0 answers clock r ∅ [].

Fixpoint stop_each (names : list string) (i : nat) (answers : nat -> Completion unit)
    (r : FeedRegistry) (results : gmap string bool) (calls : list Call)
  : FeedRegistry * Completion (gmap string bool) * list Call :=
  match names with
  | [] => (r, Returns results, calls)
  | fname :: rest =>
      match stop_feed fname (answers i) r with
      | (r, cs, Returns b) =>
          stop_each rest (S i) answers r (<[fname := b]> results) (calls ++ cs)
      | (r, cs, Raises e) => (r, Raises e, calls ++ cs)
      end
  end.

(** [for feed_name in reversed(self.shutdown_order)] *)
Definition stop_all_feeds (answers : nat -> Completion unit) (r : FeedRegistry)
  : FeedRegistry * Completion (gmap string bool) * list Call :=
  stop_each (reverse (shutdown_order r)) 0 answers r ∅ [].

Definition restart_feed (fname : string) (stopped started : Completion unit) (now : Z)
    (r : FeedRegistry) : FeedRegistry * list Call * Completion bool :=
  match stop_feed fname stopped r with
  | (r, cs, Returns stop_result) =>
      if negb stop_result then (r, cs, Returns false)
      else let '(r, cs', c') := start_feed fname started now r in (r, cs ++ cs', c')
  | raised => raised
  end.


Definition record_feed_error (fname : string) (error : string) (now : Z)
    (r : FeedRegistry) : FeedRegistry :=
  match feeds r !! fname with
  | None => r
  | Some _ =>
      let r := update_feed fname (fun f => set_error (S (error_count f)) (Some error) f) r in
      let r := update_feed fname (set_last_heartbeat now) r in
      let r := update_feed fname (fun f =>
                 set_runs (S (consecutive_failures f)) (total_runs f) (successful_runs f) f) r in
      update_feed fname (fun f =>
        if (5 <=? consecutive_failures f)%nat then set_status UNHEALTHY f
        else if (3 <=? consecutive_failures f)%nat then set_status DEGRADED f
        else f) r
  end.

(** One feed in the loop of [_perform_health_checks]. *)
Definition check_heartbeat (timeout_threshold : Z) (f : FeedInfo) : FeedInfo :=
  if (last_heartbeat f <? timeout_threshold)%Z then
    if bool_decide (status f ∈ [RUNNING; HEALTHY]) then
      set_runs (S (consecutive_failures f)) (total_runs f) (successful_runs f)
               (set_status UNHEALTHY f)
    else f
  else f.

(** [_perform_health_checks] at time [now] (microseconds; the timeout is
    in seconds). *)
Definition _perform_health_checks (now : Z) (r : FeedRegistry) : FeedRegistry :=
  let timeout_threshold := (now - heartbeat_timeout r * 1000000)%Z in
  _update_registry_metrics now
    (with_feeds (check_heartbeat timeout_threshold <$> feeds r) r).

(** *** The scenario of the specification: A (critical), B (medium),
    C (critical), registered in that order *)

Definition instance (n prio : string) : FeedInstance :=
  {| feed_name := n; feed_category := "market"; inst_market_type := None;
     inst_priority := Some prio; has_stop := true |}.

Definition registry_ABC : FeedRegistry :=
  let r := new_registry 60 300 0 in
  let r := (register_feed (instance "A" "critical") 0 r).1 in
  let r := (register_feed (instance "B" "medium") 0 r).1 in
  (register_feed (instance "C" "critical") 0 r).1.

Definition always_ok : nat -> Completion unit := fun _ => Returns tt.

(** [RuntimeError("boom")] and [SystemExit(1)]. *)
Definition boom : PyException := {| is_Exception := true; exn_str := "boom" |}.
Definition system_exit : PyException := {| is_Exception := false; exn_str := "1" |}.




(** Feed A of the scenario after three errors in a row, the last at time
    3 microseconds: it is degraded. *)
Definition A_degraded : FeedRegistry :=
  record_feed_error "A" "e3" 3
    (record_feed_error "A" "e2" 2 (record_feed_error "A" "e1" 1 registry_ABC)).

(** A time more than the heartbeat timeout (300 s) after every heartbeat of
    the scenario. *)
Definition much_later : Z := 400 * 1000000.

(** Feed A of the scenario, started at time 0 and silent since. *)
Definition A_running : FeedRegistry :=
  (start_feed "A" (Returns tt) 0 registry_ABC).1.1.

(** *** The health score in the specification's words *)




End Registry.

(** ** health_monitor.py: the store health monitor *)

Module HealthMonitor.

Inductive HealthStatus : Type :=
| HEALTHY | DEGRADED | UNHEALTHY | CRITICAL | UNKNOWN.

#[global] Instance HealthStatus_eq_dec : EqDecision HealthStatus.
Proof. solve_decision. Defined.

Record HealthThreshold : Type := {
  warning_level : Q;
  critical_level : Q;
  description : string
}.

Record HealthAlert : Type := {
  timestamp : Z;
  alert_type : string;
  severity : string;
  message : string;
  value : option Q;
  threshold : option Q;
  resolved : bool;
  resolved_at : option Z
}.

(** Alerts are objects that the active-alert dictionary and the metrics
    snapshots share, and that [_check_resolved_alerts] updates in place: the
    monitor keeps them in a store, and refers to them by position. *)
Abbreviation alert_ref := nat (only parsing).

Record HealthMetrics : Type := {
  metrics_timestamp : Z;
  status : HealthStatus;
  response_time_ms : Q;
  connection_pool_usage : Q;
  active_connections : Z;
  total_queries : Q;
  failed_queries : Q;
  success_rate : Q;
  avg_query_time_ms : Q;
  total_tables : Z;
  disk_usage_percent : option Q;
  memory_usage_percent : option Q;
  uptime_seconds : Q;
  last_error : option string;
  alerts : list alert_ref
}.

Record QuestDBHealthMonitor : Type := {
  current_status : HealthMetrics;
  status_history : list HealthMetrics;
  active_alerts : gmap string alert_ref;
  alert_store : list HealthAlert;
  thresholds : gmap string HealthThreshold;
  max_history_size : nat;
  alert_cooldown_minutes : Z;
  consecutive_failures : nat;
  last_successful_check : Z;
  _last_logged_status : option HealthStatus
}.

Definition _get_default_thresholds : gmap string HealthThreshold :=
  list_to_map [
    ("response_time_ms",
       {| warning_level := 1000; critical_level := 5000;
          description := "Database response time in milliseconds" |});
    ("connection_pool_usage",
       {| warning_level := 70; critical_level := 90;
          description := "Connection pool usage percentage" |});
    ("success_rate",
       {| warning_level := 95; critical_level := 90;
          description := "Query success rate percentage (reversed - lower is worse)" |});
    ("consecutive_failures",
       {| warning_level := 3; critical_level := 5;
          description := "Number of consecutive health check failures" |});
    ("disk_usage_percent",
       {| warning_level := 80; critical_level := 90;
          description := "Disk usage percentage" |});
    ("memory_usage_percent",
       {| warning_level := 80; critical_level := 90;
          description := "Memory usage percentage" |})].

(** [HealthMetrics()] at time [now]. *)
Definition default_metrics (now : Z) : HealthMetrics := {|
  metrics_timestamp := now; status := UNKNOWN; response_time_ms := 0;
  connection_pool_usage := 0; active_connections := 0; total_queries := 0;
  failed_queries := 0; success_rate := 100; avg_query_time_ms := 0;
  total_tables := 0; disk_usage_percent := None; memory_usage_percent := None;
  uptime_seconds := 0; last_error := None; alerts := []
|}.

(** [QuestDBHealthMonitor(manager)] at time [now]. *)
Definition new_monitor (now : Z) : QuestDBHealthMonitor := {|
  current_status := default_metrics now;
  status_history := [];
  active_alerts := ∅;
  alert_store := [];
  thresholds := _get_default_thresholds;
  max_history_size := 1000;
  alert_cooldown_minutes := 5;
  consecutive_failures := 0;
  last_successful_check := now;
  _last_logged_status := None
|}.

(** The status dictionary [update_status] receives, each entry read as
    the code reads it, with its default when absent.  [sd_status] is [None]
    when the [status] string names no [HealthStatus]. *)
Record StatusData : Type := {
  sd_status : option HealthStatus;
  sd_connection_test_time_ms : Q;
  sd_max_connections : Q;        (* [pool_stats.max_connections], default 1 *)
  sd_active_connections : Q;     (* [pool_stats.active_connections], default 0 *)
  sd_connection_pool_size : Z;
  sd_total_queries : Q;
  sd_failed_queries : Q;
  sd_successful_queries : Q;
  sd_avg_query_time : Q;
  sd_total_tables : Z;
  sd_uptime_seconds : Q;
  sd_error : option string;
  sd_last_error : option string
}.

Definition Qltb (a b : Q) : bool := negb (Qle_bool b a).

Definition _calculate_pool_usage (sd : StatusData) : Q :=
  if Qltb 0 (sd_max_connections sd)
  then (sd_active_connections sd / sd_max_connections sd * 100)%Q
  else 0%Q.

Definition _calculate_success_rate (sd : StatusData) : Q :=
  if Qeq_bool (sd_total_queries sd) 0 then 100%Q
  else (sd_successful_queries sd / sd_total_queries sd * 100)%Q.

(** [f"{x:.2f}"] on the exact value: two decimals, ties to even. *)
Definition format_2f (x : Q) : string :=
  let y := (Qabs x * 100)%Q in
  let lo := Qfloor y in
  let rest := (y - inject_Z lo)%Q in
  let n := if Qltb (1 # 2) rest then (lo + 1)%Z
           else if Qltb rest (1 # 2) then lo
           else if Z.even lo then lo else (lo + 1)%Z in
  let cents := (n mod 100)%Z in
  String.concat "" [if Qltb x 0 then "-" else ""; pretty (n / 100)%Z; ".";
                    if (cents <? 10)%Z then "0" else ""; pretty cents].

(** The four checks of [_check_alert_conditions]: metric, value, and
    whether lower is worse. *)
Definition checks (mon : QuestDBHealthMonitor) (m : HealthMetrics)
  : list (string * Q * bool) :=
  [("response_time_ms", response_time_ms m, false);
   ("connection_pool_usage", connection_pool_usage m, false);
   ("success_rate", success_rate m, true);
   ("consecutive_failures", inject_Z (Z.of_nat (consecutive_failures mon)), false)].

(** The severity of a value against a threshold pair. *)
Definition severity_of (th : HealthThreshold) (reversed_logic : bool) (v : Q)
  : option string :=
  if reversed_logic then
    if Qle_bool v (critical_level th) then Some "critical"
    else if Qle_bool v (warning_level th) then Some "warning"
    else None
  else
    if Qle_bool (critical_level th) v then Some "critical"
    else if Qle_bool (warning_level th) v then Some "warning"
    else None.

(** The cooldown test on the key's active alert:
    [(current_time - last_alert.timestamp).total_seconds()
       < self.alert_cooldown_minutes * 60], times in microseconds. *)
Definition in_cooldown (mon : QuestDBHealthMonitor) (alert_key : string) (now : Z) : bool :=
  match active_alerts mon !! alert_key with
  | Some ref =>
      match alert_store mon !! ref with
      | Some last_alert =>
          (now - timestamp last_alert <? alert_cooldown_minutes mon * 60 * 1000000)%Z
      | None => false
      end
  | None => false
  end.

Definition with_alerts (store : list HealthAlert) (active : gmap string alert_ref)
    (mon : QuestDBHealthMonitor) : QuestDBHealthMonitor :=
  {| current_status := current_status mon; status_history := status_history mon;
     active_alerts := active; alert_store := store; thresholds := thresholds mon;
     max_history_size := max_history_size mon;
     alert_cooldown_minutes := alert_cooldown_minutes mon;
     consecutive_failures := consecutive_failures mon;
     last_successful_check := last_successful_check mon;
     _last_logged_status := _last_logged_status mon |}.

(** The alert one turn of the loop of [_check_alert_conditions] creates,
    if any: none when the metric has no threshold, when the key is in its
    cooldown, or when the value crosses no level. *)
Definition new_alert (mon : QuestDBHealthMonitor) (now : Z) (check : string * Q * bool)
  : option HealthAlert :=
  let '(metric_name, v, reversed_logic) := check in
  match thresholds mon !! metric_name with
  | None => None
  | Some th =>
      if in_cooldown mon metric_name now then None
      else
        match severity_of th reversed_logic v with
        | None => None
        | Some sev =>
            Some {| timestamp := now; alert_type := metric_name; severity := sev;
                    message := String.concat "" [description th; ": "; format_2f v];
                    value := Some v;
                    threshold := Some (if String.eqb sev "warning" then warning_level th
                                       else critical_level th);
                    resolved := false; resolved_at := None |}
        end
  end.

(** One turn of that loop: the alert is appended to [alerts] and filed
    under its key in [self.active_alerts]. *)
Definition check_one (now : Z) (acc : QuestDBHealthMonitor * list alert_ref)
    (check : string * Q * bool) : QuestDBHealthMonitor * list alert_ref :=
  let '(mon, new_alerts) := acc in
  match new_alert mon now check with
  | None => acc
  | Some alert =>
      let ref := length (alert_store mon) in
      (with_alerts (alert_store mon ++ [alert])
                   (<[check.1.1 := ref]> (active_alerts mon)) mon,
       new_alerts ++ [ref])
  end.

(** [getattr(metrics, metric_name, None)] on the numeric attributes. *)
Definition metric_attr (m : HealthMetrics) (metric_name : string) : option Q :=
  if String.eqb metric_name "response_time_ms" then Some (response_time_ms m)
  else if String.eqb metric_name "connection_pool_usage" then Some (connection_pool_usage m)
  else if String.eqb metric_name "success_rate" then Some (success_rate m)
  else if String.eqb metric_name "disk_usage_percent" then disk_usage_percent m
  else if String.eqb metric_name "memory_usage_percent" then memory_usage_percent m
  else None.

(** One turn of the loop of [_check_resolved_alerts], with the removal of
    the resolved key that the code performs after the loop. *)
Definition resolve_one (m : HealthMetrics) (now : Z) (ths : gmap string HealthThreshold)
    (acc : list HealthAlert * gmap string alert_ref) (entry : string * alert_ref)
  : list HealthAlert * gmap string alert_ref :=
  let '(store, active) := acc in
  let '(alert_key, ref) := entry in
  match store !! ref with
  | None => acc
  | Some alert =>
      if resolved alert then acc
      else
        match ths !! alert_type alert with
        | None => acc
        | Some th =>
            match metric_attr m (alert_type alert) with
            | None => acc
            | Some current_value =>
                let is_resolved :=
                  if String.eqb (alert_type alert) "success_rate"
                  then Qltb (warning_level th) current_value
                  else Qltb current_value (warning_level th) in
                if is_resolved then
                  (<[ref := {| timestamp := timestamp alert;
                               alert_type := alert_type alert;
                               severity := severity alert; message := message alert;
                               value := value alert; threshold := threshold alert;
                               resolved := true; resolved_at := Some now |}]> store,
                   delete alert_key active)
                else acc
            end
        end
  end.

(** [_check_resolved_alerts]: the loop over a copy of the active alerts.
    Each turn touches its own key and its own alert only, so that the order
    of the turns does not matter as long as no two keys hold the same
    alert, which is the case of every alert [_check_alert_conditions]
    files. *)
Definition _check_resolved_alerts (m : HealthMetrics) (now : Z)
    (mon : QuestDBHealthMonitor) : QuestDBHealthMonitor :=
  let '(store, active) :=
    foldl (resolve_one m now (thresholds mon)) (alert_store mon, active_alerts mon)
          (map_to_list (active_alerts mon)) in
  with_alerts store active mon.

Definition _check_alert_conditions (m : HealthMetrics) (now : Z)
    (mon : QuestDBHealthMonitor) : QuestDBHealthMonitor * list alert_ref :=
  let '(mon, new_alerts) := foldl (check_one now) (mon, []) (checks mon m) in
  (_check_resolved_alerts m now mon, new_alerts).

(** [self.status_history[-self.max_history_size:]] after the append. *)
Definition _add_to_history (m : HealthMetrics) (history : list HealthMetrics)
    (max_size : nat) : list HealthMetrics :=
  let h := history ++ [m] in
  if (max_size <? length h)%nat
  then (if (max_size =? 0)%nat then h else drop (length h - max_size) h)
  else h.

Definition or_else (a b : option string) : option string :=
  match a with
  | Some s => if String.eqb s "" then b else a
  | None => b
  end.

(** The [HealthMetrics] that [update_status] builds from the status data. *)
Definition snapshot (sd : StatusData) (st : HealthStatus) (now : Z) : HealthMetrics := {|
  metrics_timestamp := now; status := st;
  response_time_ms := sd_connection_test_time_ms sd;
  connection_pool_usage := _calculate_pool_usage sd;
  active_connections := sd_connection_pool_size sd;
  total_queries := sd_total_queries sd;
  failed_queries := sd_failed_queries sd;
  success_rate := _calculate_success_rate sd;
  avg_query_time_ms := sd_avg_query_time sd;
  total_tables := sd_total_tables sd;
  disk_usage_percent := None; memory_usage_percent := None;
  uptime_seconds := sd_uptime_seconds sd;
  last_error := or_else (sd_error sd) (sd_last_error sd);
  alerts := []
|}.

(** [current_metrics.alerts = new_alerts] *)
Definition with_new_alerts (m : HealthMetrics) (new_alerts : list alert_ref)
  : HealthMetrics := {|
  metrics_timestamp := metrics_timestamp m; status := status m;
  response_time_ms := response_time_ms m;
  connection_pool_usage := connection_pool_usage m;
  active_connections := active_connections m; total_queries := total_queries m;
  failed_queries := failed_queries m; success_rate := success_rate m;
  avg_query_time_ms := avg_query_time_ms m; total_tables := total_tables m;
  disk_usage_percent := disk_usage_percent m;
  memory_usage_percent := memory_usage_percent m;
  uptime_seconds := uptime_seconds m; last_error := last_error m;
  alerts := new_alerts
|}.

(** The update of the consecutive failures: a healthy status resets them
    and stamps the check, any other status counts one more. *)
Definition count_check (st : HealthStatus) (now : Z) (mon : QuestDBHealthMonitor)
  : QuestDBHealthMonitor :=
  let healthy := bool_decide (st = HEALTHY) in
  {| current_status := current_status mon; status_history := status_history mon;
     active_alerts := active_alerts mon; alert_store := alert_store mon;
     thresholds := thresholds mon; max_history_size := max_history_size mon;
     alert_cooldown_minutes := alert_cooldown_minutes mon;
     consecutive_failures := if healthy then 0 else S (consecutive_failures mon);
     last_successful_check := if healthy then now else last_successful_check mon;
     _last_logged_status := _last_logged_status mon |}.

(** [update_status(status_data)] at time [now].  A [status] that names no
    [HealthStatus] raises at the first statement of the [try], and the
    handler only logs. *)
Definition update_status (sd : StatusData) (now : Z) (mon : QuestDBHealthMonitor)
  : QuestDBHealthMonitor :=
  match sd_status sd with
  | None => mon
  | Some st =>
      let current_metrics := snapshot sd st now in
      let mon := count_check st now mon in
      let '(mon, new_alerts) := _check_alert_conditions current_metrics now mon in
      let current_metrics := with_new_alerts current_metrics new_alerts in
      {| current_status := current_metrics;
         status_history :=
           _add_to_history current_metrics (status_history mon) (max_history_size mon);
         active_alerts := active_alerts mon; alert_store := alert_store mon;
         thresholds := thresholds mon; max_history_size := max_history_size mon;
         alert_cooldown_minutes := alert_cooldown_minutes mon;
         consecutive_failures := consecutive_failures mon;
         last_successful_check := last_successful_check mon;
         _last_logged_status := Some st |}
  end.

(** [get_active_alerts()] *)
Definition get_active_alerts (mon : QuestDBHealthMonitor) : list HealthAlert :=
  omap (fun kr => alert_store mon !! kr.2) (map_to_list (active_alerts mon)).

(** The alerts a list of references stands for, in a store. *)
Definition deref (store : list HealthAlert) (refs : list alert_ref) : list HealthAlert :=
  omap (fun ref => store !! ref) refs.

(** Status data with a given success rate in percent: that many successes
    out of a hundred queries, everything else quiet. *)
Definition quiet_with_success_rate (pct : Q) : StatusData := {|
  sd_status := Some HEALTHY; sd_connection_test_time_ms := 0;
  sd_max_connections := 10; sd_active_connections := 0;
  sd_connection_pool_size := 10; sd_total_queries := 100; sd_failed_queries := 0;
  sd_successful_queries := pct; sd_avg_query_time := 0; sd_total_tables := 0;
  sd_uptime_seconds := 0; sd_error := None; sd_last_error := None
|}.

(** *** Notions used to state the monitor's properties *)

Definition check_name (c : string * Q * bool) : string := c.1.1.

(** Every active alert is an alert of the store. *)
Definition alerts_stored (mon : QuestDBHealthMonitor) : Prop :=
  forall k ref, active_alerts mon !! k = Some ref -> is_Some (alert_store mon !! ref).


(** A value crosses the warning level of its threshold pair. *)
Definition crosses_warning (th : HealthThreshold) (reversed_logic : bool) (v : Q) : Prop :=
  if reversed_logic then (v <= warning_level th)%Q else (warning_level th <= v)%Q.

(** The test of [_check_resolved_alerts] on one alert. *)
Definition resolvable (m : HealthMetrics) (ths : gmap string HealthThreshold)
    (a : HealthAlert) : bool :=
  negb (resolved a) &&
  match ths !! alert_type a, metric_attr m (alert_type a) with
  | Some th, Some current_value =>
      if String.eqb (alert_type a) "success_rate"
      then Qltb (warning_level th) current_value
      else Qltb current_value (warning_level th)
  | _, _ => false
  end.

Definition mark_resolved (now : Z) (a : HealthAlert) : HealthAlert :=
  {| timestamp := timestamp a; alert_type := alert_type a; severity := severity a;
     message := message a; value := value a; threshold := threshold a;
     resolved := true; resolved_at := Some now |}.

(** What resolution never changes in an alert. *)
Definition core (a : HealthAlert) : Z * string * string :=
  (timestamp a, alert_type a, severity a).

(** Every active alert is an alert of the store, filed under the metric
    it is about.  A new monitor satisfies this, and [update_status] keeps
    it. *)
Definition alerts_filed (mon : QuestDBHealthMonitor) : Prop :=
  forall k ref, active_alerts mon !! k = Some ref ->
    exists a, alert_store mon !! ref = Some a /\ alert_type a = k.

(** The values [update_status] compares with the thresholds: the checks
    on the snapshot it builds, the consecutive failures counted. *)
Definition observed (sd : StatusData) (st : HealthStatus) (now : Z)
    (mon : QuestDBHealthMonitor) : list (string * Q * bool) :=
  checks (count_check st now mon) (snapshot sd st now).

(** The monitor after a first update with a success rate of 92 at time 0:
    a warning is active for [success_rate]. *)
Definition warned : QuestDBHealthMonitor :=
  update_status (quiet_with_success_rate 92) 0 (new_monitor 0).

Definition warning_92 : HealthAlert := {|
  timestamp := 0; alert_type := "success_rate"; severity := "warning";
  message := "Query success rate percentage (reversed - lower is worse): 92.00";
  value := Some (_calculate_success_rate (quiet_with_success_rate 92));
  threshold := Some 95%Q; resolved := false; resolved_at := None
|}.

End HealthMonitor.

(** ** schema_manager.py: columns added later, serialization, type
       mapping and the manager's validation *)

Module SchemaOps.
Import Py Schema.

Definition column_types : list ColumnType :=
  [TIMESTAMP; SYMBOL; STRING; DOUBLE; FLOAT; LONG; INT; BOOLEAN; DATE; BINARY].

(** [ty.value] *)
Definition type_value (ty : ColumnType) : string :=
  match ty with
  | TIMESTAMP => "TIMESTAMP" | SYMBOL => "SYMBOL" | STRING => "STRING"
  | DOUBLE => "DOUBLE" | FLOAT => "FLOAT" | LONG => "LONG" | INT => "INT"
  | BOOLEAN => "BOOLEAN" | DATE => "DATE" | BINARY => "BINARY"
  end.

(** [ColumnType(s)]: the member whose value is [s]; [None] where Python
    raises [ValueError]. *)
Definition ColumnType_of_value (s : string) : option ColumnType :=
  List.find (fun ty => String.eqb (type_value ty) s) column_types.

(** [add_column]: the schema with the column appended;
    [__post_init__] is not run again. *)
Definition add_column (s : TableSchema) (column : ColumnDefinition)
  : result error TableSchema :=
  if existsb (fun col => String.eqb (name col) (name column)) (columns s)
  then Err ValueError
  else Ok {| table_name := table_name s; columns := columns s ++ [column];
             timestamp_column := timestamp_column s; partition_by := partition_by s;
             wal_enabled := wal_enabled s;
             schema_description := schema_description s; version := version s |}.

(** The dictionary of one column in [to_dict] and [from_dict], an entry
    being [None] when the key is absent.  The entries have the types of
    the dataclass fields; [symbol_capacity] and [default_value] can also
    be present and hold [None]. *)
Record ColumnDict : Type := {
  cd_name : option string;
  cd_type : option string;
  cd_nullable : option bool;
  cd_symbol_capacity : option (option Z);
  cd_symbol_cache : option bool;
  cd_index : option bool;
  cd_default_value : option value;
  cd_description : option string
}.

Record SchemaDict : Type := {
  td_table_name : option string;
  td_columns : option (list ColumnDict);
  td_timestamp_column : option string;
  td_partition_by : option string;
  td_wal_enabled : option bool;
  td_description : option string;
  td_version : option string
}.

Definition column_to_dict (col : ColumnDefinition) : ColumnDict := {|
  cd_name := Some (name col);
  cd_type := Some (type_value (type col));
  cd_nullable := Some (nullable col);
  cd_symbol_capacity := Some (symbol_capacity col);
  cd_symbol_cache := Some (symbol_cache col);
  cd_index := Some (index col);
  cd_default_value := Some (default_value col);
  cd_description := Some (description col)
|}.

Definition to_dict (s : TableSchema) : SchemaDict := {|
  td_table_name := Some (table_name s);
  td_columns := Some (column_to_dict <$> columns s);
  td_timestamp_column := Some (timestamp_column s);
  td_partition_by := Some (partition_by s);
  td_wal_enabled := Some (wal_enabled s);
  td_description := Some (schema_description s);
  td_version := Some (version s)
|}.

(** What [from_dict] raises: [KeyError] for a missing key, [ValueError]
    for a type name that is no [ColumnType] or a schema that
    [_validate_schema] rejects. *)
Inductive load_error : Type :=
| KeyError (key : string)
| LoadValueError.

Definition column_from_dict (col_data : ColumnDict) : result load_error ColumnDefinition :=
  match cd_name col_data with
  | None => Err (KeyError "name")
  | Some n =>
      match cd_type col_data with
      | None => Err (KeyError "type")
      | Some t =>
          match ColumnType_of_value t with
          | None => Err LoadValueError
          | Some ty =>
              Ok {| name := n; type := ty;
                    nullable := default true (cd_nullable col_data);
                    symbol_capacity := default None (cd_symbol_capacity col_data);
                    symbol_cache := default false (cd_symbol_cache col_data);
                    index := default false (cd_index col_data);
                    default_value := default VNone (cd_default_value col_data);
                    description := default "" (cd_description col_data) |}
          end
      end
  end.

(** The loop of [from_dict] over [data['columns']]. *)
Fixpoint columns_from_dict (l : list ColumnDict) : result load_error (list ColumnDefinition) :=
  match l with
  | [] => Ok []
  | col_data :: rest =>
      column ← column_from_dict col_data;
      columns ← columns_from_dict rest;
      Ok (column :: columns)
  end.

Definition from_dict (data : SchemaDict) : result load_error TableSchema :=
  match td_columns data with
  | None => Err (KeyError "columns")
  | Some cols =>
      columns ← columns_from_dict cols;
      match td_table_name data with
      | None => Err (KeyError "table_name")
      | Some n =>
          let s := {| table_name := n; columns := columns;
                      timestamp_column := default "timestamp" (td_timestamp_column data);
                      partition_by := default "DAY" (td_partition_by data);
                      wal_enabled := default true (td_wal_enabled data);
                      schema_description := default "" (td_description data);
                      version := default "1.0.0" (td_version data) |} in
          match _validate_schema s with
          | Ok _ => Ok s
          | Err _ => Err LoadValueError
          end
      end
  end.

(** [_map_questdb_type] *)
Definition type_mapping : gmap string ColumnType :=
  list_to_map [("timestamp", TIMESTAMP); ("symbol", SYMBOL); ("string", STRING);
               ("double", DOUBLE); ("float", FLOAT); ("long", LONG); ("int", INT);
               ("boolean", BOOLEAN); ("date", DATE); ("binary", BINARY)].

Definition _map_questdb_type (questdb_type : string) : ColumnType :=
  default STRING (type_mapping !! lower questdb_type).

(** The Python type a column type stands for: what [validate_value]
    returns for a value that is not [None].  A [DATE] column lets a
    [datetime] through, a [BINARY] column anything. *)
Definition has_type (ty : ColumnType) (v : value) : bool :=
  match ty, v with
  | TIMESTAMP, VDatetime _ => true
  | DATE, (VDate _ | VDatetime _) => true
  | (DOUBLE | FLOAT), VFloat _ => true
  | (LONG | INT), VInt _ => true
  | BOOLEAN, VBool _ => true
  | (STRING | SYMBOL), VStr _ => true
  | BINARY, _ => negb (is_none v)
  | _, _ => false
  end.

(** A column that a record has to fill: it is not nullable and has no
    default. *)
Definition required (c : ColumnDefinition) : bool :=
  negb (nullable c) && is_none (default_value c).

End SchemaOps.


(** ** client.py: queries, and notions to state what a batched insert
       commits *)

Module ClientOps.
Import Py Schema Client.

(** The records of a batch that pass validation, validated, in the order
    of the batch: the list the validation loop of [execute_batch_insert]
    builds. *)
Definition valid_records {B : Builtins} (s : TableSchema)
    (data : list (gmap string value)) : list (gmap string value) :=
  omap (fun record => match validate_record s record with
                      | Ok validated_record => Some validated_record
                      | Err _ => None
                      end) data.

(** Attempt [k] on chunk [i] is the one that goes through: it succeeds,
    every attempt before it failed and was rolled back. *)
Definition first_success (db : Store) (i k : nat) : Prop :=
  insert db i k = None /\
  forall j, j < k -> is_Some (insert db i j) /\ rollback db i j = None.

(** The dictionary [execute_query] returns, without what the cursor
    reports ([results], [columns], [rows_affected]). *)
Record QueryResult : Type := {
  qr_success : bool;
  qr_error : option string;
  qr_execution_time_ms : Q
}.

(** [self.metrics['total_queries'] += 1] and the same for
    [successful_queries], or for [failed_queries] with [last_error]. *)
Definition count_query (error : option string) (mt : Metrics) : Metrics :=
  {| total_queries := S (total_queries mt);
     successful_queries :=
       if error is None then S (successful_queries mt) else successful_queries mt;
     failed_queries := if error is None then failed_queries mt else S (failed_queries mt);
     total_inserts := total_inserts mt;
     total_records_inserted := total_records_inserted mt;
     avg_query_time := avg_query_time mt;
     last_error := if error is None then last_error mt else error |}.

(** [execute_query]: the retry loop is the one of the batched insert, on
    a single statement; [insert db 0 k] is how the [k]-th attempt (execute,
    fetch and commit) ends and [rollback db 0 k] the rollback after it.
    The result is [None] when the loop ends without a [return]: the
    function then returns Python's [None]. *)
Definition execute_query (m : QuestDBManager) (db : Store)
  : QuestDBManager * option QueryResult :=
  let failed error_msg :=
    ({| config := config m; schema_manager := schema_manager m;
        metrics := count_query (Some error_msg) (metrics m) |},
     Some {| qr_success := false; qr_error := Some error_msg;
             qr_execution_time_ms := elapsed_ms db |}) in
  match connect db with
  | Some msg => failed msg
  | None =>
      match attempts db (retry_attempts (config m)) 0 0
                     (Z.to_nat (retry_attempts (config m))) with
      | (_, Some msg) => failed msg
      | (true, None) =>
          ({| config := config m; schema_manager := schema_manager m;
              metrics := count_query None (metrics m) |},
           Some {| qr_success := true; qr_error := None;
                   qr_execution_time_ms := elapsed_ms db |})
      | (false, None) => (m, None)
      end
  end.

(** A store whose second chunk cannot be inserted. *)
Definition second_chunk_fails : Store :=
  {| connect := None;
     insert := fun i _ => if (i =? 1)%nat then Some "disk full" else None;
     rollback := fun _ _ => None; elapsed_ms := 1 |}.

(** The sample manager with retries switched off. *)
Definition no_retry_manager : QuestDBManager :=
  {| config := {| host := "localhost"; port := 8812; database := "qdb"; user := "admin";
                  password := "quest"; pool_size := 10; pool_max_overflow := 5;
                  connection_timeout := 10; query_timeout := 30; retry_attempts := 0;
                  retry_delay := 1 |};
     schema_manager := schema_manager quotes_manager;
     metrics := initial_metrics |}.

End ClientOps.


(** ** registry.py: look-ups, starting a category, and notions to state
       the registry's invariants *)

Module RegistryOps.
Import Registry.

(** [get_feed_info] *)
Definition get_feed_info (r : FeedRegistry) (fname : string) : option FeedInfo :=
  feeds r !! fname.

(** [[self.feeds[name] for name in feed_names if name in self.feeds]] *)
Definition infos (r : FeedRegistry) (feed_names : list string) : list FeedInfo :=
  omap (fun n => feeds r !! n) feed_names.

Definition get_feeds_by_category (r : FeedRegistry) (c : string) : list FeedInfo :=
  infos r (default [] (feed_categories r !! c)).

Definition get_feeds_by_priority (r : FeedRegistry) (p : string) : list FeedInfo :=
  infos r (default [] (feed_priorities r !! p)).

(** [start_feeds_by_category]: the loop of [start_all_feeds], over the
    names of the feeds of the category. *)
Definition start_feeds_by_category (c : string) (answers : nat -> Completion unit)
    (clock : nat -> Z) (r : FeedRegistry)
  : FeedRegistry * Completion (gmap string bool) * list Call :=
  start_each (name <$> get_feeds_by_category r c) 0 answers clock r ∅ [].

(** The [FeedInfo] that [register_feed] creates for an instance. *)
Definition fresh_info (inst : FeedInstance) (now : Z) : FeedInfo :=
  {| name := feed_name inst; category := feed_category inst;
     market_type := or_default (inst_market_type inst) "stock_market";
     priority := or_default (inst_priority inst) "medium";
     feed_instance := inst; status := REGISTERED;
     last_heartbeat := now; start_time := None; error_count := 0;
     last_error := None; metrics := empty_metrics; health_score := 100;
     consecutive_failures := 0; total_runs := 0; successful_runs := 0 |}.

(** The instances answer by returning or by raising an [Exception]. *)
Definition only_exceptions (answers : nat -> Completion unit) : Prop :=
  forall i e, answers i = Raises e -> is_Exception e = true.

(** A feed is recorded soundly: under its own name, with no more
    successful runs than runs and a health score between 0 and 100. *)
Definition feed_sound (fname : string) (f : FeedInfo) : Prop :=
  name f = fname /\ successful_runs f <= total_runs f /\
  (0 <= health_score f <= 100)%Q.

Definition feeds_sound (r : FeedRegistry) : Prop :=
  forall fname f, feeds r !! fname = Some f -> feed_sound fname f.

(** What [start_all_feeds] reports about a feed agrees with the registry:
    [True] for a feed that is running, [False] for one that is in error
    or not registered. *)
Definition reported (r : FeedRegistry) (fname : string) (b : bool) : Prop :=
  if b then status <$> feeds r !! fname = Some RUNNING
  else feeds r !! fname = None \/ status <$> feeds r !! fname = Some ERROR.

(** [record_feed_error] for each of a list of errors, given with their
    times, in turn. *)
Definition record_feed_errors (fname : string) (errors : list (string * Z))
    (r : FeedRegistry) : FeedRegistry :=
  foldl (fun r e => record_feed_error fname e.1 e.2 r) r errors.

(** The status [record_feed_error] leaves for a number of consecutive
    failures. *)
Definition status_after (failures : nat) (before : FeedStatus) : FeedStatus :=
  if (5 <=? failures)%nat then UNHEALTHY
  else if (3 <=? failures)%nat then DEGRADED
  else before.

End RegistryOps.


(** ** health_monitor.py: thresholds, reset, and notions to state the
       monitor's invariants *)

Module HealthMonitorOps.
Import HealthMonitor.

(** One entry of the dictionary given to [update_thresholds]: the levels
    it holds under ['warning_level'] and ['critical_level'], a level
    being [None] when its key is absent. *)
Definition update_threshold (threshold_config : option Q * option Q)
    (th : HealthThreshold) : HealthThreshold :=
  {| warning_level := default (warning_level th) threshold_config.1;
     critical_level := default (critical_level th) threshold_config.2;
     description := description th |}.

(** [update_thresholds]: the loop over the entries of the dictionary. *)
Definition update_thresholds (new : gmap string (option Q * option Q))
    (mon : QuestDBHealthMonitor) : QuestDBHealthMonitor :=
  {| current_status := current_status mon; status_history := status_history mon;
     active_alerts := active_alerts mon; alert_store := alert_store mon;
     thresholds :=
       map_fold (fun metric threshold_config ths =>
                   match ths !! metric with
                   | Some th => <[metric := update_threshold threshold_config th]> ths
                   | None => ths
                   end) (thresholds mon) new;
     max_history_size := max_history_size mon;
     alert_cooldown_minutes := alert_cooldown_minutes mon;
     consecutive_failures := consecutive_failures mon;
     last_successful_check := last_successful_check mon;
     _last_logged_status := _last_logged_status mon |}.

(** [reset_alerts] *)
Definition reset_alerts (mon : QuestDBHealthMonitor) : QuestDBHealthMonitor :=
  {| current_status := current_status mon; status_history := status_history mon;
     active_alerts := ∅; alert_store := alert_store mon;
     thresholds := thresholds mon;
     max_history_size := max_history_size mon;
     alert_cooldown_minutes := alert_cooldown_minutes mon;
     consecutive_failures := 0;
     last_successful_check := last_successful_check mon;
     _last_logged_status := _last_logged_status mon |}.

(** No active alert is marked resolved. *)
Definition alerts_unresolved (mon : QuestDBHealthMonitor) : Prop :=
  forall k ref a, active_alerts mon !! k = Some ref -> alert_store mon !! ref = Some a ->
    resolved a = false.

End HealthMonitorOps.

(** ** client.py: the manager's health check, which feeds the monitor *)

Module HealthCheck.
Import Client ClientOps.

(** What one health check meets: how its two queries go ([SELECT 1] and
    the table count), the first cell of the first row of the count
    ([None] when the query returns no row), the seconds since
    [uptime_start], and whether the connection pool has been created. *)
Record Probe : Type := {
  ping : Store;
  stats : Store;
  table_count : option Z;
  uptime : Q;
  pool_ready : bool
}.

(** [self.connection_pool.current_size()] *)
Definition current_size (m : QuestDBManager) (p : Probe) : Z :=
  if pool_ready p then pool_size (config m) else 0.

(** The dictionary [health_status] as [update_status] reads it.  Its
    ['metrics'] entry is a new dictionary with the keys [uptime_seconds],
    [total_queries], [success_rate_percent], [total_records_inserted] and
    [avg_query_time_ms]: the keys [successful_queries], [failed_queries],
    [avg_query_time] and [last_error] that the monitor looks up there are
    absent and read as their defaults, and so are
    [connection_test_time_ms], [pool_stats] and [error]. *)
Definition healthy_status (m : QuestDBManager) (p : Probe) (tables : Z)
  : HealthMonitor.StatusData :=
  {| HealthMonitor.sd_status := Some HealthMonitor.HEALTHY;
     HealthMonitor.sd_connection_test_time_ms := 0;
     HealthMonitor.sd_max_connections := 1;
     HealthMonitor.sd_active_connections := 0;
     HealthMonitor.sd_connection_pool_size := current_size m p;
     HealthMonitor.sd_total_queries := inject_Z (Z.of_nat (total_queries (metrics m)));
     HealthMonitor.sd_failed_queries := 0;
     HealthMonitor.sd_successful_queries := 0;
     HealthMonitor.sd_avg_query_time := 0;
     HealthMonitor.sd_total_tables := tables;
     HealthMonitor.sd_uptime_seconds := uptime p;
     HealthMonitor.sd_error := None;
     HealthMonitor.sd_last_error := None |}.

(** The dictionary [error_status]: its ['metrics'] entry is
    [self.metrics] itself, which has no [uptime_seconds]. *)
Definition unhealthy_status (m : QuestDBManager) (p : Probe) (error : string)
  : HealthMonitor.StatusData :=
  {| HealthMonitor.sd_status := Some HealthMonitor.UNHEALTHY;
     HealthMonitor.sd_connection_test_time_ms := 0;
     HealthMonitor.sd_max_connections := 1;
     HealthMonitor.sd_active_connections := 0;
     HealthMonitor.sd_connection_pool_size := current_size m p;
     HealthMonitor.sd_total_queries := inject_Z (Z.of_nat (total_queries (metrics m)));
     HealthMonitor.sd_failed_queries := inject_Z (Z.of_nat (failed_queries (metrics m)));
     HealthMonitor.sd_successful_queries :=
       inject_Z (Z.of_nat (successful_queries (metrics m)));
     HealthMonitor.sd_avg_query_time := avg_query_time (metrics m);
     HealthMonitor.sd_total_tables := 0;
     HealthMonitor.sd_uptime_seconds := 0;
     HealthMonitor.sd_error := Some error;
     HealthMonitor.sd_last_error := last_error (metrics m) |}.

(** [health_check] at [time.time() = current_time], the monitor's clock
    reading [now]: the manager, its monitor and [_last_health_check]
    afterwards.  Subscripting a query result that is [None] raises
    [TypeError], and the first row of an empty result [IndexError]; the
    handler reports both as an unhealthy status. *)
Definition health_check (m : QuestDBManager) (mon : HealthMonitor.QuestDBHealthMonitor)
    (last_health_check current_time : Q) (p : Probe) (now : Z)
  : QuestDBManager * HealthMonitor.QuestDBHealthMonitor * Q :=
  if HealthMonitor.Qltb (current_time - last_health_check) 60
  then (m, mon, last_health_check)
  else
    let report (m' : QuestDBManager) (status : HealthMonitor.StatusData) :=
      (m', HealthMonitor.update_status status now mon, current_time) in
    let '(m1, result) := execute_query m (ping p) in
    match result with
    | None => report m1 (unhealthy_status m1 p "'NoneType' object is not subscriptable")
    | Some r =>
        if qr_success r then
          let '(m2, stats_result) := execute_query m1 (stats p) in
          match stats_result with
          | None =>
              report m2 (unhealthy_status m2 p "'NoneType' object is not subscriptable")
          | Some s =>
              if qr_success s then
                match table_count p with
                | Some n => report m2 (healthy_status m2 p n)
                | None => report m2 (unhealthy_status m2 p "list index out of range")
                end
              else report m2 (healthy_status m2 p 0)
          end
        else
          report m1 (unhealthy_status m1 p
                       (String.append "Health check query failed: "
                                      (default "None" (qr_error r))))
    end.

(** A health check on which everything works: both queries go through
    and the count is 3 tables. *)
Definition all_well : Probe :=
  {| ping := good_store; stats := good_store; table_count := Some 3%Z;
     uptime := 60; pool_ready := true |}.

End HealthCheck.

(** * Properties *)

(** ** Facts about the float conversions *)

Module PyFloatFacts.
Import PyFloat.
Local Open Scope Z_scope.

Example of_Z_exact : of_Z 12 = Ok (S754_finite false 12 0).
Proof. reflexivity. Qed.

Example of_Z_tie_even :
  of_Z (2 ^ 53 + 1) = Ok (S754_finite false (Z.to_pos (2 ^ 52)) 1).
Proof. vm_compute. reflexivity. Qed.

Example of_Z_overflow : of_Z (2 ^ 1024 - 1) = Err ConvOverflowError.
Proof. vm_compute. reflexivity. Qed.

Example trunc_12_5 : trunc (S754_finite false 25 (-1)) = Ok 12.
Proof. reflexivity. Qed.

Lemma abs_signed (s : bool) (a : Z) :
  0 < a -> Z.abs (if s then - a else a) = a /\ ((if s then - a else a) <? 0) = s.
Proof. destruct s; intros; split; try lia. Qed.

Lemma pow2_pos (k : Z) : 0 <= k -> 0 < 2 ^ k.
Proof. intros. apply Z.pow_pos_nonneg; lia. Qed.

(** Rounding is exact on a positive integer whose dropped bits are all zero. *)
Lemma of_Z_divisible (s : bool) (a : Z) :
  0 < a ->
  0 < Z.log2 a + 1 - prec -> Z.log2 a + 1 - prec <= emax_unit ->
  a mod 2 ^ (Z.log2 a + 1 - prec) = 0 ->
  of_Z (if s then - a else a) =
    Ok (S754_finite s (Z.to_pos (a / 2 ^ (Z.log2 a + 1 - prec))) (Z.log2 a + 1 - prec)).
Proof.
  intros Ha. set (k := Z.log2 a + 1 - prec). intros Hk Hmax Hmod.
  destruct (abs_signed s a Ha) as [Habs Hsgn].
  unfold of_Z. rewrite Habs, Hsgn. fold k. cbv zeta.
  destruct (Z.eqb_spec (if s then - a else a) 0) as [E|_]; [destruct s; lia |].
  destruct (Z.leb_spec k 0); [lia |].
  rewrite Hmod.
  pose proof (pow2_pos (k - 1) ltac:(lia)) as Hhalf.
  destruct (Z.ltb_spec (2 ^ (k - 1)) 0); [lia |].
  destruct (Z.eqb_spec 0 (2 ^ (k - 1))); [lia |].
  cbn [orb andb].
  assert (Hq : a / 2 ^ k < 2 ^ prec).
  { apply Z.div_lt_upper_bound; [apply pow2_pos; lia |].
    rewrite <- Z.pow_add_r by (unfold prec; lia).
    replace (k + prec) with (Z.succ (Z.log2 a)) by (unfold k; lia).
    apply Z.log2_spec; lia. }
  destruct (Z.eqb_spec (a / 2 ^ k) (2 ^ prec)); [lia |].
  cbn [fst snd].
  destruct (Z.ltb_spec emax_unit k); [lia |]. reflexivity.
Qed.

Lemma of_Z_small (s : bool) (a : Z) :
  0 < a -> Z.log2 a + 1 - prec <= 0 ->
  of_Z (if s then - a else a) = Ok (S754_finite s (Z.to_pos a) 0).
Proof.
  intros Ha Hk. destruct (abs_signed s a Ha) as [Habs Hsgn].
  unfold of_Z. rewrite Habs, Hsgn. cbv zeta.
  destruct (Z.eqb_spec (if s then - a else a) 0) as [E|_]; [destruct s; lia |].
  destruct (Z.leb_spec (Z.log2 a + 1 - prec) 0); [reflexivity | lia].
Qed.

Lemma trunc_finite_nonneg_exp (s : bool) (m : Z) (e : Z) :
  0 < m -> 0 <= e ->
  trunc (S754_finite s (Z.to_pos m) e) = Ok (if s then - (m * 2 ^ e) else m * 2 ^ e).
Proof.
  intros Hm He. unfold trunc. rewrite Z2Pos.id by lia.
  destruct (Z.leb_spec 0 e); [reflexivity | lia].
Qed.

(** [int(float(n)) = n] for every integer that is the truncation of a
    double. *)
Lemma trunc_roundtrip (f : spec_float) (n : Z) :
  valid f = true -> trunc f = Ok n ->
  exists g, of_Z n = Ok g /\ trunc g = Ok n.
Proof.
  destruct f as [s| s | |s m e]; cbn [valid trunc]; intros Hv Ht; try discriminate.
  - inversion Ht; subst. exists (S754_zero false). split; reflexivity.
  - apply andb_prop in Hv as [Hv He2]. apply andb_prop in Hv as [Hm He1].
    apply Z.ltb_lt in Hm. apply Z.leb_le in He1, He2.
    set (a := if 0 <=? e then Z.pos m * 2 ^ e else Z.pos m / 2 ^ (- e)) in *.
    inversion Ht as [Hn]; clear Ht.
    assert (Ha0 : 0 <= a).
    { unfold a. destruct (Z.leb_spec 0 e).
      - pose proof (pow2_pos e ltac:(lia)). nia.
      - apply Z.div_pos; [lia | apply pow2_pos; lia]. }
    destruct (Z.eq_dec a 0) as [Hz | Hnz].
    + rewrite Hz. exists (S754_zero false). destruct s; split; reflexivity.
    + assert (Ha : 0 < a) by lia.
      destruct (Z_le_gt_dec (Z.log2 a + 1 - prec) 0) as [Hk | Hk].
      * exists (S754_finite s (Z.to_pos a) 0). split; [apply of_Z_small; assumption |].
        rewrite trunc_finite_nonneg_exp by lia. rewrite Z.pow_0_r, Z.mul_1_r. reflexivity.
      * assert (He : 0 <= e).
        { destruct (Z.leb_spec 0 e) as [|Hneg]; [assumption | exfalso].
          assert (a <= Z.pos m).
          { unfold a. apply Z.div_le_upper_bound; [apply pow2_pos; lia |].
            pose proof (pow2_pos (- e) ltac:(lia)). nia. }
          assert (Z.log2 a < prec); [| lia].
          apply Z.log2_lt_pow2; lia. }
        assert (Ea : a = Z.pos m * 2 ^ e).
        { unfold a. destruct (Z.leb_spec 0 e); [reflexivity | lia]. }
        assert (Hlog : Z.log2 a = e + Z.log2 (Z.pos m)).
        { rewrite Ea. apply Z.log2_mul_pow2; lia. }
        assert (Hlm : Z.log2 (Z.pos m) < prec) by (apply Z.log2_lt_pow2; lia).
        set (k := Z.log2 a + 1 - prec) in *.
        assert (Hke : k <= e) by (unfold k; lia).
        assert (Hdiv : a = (Z.pos m * 2 ^ (e - k)) * 2 ^ k).
        { rewrite Ea, <- Z.mul_assoc, <- Z.pow_add_r by lia. do 2 f_equal. lia. }
        assert (Hmod : a mod 2 ^ k = 0).
        { rewrite Hdiv. apply Z.mod_mul. pose proof (pow2_pos k ltac:(lia)). lia. }
        exists (S754_finite s (Z.to_pos (a / 2 ^ k)) k). split.
        -- apply of_Z_divisible; fold k; try assumption; lia.
        -- assert (Hq : 0 < a / 2 ^ k).
           { rewrite Hdiv at 1. rewrite Z.div_mul by (pose proof (pow2_pos k ltac:(lia)); lia).
             pose proof (pow2_pos (e - k) ltac:(lia)). nia. }
           rewrite trunc_finite_nonneg_exp by lia.
           replace (a / 2 ^ k * 2 ^ k) with a; [reflexivity |].
           rewrite Hdiv at 2. rewrite Z.div_mul by (pose proof (pow2_pos k ltac:(lia)); lia).
           exact Hdiv.
Qed.

Lemma valid_finite (s : bool) (m e : Z) :
  0 < m < 2 ^ prec -> emin_unit <= e <= emax_unit ->
  valid (S754_finite s (Z.to_pos m) e) = true.
Proof.
  intros Hm He. unfold valid. rewrite Z2Pos.id by lia.
  apply andb_true_intro; split; [apply andb_true_intro; split |].
  - apply Z.ltb_lt; lia.
  - apply Z.leb_le; lia.
  - apply Z.leb_le; lia.
Qed.

Lemma of_Z_valid (n : Z) (f : spec_float) : of_Z n = Ok f -> valid f = true.
Proof.
  unfold of_Z. destruct (Z.eqb_spec n 0) as [|Hn]; [intros [= <-]; reflexivity |].
  cbv zeta. set (a := Z.abs n). set (k := Z.log2 a + 1 - prec).
  assert (Ha : 0 < a) by (unfold a; lia).
  destruct (Z.leb_spec k 0) as [Hk | Hk].
  - intros [= <-]. apply valid_finite; [| unfold emin_unit, emax_unit; lia].
    split; [lia |]. apply Z.log2_lt_pow2; [lia | unfold k in Hk; lia].
  - set (q := a / 2 ^ k). set (r := a mod 2 ^ k).
    set (q' := if (2 ^ (k - 1) <? r) || (r =? 2 ^ (k - 1)) && Z.odd q then q + 1 else q).
    assert (Hqlo : 2 ^ (prec - 1) <= q).
    { unfold q. apply Z.div_le_lower_bound; [apply pow2_pos; lia |].
      rewrite <- Z.pow_add_r by (unfold prec; lia).
      replace (k + (prec - 1)) with (Z.log2 a) by (unfold k; lia).
      apply Z.log2_spec; lia. }
    assert (Hqhi : q < 2 ^ prec).
    { unfold q. apply Z.div_lt_upper_bound; [apply pow2_pos; lia |].
      rewrite <- Z.pow_add_r by (unfold prec; lia).
      replace (k + prec) with (Z.succ (Z.log2 a)) by (unfold k; lia).
      apply Z.log2_spec; lia. }
    assert (Hq' : 2 ^ (prec - 1) <= q' <= 2 ^ prec)
      by (unfold q'; destruct ((2 ^ (k - 1) <? r) || (r =? 2 ^ (k - 1)) && Z.odd q); lia).
    pose proof (pow2_pos (prec - 1) ltac:(unfold prec; lia)) as Hp.
    assert (Hpp : 2 ^ (prec - 1) < 2 ^ prec) by (apply Z.pow_lt_mono_r; unfold prec; lia).
    destruct (Z.eqb_spec q' (2 ^ prec)) as [Eq | Nq]; cbn [fst snd].
    + destruct (Z.ltb_spec emax_unit (k + 1)); [discriminate |].
      intros Hf.
      replace f with (S754_finite (n <? 0) (Z.to_pos (2 ^ (prec - 1))) (k + 1)) by congruence.
      apply valid_finite; [lia | unfold emin_unit; lia].
    + destruct (Z.ltb_spec emax_unit k); [discriminate |].
      intros Hf. replace f with (S754_finite (n <? 0) (Z.to_pos q') k) by congruence.
      apply valid_finite; [lia | unfold emin_unit; lia].
Qed.

End PyFloatFacts.

(** ** Properties of schema_manager.py *)

Module SchemaFacts.
Import Py Schema.

Example lower_True : Py.lower "TrUe" = "true".
Proof. reflexivity. Qed.

Example replace_Z_utc : Py.replace_Z "2024-01-02T03:04:05Z" = "2024-01-02T03:04:05+00:00".
Proof. reflexivity. Qed.

Example eqb_true_one : Py.eqb (VBool true) (VFloat (S754_finite false 1 0)) = true.
Proof. reflexivity. Qed.

Example eqb_nan : Py.eqb (VFloat S754_nan) (VFloat S754_nan) = false.
Proof. reflexivity. Qed.

Example price_abc_fails :
  @validate_value Samples.sample_builtins Samples.price (VStr "abc") = Err ValueError.
Proof. reflexivity. Qed.

Example price_12_5_coerces :
  @validate_value Samples.sample_builtins Samples.price (VStr "12.5") = Ok (VFloat Samples.f12_5).
Proof. reflexivity. Qed.

Example quotes_is_a_schema : _validate_schema Samples.quotes = Ok tt.
Proof. reflexivity. Qed.

Lemma eqb_refl (v : value) : is_nan v = false -> Py.eqb v v = true.
Proof.
  destruct v as [|b|n|f|s|d|d|o]; cbn; intros Hn.
  - reflexivity.
  - apply Z.eqb_refl.
  - apply Z.eqb_refl.
  - destruct f as [s|s| |s m e]; cbn in *; try discriminate.
    + reflexivity.
    + destruct s; reflexivity.
    + apply Qeq_bool_iff. reflexivity.
  - apply String.eqb_refl.
  - destruct (dt_utcoffset d); [apply Z.eqb_refl |].
    rewrite !Z.eqb_refl. reflexivity.
  - apply Z.eqb_refl.
  - apply Nat.eqb_refl.
Qed.

Section WithBuiltins.
Context {B : Builtins}.

Lemma float_valid (v : value) (f : spec_float) :
  wf_builtins B -> wf_value v = true -> float v = Ok f -> PyFloat.valid f = true.
Proof.
  intros HB Hv. destruct v as [|b|n|g|s|d|d|o]; cbn; try discriminate.
  - destruct b; intros [= <-]; reflexivity.
  - apply PyFloatFacts.of_Z_valid.
  - intros [= <-]. exact Hv.
  - destruct (float_of_str s) as [g|] eqn:E; [| discriminate].
    intros [= <-]. exact (HB s g E).
  - cbn in Hv. destruct (obj_float o) as [g|]; [| discriminate].
    intros [= <-]. exact Hv.
Qed.

(** What [convert] returns is not [None], and is a fixed point of it. *)
Lemma convert_fixed (ty : ColumnType) (v v' : value) :
  wf_builtins B -> wf_value v = true -> is_none v = false ->
  convert ty v = Ok v' ->
  is_none v' = false /\ convert ty v' = Ok v'.
Proof.
  intros HB Hwf Hnn. destruct ty; cbn [convert].
  - (* TIMESTAMP *)
    destruct v; try discriminate.
    + destruct (fromisoformat _); [| discriminate]. intros [= <-]. split; reflexivity.
    + intros [= <-]. split; reflexivity.
  - (* SYMBOL *) intros [= <-]. split; reflexivity.
  - (* STRING *) intros [= <-]. split; reflexivity.
  - (* DOUBLE *)
    destruct (float v) as [f|e]; cbn; [| discriminate]. intros [= <-]. split; reflexivity.
  - (* FLOAT *)
    destruct (float v) as [f|e]; cbn; [| discriminate]. intros [= <-]. split; reflexivity.
  - (* LONG *)
    unfold int_of_float. destruct (float v) as [f|e] eqn:Ef; cbn; [| discriminate].
    destruct (PyFloat.trunc f) as [n|e] eqn:Et; cbn; [| discriminate].
    intros [= <-]. split; [reflexivity |].
    destruct (PyFloatFacts.trunc_roundtrip f n (float_valid v f HB Hwf Ef) Et)
      as (g & Hg & Htg).
    cbn. rewrite Hg. cbn. rewrite Htg. reflexivity.
  - (* INT *)
    unfold int_of_float. destruct (float v) as [f|e] eqn:Ef; cbn; [| discriminate].
    destruct (PyFloat.trunc f) as [n|e] eqn:Et; cbn; [| discriminate].
    intros [= <-]. split; [reflexivity |].
    destruct (PyFloatFacts.trunc_roundtrip f n (float_valid v f HB Hwf Ef) Et)
      as (g & Hg & Htg).
    cbn. rewrite Hg. cbn. rewrite Htg. reflexivity.
  - (* BOOLEAN *)
    destruct v; intros [= <-]; split; reflexivity.
  - (* DATE *)
    destruct v; try discriminate.
    + destruct (strptime_ymd _); [| discriminate]. intros [= <-]. split; reflexivity.
    + intros [= <-]. split; reflexivity.
    + intros [= <-]. split; reflexivity.
  - (* BINARY *) intros [= <-]. split; [exact Hnn | reflexivity].
Qed.

Lemma reraise_ok {A} (r : result PyFloat.conv_error A) (a : A) :
  reraise r = Ok a <-> r = Ok a.
Proof.
  split; [| intros ->; reflexivity].
  destruct r as [x|[]]; cbn; congruence.
Qed.

Lemma validate_value_fixed (c : ColumnDefinition) (v v' : value) :
  wf_builtins B -> wf_value v = true ->
  validate_value c v = Ok v' -> validate_value c v' = Ok v'.
Proof.
  intros HB Hwf. unfold validate_value.
  destruct (is_none v) eqn:Hn.
  - destruct (nullable c) eqn:Hnull; cbn [negb]; [| discriminate].
    intros [= <-]. reflexivity.
  - rewrite reraise_ok. intros Hc.
    destruct (convert_fixed (type c) v v' HB Hwf Hn Hc) as [Hn' Hc'].
    rewrite Hn', Hc'. reflexivity.
Qed.

(** The loop of [validate_record]: the keys it adds are the columns' names,
    the other keys keep their entry, and with distinct names every column
    reads the validation of its own field. *)
Lemma validate_columns_spec (cs : list ColumnDefinition)
    (record acc validated : gmap string value) :
  validate_columns cs record acc = Ok validated ->
  dom validated = list_to_set (name <$> cs) ∪ dom acc /\
  (forall k, k ∉ name <$> cs -> validated !! k = acc !! k) /\
  (NoDup (name <$> cs) -> forall c, c ∈ cs ->
     exists v, validate_value c (field_value record c) = Ok v /\
               validated !! name c = Some v).
Proof.
  revert acc. induction cs as [|c cs IH]; intros acc; cbn [validate_columns].
  - intros [= <-]. split; [| split].
    + cbn. set_solver.
    + reflexivity.
    + intros _ c Hc. inversion Hc.
  - destruct (validate_value c (field_value record c)) as [v|e] eqn:Ev; cbn; [| discriminate].
    intros Hrest. destruct (IH _ Hrest) as (Hdom & Hout & Hin).
    split; [| split].
    + rewrite Hdom, dom_insert_L. set_solver.
    + intros k Hk. rewrite Hout by set_solver.
      apply lookup_insert_ne. set_solver.
    + intros Hnd c' Hc'. apply NoDup_cons in Hnd as [Hfresh Hnd].
      apply elem_of_cons in Hc' as [-> | Hc'].
      * exists v. split; [exact Ev |].
        rewrite Hout by exact Hfresh. apply lookup_insert_eq.
      * apply (Hin Hnd c' Hc').
Qed.

End WithBuiltins.

Lemma remove_dups_length_le {A} `{EqDecision A} (l : list A) :
  length (remove_dups l) <= length l.
Proof.
  induction l as [|x l IH]; cbn; [lia |].
  destruct (decide_rel elem_of x l); cbn; lia.
Qed.

Lemma remove_dups_length_NoDup {A} `{EqDecision A} (l : list A) :
  length l = length (remove_dups l) -> NoDup l.
Proof.
  induction l as [|x l IH]; cbn; [constructor |].
  pose proof (remove_dups_length_le l).
  destruct (decide_rel elem_of x l); cbn; intros Hlen; [lia |].
  constructor; [assumption | apply IH; lia].
Qed.

(** A schema that passed [_validate_schema] has pairwise distinct column
    names. *)
Lemma _validate_schema_NoDup (s : TableSchema) :
  _validate_schema s = Ok tt -> NoDup (column_names s).
Proof.
  unfold _validate_schema.
  destruct (String.eqb _ _); [discriminate |].
  destruct (columns s) eqn:Ec; [discriminate |].
  destruct (get_column s _); [| discriminate].
  destruct (negb (is_timestamp _)); [discriminate |].
  destruct (Nat.eqb_spec (length (column_names s)) (length (remove_dups (column_names s))))
    as [Hlen|]; [| discriminate].
  intros _. apply remove_dups_length_NoDup. exact Hlen.
Qed.

Lemma sample_builtins_wf : wf_builtins Samples.sample_builtins.
Proof.
  intros s f. cbn.
  destruct (String.eqb s "12.5"); [intros [= <-]; reflexivity |].
  destruct (String.eqb s "nan"); [intros [= <-]; reflexivity |].
  destruct (String.eqb s "7"); [intros [= <-]; reflexivity | discriminate].
Qed.

(** C8, as the specification states it, fails on a NaN.  A [DOUBLE] column
    accepts the float NaN and returns it; validating the result again
    returns the NaN again, and a NaN does not compare equal to itself. *)
Lemma validate_value_nan_not_equal :
  @validate_value Samples.sample_builtins Samples.price (VFloat S754_nan)
    = Ok (VFloat S754_nan) /\
  (v ← @validate_value Samples.sample_builtins Samples.price (VFloat S754_nan);
   @validate_value Samples.sample_builtins Samples.price v) = Ok (VFloat S754_nan) /\
  Py.eqb (VFloat S754_nan) (VFloat S754_nan) = false.
Proof. repeat split. Qed.

(** C8 (amended).  For every column definition and every raw value that
    [validate_value] accepts, validating the result again returns that very
    result; the two compare equal under Python's [==] whenever the result
    is not a float NaN.  The raw value's floats are doubles, and so are
    those of the interpreter's parser. *)
Theorem validate_value_idempotent {B : Builtins} (c : ColumnDefinition) (v v' : value) :
  wf_builtins B -> wf_value v = true ->
  validate_value c v = Ok v' ->
  validate_value c v' = Ok v' /\ (is_nan v' = false -> Py.eqb v' v' = true).
Proof.
  intros HB Hwf Hv. split.
  - exact (validate_value_fixed c v v' HB Hwf Hv).
  - apply eqb_refl.
Qed.

(** The theorem at the integer 2^53 + 1 in a [LONG] column: it is coerced
    to 2^53, which is then stable. *)
Lemma validate_value_idempotent_witness :
  @validate_value Samples.sample_builtins (Samples.column "volume" LONG true VNone)
     (VInt (2 ^ 53)) = Ok (VInt (2 ^ 53)) /\
  (is_nan (VInt (2 ^ 53)) = false -> Py.eqb (VInt (2 ^ 53)) (VInt (2 ^ 53)) = true).
Proof.
  apply (@validate_value_idempotent Samples.sample_builtins
           (Samples.column "volume" LONG true VNone) (VInt (2 ^ 53 + 1)) (VInt (2 ^ 53))).
  - exact sample_builtins_wf.
  - reflexivity.
  - vm_compute. reflexivity.
Defined.

(** C10.  A successful [validate_record] returns a dictionary whose keys
    are exactly the schema's column names, so that input fields no column
    names are dropped; for a column whose field is absent (or [None]) and
    that has a default, the entry is that default as [validate_value]
    returns it; for a column without default whose field is absent, the
    column is nullable and the entry is [None]. *)
Theorem validate_record_keys {B : Builtins} (s : TableSchema)
    (record validated : gmap string value) :
  _validate_schema s = Ok tt ->
  validate_record s record = Ok validated ->
  dom validated = list_to_set (column_names s) /\
  (forall k, k ∉ column_names s -> validated !! k = None) /\
  (forall c, c ∈ columns s -> default VNone (record !! name c) = VNone ->
     (default_value c <> VNone ->
        exists v, validate_value c (default_value c) = Ok v /\
                  validated !! name c = Some v) /\
     (default_value c = VNone ->
        nullable c = true /\ validated !! name c = Some VNone)).
Proof.
  intros Hs Hv. apply _validate_schema_NoDup in Hs.
  destruct (validate_columns_spec _ _ _ _ Hv) as (Hdom & Hout & Hin).
  split; [| split].
  - rewrite Hdom, dom_empty_L. unfold column_names. set_solver.
  - intros k Hk. rewrite (Hout k Hk). apply lookup_empty.
  - intros c Hc Habs. destruct (Hin Hs c Hc) as (v & Hval & Hlook).
    unfold field_value in Hval. rewrite Habs in Hval. cbn [is_none andb] in Hval.
    split.
    + intros Hd. exists v. split; [| exact Hlook].
      destruct (default_value c); cbn in Hval; exact Hval.
    + intros Hd. rewrite Hd in Hval. cbn in Hval.
      destruct (nullable c); cbn in Hval; [| discriminate].
      injection Hval as <-. split; [reflexivity | exact Hlook].
Qed.

(** The theorem on the sample table: the unknown field [exchange] is
    dropped, the absent [volume] reads its default ["7"] coerced to 7, and
    the absent [note] reads [None]. *)
Lemma validate_record_keys_witness :
  let validated : gmap string value :=
    <["timestamp" := VDatetime {| dt_ordinal := 738887; dt_micros := 0;
                                  dt_utcoffset := Some 0%Z |}]>
      (<["price" := VFloat Samples.f12_5]>
         (<["volume" := VInt 7]> (<["note" := VNone]> ∅))) in
  dom validated = list_to_set (column_names Samples.quotes) /\
  (forall k, k ∉ column_names Samples.quotes -> validated !! k = None) /\
  (forall c, c ∈ columns Samples.quotes ->
     default VNone (Samples.quote_ok !! name c) = VNone ->
     (default_value c <> VNone ->
        exists v, @validate_value Samples.sample_builtins c (default_value c) = Ok v /\
                  validated !! name c = Some v) /\
     (default_value c = VNone ->
        nullable c = true /\ validated !! name c = Some VNone)).
Proof.
  apply (@validate_record_keys Samples.sample_builtins Samples.quotes Samples.quote_ok).
  - reflexivity.
  - vm_compute. reflexivity.
Defined.

End SchemaFacts.

(** ** Properties of client.py *)

Module ClientFacts.
Import Py Schema Client.

Section WithBuiltins.
Context {B : Builtins}.

(** The validation loop counts every record once, keeps one validated
    record per success, and counts no success only if every record fails. *)
Lemma validate_all_counts (s : TableSchema) (data : list (gmap string value)) :
  forall vd i f vd' i' f',
    validate_all s data vd i f = (vd', i', f') ->
    i' + f' = i + f + length data /\
    length vd' + i = length vd + i' /\
    i <= i' /\
    (i' = i -> Forall (fails s) data).
Proof.
  induction data as [|record rest IH]; intros vd i f vd' i' f'; cbn [validate_all].
  - intros [= <- <- <-]. cbn. split; [lia |]. split; [lia |]. split; [lia | constructor].
  - destruct (validate_record s record) as [vr|e] eqn:Ev; intros Hrest;
      destruct (IH _ _ _ _ _ _ Hrest) as (Hsum & Hlen & Hle & Hall).
    + rewrite length_app in Hlen. cbn in *.
      split; [lia |]. split; [lia |]. split; [lia |]. intros ->. lia.
    + cbn. split; [lia |]. split; [lia |]. split; [lia |].
      intros Hi. constructor; [unfold fails; rewrite Ev; reflexivity | auto].
Qed.

(** With a positive batch size the chunks are the whole list, in order:
    the fuel given in [try_block] is enough. *)
Lemma concat_chunks {A} (bs : nat) (l : list A) (fuel : nat) :
  0 < bs -> length l <= fuel -> concat (chunks fuel bs l) = l.
Proof.
  intros Hbs. revert l. induction fuel as [|fuel IH]; intros l Hl.
  - destruct l; [reflexivity | cbn in Hl; lia].
  - destruct l as [|x l]; [reflexivity |]. cbn [chunks concat].
    rewrite IH; [apply take_drop |].
    rewrite length_drop. cbn in *. lia.
Qed.

End WithBuiltins.

(** C1, as the specification states it, fails when the table has no
    registered schema: the call fails fast, before any record is validated,
    and reports 0 inserted and 0 failed for a batch of one record, which
    itself passes validation against the table's schema. *)
Lemma execute_batch_insert_no_schema :
  let r := (@execute_batch_insert Samples.sample_builtins empty_manager good_store
              "quotes" [Samples.quote_ok] 1000).2 in
  records_inserted r + records_failed r <> length [Samples.quote_ok] /\
  records_inserted r = 0 /\
  is_ok (@validate_record Samples.sample_builtins Samples.quotes Samples.quote_ok) = true.
Proof. vm_compute. repeat split. discriminate. Qed.

(** C1 (amended).  When a schema is registered for the table, for every
    batch of N records, every batch size and every behaviour of the store,
    the result satisfies [records_inserted + records_failed = N], and
    [records_inserted = 0] only if every one of the N records failed schema
    validation. *)
Theorem execute_batch_insert_counts {B : Builtins} (m : QuestDBManager) (db : Store)
    (table : string) (data : list (gmap string value)) (batch_size : Z)
    (s : TableSchema) :
  get_schema (schema_manager m) table = Some s ->
  let r := (execute_batch_insert m db table data batch_size).2 in
  records_inserted r + records_failed r = length data /\
  (records_inserted r = 0 -> Forall (fails s) data).
Proof.
  intros Hs. unfold execute_batch_insert.
  destruct data as [|record rest]; [cbn; split; [reflexivity | constructor] |].
  set (data := record :: rest). unfold try_block. rewrite Hs.
  destruct (validate_all s data [] 0 0) as [[vd i] f] eqn:Hv.
  destruct (validate_all_counts s data _ _ _ _ _ _ Hv) as (Hsum & Hlen & _ & Hall).
  cbn [length] in Hlen. rewrite !Nat.add_0_l in Hsum. rewrite Nat.add_0_r in Hlen.
  destruct vd as [|v vd].
  - cbn. split; [reflexivity |]. intros _. apply Hall. cbn in Hlen. lia.
  - destruct (connect db); [cbn; split; [exact Hsum | exact Hall] |].
    destruct (batch_size =? 0)%Z; [cbn; split; [exact Hsum | exact Hall] |].
    destruct (insert_chunks _ _ _ _ _ _) as [committed [msg|]];
      cbn; (split; [exact Hsum | exact Hall]).
Qed.

(** The theorem on the sample table and a batch of two records, the second
    of which has a price that is no number. *)
Lemma execute_batch_insert_counts_witness :
  let r := (@execute_batch_insert Samples.sample_builtins quotes_manager good_store
              "quotes" [Samples.quote_ok; Samples.quote_bad] 1000).2 in
  records_inserted r + records_failed r = 2 /\
  (records_inserted r = 0 ->
   Forall (@fails Samples.sample_builtins Samples.quotes)
          [Samples.quote_ok; Samples.quote_bad]).
Proof.
  apply (@execute_batch_insert_counts Samples.sample_builtins quotes_manager good_store
           "quotes" [Samples.quote_ok; Samples.quote_bad] 1000 Samples.quotes).
  vm_compute. reflexivity.
Defined.

Example batch_of_two :
  let r := (@execute_batch_insert Samples.sample_builtins quotes_manager good_store
              "quotes" [Samples.quote_ok; Samples.quote_bad] 1000).2 in
  (success r, records_inserted r, records_failed r) = (true, 1, 1).
Proof. vm_compute. reflexivity. Qed.

End ClientFacts.

(** ** Properties of registry.py *)

Module RegistryFacts.
Import Registry.

(** *** The health score *)






Example health_score_extreme :
  _calculate_health_score
    {| m_success_rate := Some (-1000000)%Q; m_execution_time_ms := Some 99999999%Q;
       m_error_count := Some 1000%Q; m_success := None; m_others := false |} = 0%Q /\
  _calculate_health_score
    {| m_success_rate := Some 1000000%Q; m_execution_time_ms := Some 0%Q;
       m_error_count := Some (-1000)%Q; m_success := None; m_others := false |} = 100%Q /\
  (_calculate_health_score
    {| m_success_rate := Some 90%Q; m_execution_time_ms := Some 6000%Q;
       m_error_count := Some 2%Q; m_success := None; m_others := false |} == 75)%Q.
Proof. vm_compute. repeat split. Qed.

(** *** Reading a feed after updates *)

Lemma lookup_update_feed (fname : string) (g : FeedInfo -> FeedInfo) (r : FeedRegistry) :
  feeds (update_feed fname g r) !! fname = g <$> feeds r !! fname.
Proof. cbn. apply lookup_alter_eq. Qed.

Lemma lookup_update_feed_Some (fname : string) (g : FeedInfo -> FeedInfo)
    (r : FeedRegistry) (info : FeedInfo) :
  feeds r !! fname = Some info -> feeds (update_feed fname g r) !! fname = Some (g info).
Proof. intros H. rewrite lookup_update_feed, H. reflexivity. Qed.

Lemma feeds_update_registry_metrics (now : Z) (r : FeedRegistry) :
  feeds (_update_registry_metrics now r) = feeds r.
Proof. reflexivity. Qed.

(** *** Start and stop catch the exceptions of the instance *)

(** C5, as the specification states it, fails for an exception that is no
    [Exception]: when the instance's [start_standalone] raises
    [SystemExit], the handler [except Exception] does not apply, [start_feed]
    raises to its caller, and the feed is left in status [STARTING]; the
    same holds of [stop_feed], which leaves the feed in status [STOPPING]. *)
Lemma start_feed_passes_system_exit :
  (start_feed "A" (Raises system_exit) 7 registry_ABC).2 = Raises system_exit /\
  status <$> feeds (start_feed "A" (Raises system_exit) 7 registry_ABC).1.1 !! "A"
    = Some STARTING /\
  (stop_feed "A" (Raises system_exit) registry_ABC).2 = Raises system_exit /\
  status <$> feeds (stop_feed "A" (Raises system_exit) registry_ABC).1.1 !! "A"
    = Some STOPPING.
Proof. vm_compute. repeat split. Qed.

(** C5 (amended).  Whatever the feed name, when the instance's method
    returns or raises an exception that is an [Exception], [start_feed]
    and [stop_feed] end by returning.  When the instance's
    [start_standalone] raises such an exception, [start_feed] returns
    [False] and leaves the feed in status [ERROR], with the exception's
    message as last error and one more error counted; when the instance's
    [stop] raises one, [stop_feed] returns [False] and leaves the feed in
    status [ERROR] with the message as last error. *)
Theorem start_stop_feed_never_raise (r : FeedRegistry) (fname : string)
    (answer : Completion unit) (now : Z) :
  (forall e, answer = Raises e -> is_Exception e = true) ->
  (exists b, (start_feed fname answer now r).2 = Returns b) /\
  (exists b, (stop_feed fname answer r).2 = Returns b) /\
  (forall info e,
     feeds r !! fname = Some info -> status info <> RUNNING -> answer = Raises e ->
     exists r' info',
       start_feed fname answer now r = (r', [CallStart fname], Returns false) /\
       feeds r' !! fname = Some info' /\ status info' = ERROR /\
       last_error info' = Some (exn_str e) /\ error_count info' = S (error_count info)) /\
  (forall info e,
     feeds r !! fname = Some info -> status info <> STOPPED ->
     has_stop (feed_instance info) = true -> answer = Raises e ->
     exists r' info',
       stop_feed fname answer r = (r', [CallStop fname], Returns false) /\
       feeds r' !! fname = Some info' /\ status info' = ERROR /\
       last_error info' = Some (exn_str e) /\ error_count info' = error_count info).
Proof.
  intros Hexn. split; [| split; [| split]].
  - unfold start_feed, start_feed_try.
    destruct (feeds r !! fname) as [info|]; [| eexists; reflexivity].
    case_bool_decide; [eexists; reflexivity |].
    destruct answer as [|e]; [eexists; reflexivity |].
    rewrite (Hexn e eq_refl). eexists; reflexivity.
  - unfold stop_feed, stop_feed_try.
    destruct (feeds r !! fname) as [info|]; [| eexists; reflexivity].
    case_bool_decide; [eexists; reflexivity |].
    destruct (has_stop _); [| eexists; reflexivity].
    destruct answer as [|e]; [eexists; reflexivity |].
    rewrite (Hexn e eq_refl). eexists; reflexivity.
  - intros info e Hinfo Hst ->. unfold start_feed, start_feed_try. rewrite Hinfo.
    rewrite bool_decide_eq_false_2 by exact Hst. rewrite (Hexn e eq_refl).
    pose proof (lookup_update_feed_Some fname (set_status STARTING) r info Hinfo) as H1.
    rewrite bool_decide_eq_true_2 by (rewrite H1; eauto).
    eexists _, _. split; [reflexivity |]. split.
    + apply lookup_update_feed_Some, lookup_update_feed_Some. exact H1.
    + cbn. repeat split.
  - intros info e Hinfo Hst Hstop ->. unfold stop_feed, stop_feed_try. rewrite Hinfo.
    rewrite bool_decide_eq_false_2 by exact Hst. rewrite Hstop, (Hexn e eq_refl).
    pose proof (lookup_update_feed_Some fname (set_status STOPPING) r info Hinfo) as H1.
    rewrite bool_decide_eq_true_2 by (rewrite H1; eauto).
    eexists _, _. split; [reflexivity |]. split.
    + apply lookup_update_feed_Some, lookup_update_feed_Some. exact H1.
    + cbn. repeat split.
Qed.

(** The theorem on feed A of the scenario, whose [start_standalone] raises
    [RuntimeError("boom")]. *)
Lemma start_stop_feed_never_raise_witness :
  exists r' info',
    start_feed "A" (Raises boom) 7 registry_ABC = (r', [CallStart "A"], Returns false) /\
    feeds r' !! "A" = Some info' /\ status info' = ERROR /\
    last_error info' = Some "boom" /\ error_count info' = 1.
Proof.
  destruct (start_stop_feed_never_raise registry_ABC "A" (Raises boom) 7)
    as (_ & _ & Hstart & _).
  { intros e [= <-]. reflexivity. }
  destruct (Hstart _ boom ltac:(vm_compute; reflexivity) ltac:(discriminate) eq_refl)
    as (r' & info' & H).
  exists r', info'. exact H.
Defined.

(** *** Consecutive failures *)




(** *** The heartbeat check *)

(** C9, as the specification states it, fails for a degraded feed: its
    heartbeat is older than the timeout, and the health check leaves it
    [DEGRADED]. *)
Lemma health_check_leaves_degraded :
  status <$> feeds A_degraded !! "A" = Some DEGRADED /\
  bool_decide (default 0 (last_heartbeat <$> feeds A_degraded !! "A")
               < much_later - heartbeat_timeout A_degraded * 1000000)%Z = true /\
  status <$> feeds (_perform_health_checks much_later A_degraded) !! "A" = Some DEGRADED.
Proof. vm_compute. repeat split. Qed.

(** C9 (amended).  For every registered feed whose last heartbeat is older
    than the heartbeat timeout, a run of the health check leaves the feed
    [UNHEALTHY], with one more consecutive failure, if its status was
    [RUNNING] or [HEALTHY]; a feed in any other status is left as it was. *)
Theorem health_check_marks_running_or_healthy (r : FeedRegistry) (fname : string)
    (info : FeedInfo) (now : Z) :
  feeds r !! fname = Some info ->
  (last_heartbeat info < now - heartbeat_timeout r * 1000000)%Z ->
  exists info', feeds (_perform_health_checks now r) !! fname = Some info' /\
    (status info = RUNNING \/ status info = HEALTHY ->
       status info' = UNHEALTHY /\
       consecutive_failures info' = S (consecutive_failures info)) /\
    (status info <> RUNNING -> status info <> HEALTHY -> info' = info).
Proof.
  intros Hinfo Hold. unfold _perform_health_checks.
  rewrite feeds_update_registry_metrics. cbn [feeds with_feeds].
  rewrite lookup_fmap, Hinfo. cbn [fmap option_fmap option_map].
  eexists. split; [reflexivity |].
  unfold check_heartbeat.
  destruct (Z.ltb_spec (last_heartbeat info) (now - heartbeat_timeout r * 1000000));
    [| lia].
  case_bool_decide as Hst.
  - split; [intros _; split; reflexivity |].
    intros H1 H2. exfalso. set_solver.
  - split; [| reflexivity].
    intros [H1|H1]; exfalso; apply Hst; rewrite H1; set_solver.
Qed.

(** The theorem on the running feed A. *)
Lemma health_check_marks_running_or_healthy_witness :
  exists info', feeds (_perform_health_checks much_later A_running) !! "A" = Some info' /\
    status info' = UNHEALTHY /\ consecutive_failures info' = 1.
Proof.
  destruct (feeds A_running !! "A") as [info|] eqn:Hinfo;
    [| vm_compute in Hinfo; discriminate].
  assert (Hfacts : status info = RUNNING /\ consecutive_failures info = 0
                   /\ last_heartbeat info = 0%Z).
  { vm_compute in Hinfo. injection Hinfo as <-. repeat split. }
  destruct Hfacts as (Hst & Hcf & Hhb).
  destruct (health_check_marks_running_or_healthy A_running "A" info much_later Hinfo)
    as (info' & Hl & Hmark & _).
  { rewrite Hhb. vm_compute. reflexivity. }
  exists info'. destruct (Hmark (or_introl Hst)) as [H1 H2].
  rewrite Hcf in H2. repeat split; assumption.
Defined.

(** *** Start and stop order *)

(** After [_update_startup_order], reversing the shutdown order gives the
    startup order back: [stop_all_feeds] walks the feeds in the order in
    which [start_all_feeds] does. *)
Lemma reversed_shutdown_order (r : FeedRegistry) :
  reverse (shutdown_order (_update_startup_order r)) = startup_order (_update_startup_order r).
Proof. cbn. apply reverse_involutive. Qed.

(** The startup order is the four priority classes one after the other. *)
Lemma startup_order_by_class (r : FeedRegistry) :
  startup_order (_update_startup_order r) =
    class_list r "critical" ++ class_list r "high" ++ class_list r "medium"
    ++ class_list r "low".
Proof. cbn. rewrite app_nil_r. reflexivity. Qed.

(** A call of [start_feed] calls the instance's [start_standalone] at most
    once, and nothing else. *)
Lemma start_feed_calls (fname : string) (answer : Completion unit) (now : Z)
    (r : FeedRegistry) :
  (start_feed fname answer now r).1.2 = [] \/
  (start_feed fname answer now r).1.2 = [CallStart fname].
Proof.
  unfold start_feed, start_feed_try.
  destruct (feeds r !! fname) as [info|]; [| left; reflexivity].
  case_bool_decide; [left; reflexivity |].
  destruct answer as [|e]; [right; reflexivity |].
  destruct (is_Exception e); right; reflexivity.
Qed.

(** The loop of [start_all_feeds] starts feeds in the order of the names
    it walks. *)
Lemma start_each_calls (names : list string) :
  forall i answers clock r results calls,
  exists started,
    started `sublist_of` names /\
    (start_each names i answers clock r results calls).2
      = calls ++ (CallStart <$> started).
Proof.
  induction names as [|fname names IH]; intros i answers clock r results calls.
  - exists []. split; [constructor |]. cbn. rewrite app_nil_r. reflexivity.
  - cbn [start_each].
    pose proof (start_feed_calls fname (answers i) (clock i) r) as Hcalls.
    destruct (start_feed fname (answers i) (clock i) r) as [[r' cs] [b|e]].
    + cbn [fst snd] in Hcalls.
      destruct (IH (S i) answers clock r' (<[fname := b]> results) (calls ++ cs))
        as (started & Hsub & Heq).
      rewrite Heq. destruct Hcalls as [-> | ->].
      * exists started. split; [apply sublist_cons; exact Hsub |].
        rewrite app_nil_r. reflexivity.
      * exists (fname :: started). split; [apply sublist_skip; exact Hsub |].
        rewrite <- app_assoc. reflexivity.
    + cbn [fst snd] in Hcalls |- *. destruct Hcalls as [-> | ->].
      * exists []. split; [apply sublist_nil_l |]. reflexivity.
      * exists [fname]. split; [| reflexivity].
        apply sublist_skip, sublist_nil_l.
Qed.

(** The start calls of [start_all_feeds] go class by class: the critical
    feeds that are started, then the high, the medium and the low ones, so
    that every start of a critical feed comes before any start of a low
    one. *)
Lemma start_all_feeds_by_class (answers : nat -> Completion unit) (clock : nat -> Z)
    (r : FeedRegistry) :
  exists critical high medium low,
    critical `sublist_of` class_list r "critical" /\
    high `sublist_of` class_list r "high" /\
    medium `sublist_of` class_list r "medium" /\
    low `sublist_of` class_list r "low" /\
    (start_all_feeds answers clock (_update_startup_order r)).2
      = CallStart <$> (critical ++ high ++ medium ++ low).
Proof.
  unfold start_all_feeds. rewrite startup_order_by_class.
  destruct (start_each_calls
              (class_list r "critical" ++ class_list r "high" ++ class_list r "medium"
               ++ class_list r "low")
              0 answers clock (_update_startup_order r) ∅ [])
    as (started & Hsub & ->).
  apply sublist_app_r in Hsub as (critical & rest & -> & Hc & Hsub).
  apply sublist_app_r in Hsub as (high & rest' & -> & Hh & Hsub).
  apply sublist_app_r in Hsub as (medium & low & -> & Hm & Hl).
  exists critical, high, medium, low. repeat split; assumption.
Qed.

(** C4 on the scenario A (critical), B (medium), C (critical).
    [start_all_feeds] starts A, then C, then B: both critical feeds before
    the medium one.  [stop_all_feeds] stops A, then C, then B as well: it
    walks [reversed(self.shutdown_order)], which is the startup order again
    and not its reverse B, C, A. *)
Theorem stop_all_feeds_repeats_startup_order :
  startup_order registry_ABC = ["A"; "C"; "B"] /\
  shutdown_order registry_ABC = ["B"; "C"; "A"] /\
  (start_all_feeds always_ok (fun _ => 0%Z) registry_ABC).2
    = [CallStart "A"; CallStart "C"; CallStart "B"] /\
  (stop_all_feeds always_ok registry_ABC).2
    = [CallStop "A"; CallStop "C"; CallStop "B"] /\
  (stop_all_feeds always_ok
     (start_all_feeds always_ok (fun _ => 0%Z) registry_ABC).1.1).2
    = [CallStop "A"; CallStop "C"; CallStop "B"].
Proof. vm_compute. repeat split. Qed.

End RegistryFacts.

(** ** Properties of health_monitor.py *)

Module HealthMonitorFacts.
Import HealthMonitor.

(** *** The loop over the checks *)

Lemma with_alerts_twice store active store0 active0 (mon : QuestDBHealthMonitor) :
  with_alerts store active (with_alerts store0 active0 mon) = with_alerts store active mon.
Proof. reflexivity. Qed.

Lemma alert_store_with_alerts store active (mon : QuestDBHealthMonitor) :
  alert_store (with_alerts store active mon) = store.
Proof. reflexivity. Qed.

Lemma omap_ext_in {A B} (f g : A -> option B) (l : list A) :
  (forall x, x ∈ l -> f x = g x) -> omap f l = omap g l.
Proof.
  induction l as [|x l IH]; intros H; [reflexivity |]. cbn.
  rewrite (H x) by set_solver. rewrite IH; [reflexivity |].
  intros y Hy. apply H. set_solver.
Qed.

(** [new_alert] reads the monitor through its thresholds, its cooldown and
    the active alert of the check's own key. *)
Lemma new_alert_frame (mon mon' : QuestDBHealthMonitor) (now : Z) (c : string * Q * bool) :
  thresholds mon' = thresholds mon ->
  alert_cooldown_minutes mon' = alert_cooldown_minutes mon ->
  active_alerts mon' !! check_name c = active_alerts mon !! check_name c ->
  (forall ref, active_alerts mon !! check_name c = Some ref ->
               alert_store mon' !! ref = alert_store mon !! ref) ->
  new_alert mon' now c = new_alert mon now c.
Proof.
  destruct c as [[n v] rev]. unfold check_name. cbn [fst snd].
  intros Hth Hcd Hact Hst. unfold new_alert, in_cooldown.
  rewrite Hth, Hcd, Hact.
  destruct (active_alerts mon !! n) as [ref|] eqn:E; [| reflexivity].
  rewrite (Hst ref eq_refl). reflexivity.
Qed.

(** What the loop over a list of checks with distinct keys does: it
    appends to the store the alerts the checks create, each decided on the
    monitor as it was before the loop, returns the references to them, and
    files each under its key. *)
Lemma check_phase (now : Z) (cs : list (string * Q * bool)) :
  NoDup (check_name <$> cs) ->
  forall mon new, alerts_stored mon ->
  let fired := omap (new_alert mon now) cs in
  exists active',
    foldl (check_one now) (mon, new) cs
      = (with_alerts (alert_store mon ++ fired) active' mon,
         new ++ seq (length (alert_store mon)) (length fired)) /\
    (forall k, k ∉ check_name <$> cs -> active' !! k = active_alerts mon !! k) /\
    (forall c, c ∈ cs ->
       match new_alert mon now c with
       | None => active' !! check_name c = active_alerts mon !! check_name c
       | Some a => exists ref, active' !! check_name c = Some ref /\
                               (alert_store mon ++ fired) !! ref = Some a /\
                               length (alert_store mon) <= ref
       end) /\
    alerts_stored (with_alerts (alert_store mon ++ fired) active' mon).
Proof.
  induction cs as [|c cs IH]; intros Hnd mon new Hst; cbn zeta.
  - exists (active_alerts mon). cbn. rewrite !app_nil_r.
    split; [destruct mon; reflexivity |]. split; [reflexivity |].
    split; [intros c Hc; inversion Hc |].
    exact Hst.
  - cbn [fmap list_fmap] in Hnd. apply NoDup_cons in Hnd as [Hfresh Hnd].
    cbn [foldl omap list_omap]. unfold check_one at 2.
    destruct (new_alert mon now c) as [a|] eqn:Ea.
    + set (mon1 := with_alerts (alert_store mon ++ [a])
                     (<[c.1.1 := length (alert_store mon)]> (active_alerts mon)) mon).
      assert (Hst1 : alerts_stored mon1).
      { intros k ref. cbn. rewrite lookup_insert. case_decide as Hk.
        - intros [= <-]. rewrite lookup_app_r by lia. rewrite Nat.sub_diag. eauto.
        - intros Hk'. destruct (Hst k ref Hk') as [x Hx].
          exists x. apply lookup_app_l_Some. exact Hx. }
      assert (Hframe : forall c', c' ∈ cs -> new_alert mon1 now c' = new_alert mon now c').
      { intros c' Hc'. apply new_alert_frame; try reflexivity.
        - cbn. apply lookup_insert_ne. intros Heq. apply Hfresh.
          apply list_elem_of_fmap. exists c'. split; [exact Heq | exact Hc'].
        - intros ref Href. destruct (Hst _ _ Href) as [x Hx]. cbn.
          rewrite Hx. apply lookup_app_l_Some. exact Hx. }
      destruct (IH Hnd mon1 (new ++ [length (alert_store mon)]) Hst1)
        as (active' & Hfold & Hout & Hin & Hst').
      rewrite (omap_ext_in _ _ _ Hframe) in Hfold, Hin, Hst'.
      set (fired := omap (new_alert mon now) cs) in *.
      exists active'. subst mon1.
      rewrite with_alerts_twice, alert_store_with_alerts in Hfold, Hst'.
      rewrite alert_store_with_alerts in Hin.
      rewrite <- app_assoc in Hfold, Hin, Hst'. cbn [app] in Hfold, Hin, Hst'.
      split; [| split; [| split]].
      * rewrite Hfold. f_equal. rewrite <- app_assoc. f_equal.
        rewrite length_app. cbn [length app].
        rewrite Nat.add_1_r. reflexivity.
      * intros k Hk. rewrite Hout by set_solver. cbn.
        apply lookup_insert_ne. intros Heq. apply Hk. rewrite <- Heq.
        apply list_elem_of_here.
      * intros c' Hc'. apply elem_of_cons in Hc' as [-> | Hc'].
        -- rewrite Ea. exists (length (alert_store mon)).
           split; [| split; [| lia]].
           ++ rewrite Hout by exact Hfresh. cbn. apply lookup_insert_eq.
           ++ apply list_lookup_middle. reflexivity.
        -- specialize (Hin c' Hc'). rewrite (Hframe c' Hc') in Hin.
           assert (Hne : c.1.1 <> check_name c').
           { intros Heq. apply Hfresh. apply list_elem_of_fmap. exists c'. split; [exact Heq | exact Hc']. }
           destruct (new_alert mon now c') as [a'|].
           ++ destruct Hin as (ref & H1 & H2 & H3). exists ref.
              rewrite length_app in H3. cbn in H3. split; [exact H1 |]. split; [exact H2 | lia].
           ++ rewrite Hin. cbn. apply lookup_insert_ne. exact Hne.
      * exact Hst'.
    + destruct (IH Hnd mon new Hst) as (active' & Hfold & Hout & Hin & Hst').
      exists active'. split; [exact Hfold |]. split; [| split; [| exact Hst']].
      * intros k Hk. apply Hout. set_solver.
      * intros c' Hc'. apply elem_of_cons in Hc' as [-> | Hc'].
        -- rewrite Ea. apply Hout. exact Hfresh.
        -- apply (Hin c' Hc').
Qed.

(** *** The loop over the active alerts *)

Lemma resolve_one_spec m now ths store (active : gmap string alert_ref) k ref :
  resolve_one m now ths (store, active) (k, ref) =
    match store !! ref with
    | Some a =>
        if resolvable m ths a
        then (<[ref := mark_resolved now a]> store, delete k active)
        else (store, active)
    | None => (store, active)
    end.
Proof.
  unfold resolve_one, resolvable.
  destruct (store !! ref) as [a|]; [| reflexivity].
  destruct (resolved a); [reflexivity |]. cbn [negb andb].
  destruct (ths !! alert_type a); [| reflexivity].
  destruct (metric_attr m (alert_type a)); reflexivity.
Qed.

(** Entries that are neither for the reference nor for the key leave both
    alone. *)
Lemma resolve_fold_other m now ths (key : string) (ref : alert_ref)
    (l : list (string * alert_ref)) :
  (forall k r, (k, r) ∈ l -> r <> ref /\ k <> key) ->
  forall store (active : gmap string alert_ref),
    (foldl (resolve_one m now ths) (store, active) l).1 !! ref = store !! ref /\
    (foldl (resolve_one m now ths) (store, active) l).2 !! key = active !! key.
Proof.
  induction l as [|[k r] l IH]; intros Hl store active; [split; reflexivity |].
  cbn [foldl]. rewrite resolve_one_spec.
  destruct (Hl k r ltac:(left)) as [Hr Hk].
  assert (Hl' : forall k r, (k, r) ∈ l -> r <> ref /\ k <> key)
    by (intros; apply Hl; right; assumption).
  destruct (store !! r) as [a|]; [| apply (IH Hl')].
  destruct (resolvable m ths a); [| apply (IH Hl')].
  destruct (IH Hl' (<[r := mark_resolved now a]> store) (delete k active)) as [H1 H2].
  rewrite H1, H2. split.
  - apply list_lookup_insert_ne. exact Hr.
  - apply lookup_delete_ne. exact Hk.
Qed.

(** An active alert that the test does not resolve stays, as it is. *)
Lemma resolve_fold_stays m now ths (key : string) (ref : alert_ref) (a : HealthAlert)
    (l : list (string * alert_ref)) :
  resolvable m ths a = false ->
  (forall k r, (k, r) ∈ l -> r = ref \/ (r <> ref /\ k <> key)) ->
  forall store (active : gmap string alert_ref),
    store !! ref = Some a ->
    (foldl (resolve_one m now ths) (store, active) l).1 !! ref = Some a /\
    (foldl (resolve_one m now ths) (store, active) l).2 !! key = active !! key.
Proof.
  intros Hno. induction l as [|[k r] l IH]; intros Hl store active Hst;
    [split; [exact Hst | reflexivity] |].
  cbn [foldl]. rewrite resolve_one_spec.
  assert (Hl' : forall k r, (k, r) ∈ l -> r = ref \/ (r <> ref /\ k <> key))
    by (intros; apply Hl; right; assumption).
  destruct (Hl k r ltac:(left)) as [-> | [Hr Hk]].
  - rewrite Hst, Hno. apply (IH Hl' _ _ Hst).
  - destruct (store !! r) as [b|]; [| apply (IH Hl' _ _ Hst)].
    destruct (resolvable m ths b); [| apply (IH Hl' _ _ Hst)].
    destruct (IH Hl' (<[r := mark_resolved now b]> store) (delete k active)) as [H1 H2].
    { rewrite list_lookup_insert_ne by exact Hr. exact Hst. }
    split; [exact H1 |]. rewrite H2. apply lookup_delete_ne. exact Hk.
Qed.

(** The loop changes no alert's time, type or severity, and keeps the
    store's length. *)
Lemma resolve_fold_core m now ths (l : list (string * alert_ref)) :
  forall store (active : gmap string alert_ref),
    core <$> (foldl (resolve_one m now ths) (store, active) l).1 = core <$> store.
Proof.
  induction l as [|[k r] l IH]; intros store active; [reflexivity |].
  cbn [foldl]. rewrite resolve_one_spec.
  destruct (store !! r) as [a|] eqn:Ea; [| apply IH].
  destruct (resolvable m ths a); [| apply IH].
  rewrite IH, list_fmap_insert.
  apply list_insert_id. rewrite list_lookup_fmap, Ea. reflexivity.
Qed.

(** The loop only removes keys. *)
Lemma resolve_fold_active m now ths (l : list (string * alert_ref)) :
  forall store (active : gmap string alert_ref) k r,
    (foldl (resolve_one m now ths) (store, active) l).2 !! k = Some r ->
    active !! k = Some r.
Proof.
  induction l as [|[k' r'] l IH]; intros store active k r; [trivial |].
  cbn [foldl]. rewrite resolve_one_spec.
  destruct (store !! r') as [a|]; [| apply IH].
  destruct (resolvable m ths a); [| apply IH].
  intros H. apply IH in H. apply lookup_delete_Some in H as [_ H]. exact H.
Qed.

(** An active alert that passes the test, and that no other key refers
    to, is marked resolved and its key removed. *)
Lemma resolve_fold_goes m now ths (key : string) (ref : alert_ref) (a : HealthAlert)
    (l1 l2 : list (string * alert_ref)) store (active : gmap string alert_ref) :
  resolvable m ths a = true ->
  (forall k r, (k, r) ∈ l1 ++ l2 -> r <> ref /\ k <> key) ->
  store !! ref = Some a ->
  (foldl (resolve_one m now ths) (store, active) (l1 ++ (key, ref) :: l2)).1 !! ref
    = Some (mark_resolved now a) /\
  (foldl (resolve_one m now ths) (store, active) (l1 ++ (key, ref) :: l2)).2 !! key = None.
Proof.
  intros Hyes Hl Hst. rewrite foldl_app. cbn [foldl].
  destruct (resolve_fold_other m now ths key ref l1
              ltac:(intros; apply Hl; set_solver) store active) as [H1 _].
  destruct (foldl (resolve_one m now ths) (store, active) l1) as [store1 active1].
  cbn [fst snd] in H1. rewrite resolve_one_spec, H1, Hst, Hyes.
  destruct (resolve_fold_other m now ths key ref l2
              ltac:(intros; apply Hl; set_solver)
              (<[ref := mark_resolved now a]> store1) (delete key active1)) as [H2 H3].
  rewrite H2, H3. split.
  - apply list_lookup_insert_eq. apply lookup_lt_Some with a. rewrite H1. exact Hst.
  - apply lookup_delete_eq.
Qed.

(** *** One run of [_check_alert_conditions] *)

Lemma alerts_filed_stored (mon : QuestDBHealthMonitor) :
  alerts_filed mon -> alerts_stored mon.
Proof. intros H k ref Hk. destruct (H k ref Hk) as (a & Ha & _). eauto. Qed.

Lemma checks_names (mon : QuestDBHealthMonitor) (m : HealthMetrics) :
  check_name <$> checks mon m =
    ["response_time_ms"; "connection_pool_usage"; "success_rate"; "consecutive_failures"].
Proof. reflexivity. Qed.

Lemma checks_NoDup (mon : QuestDBHealthMonitor) (m : HealthMetrics) :
  NoDup (check_name <$> checks mon m).
Proof.
  rewrite checks_names.
  repeat (apply NoDup_cons; split; [set_solver |]). apply NoDup_nil. trivial.
Qed.

Lemma new_alert_Some (mon : QuestDBHealthMonitor) (now : Z) (c : string * Q * bool)
    (a : HealthAlert) :
  new_alert mon now c = Some a ->
  alert_type a = check_name c /\ timestamp a = now /\ resolved a = false /\
  in_cooldown mon (check_name c) now = false /\
  exists th, thresholds mon !! check_name c = Some th /\
             severity_of th c.2 c.1.2 = Some (severity a).
Proof.
  destruct c as [[n v] rev]. unfold new_alert, check_name. cbn [fst snd].
  destruct (thresholds mon !! n) as [th|]; [| discriminate].
  destruct (in_cooldown mon n now); [discriminate |].
  destruct (severity_of th rev v) as [sev|] eqn:Es; [| discriminate].
  intros [= <-]. cbn. repeat split. exists th. split; [reflexivity | exact Es].
Qed.


Lemma severity_of_crossing (th : HealthThreshold) (rev : bool) (v : Q) :
  crosses_warning th rev v -> is_Some (severity_of th rev v).
Proof.
  unfold crosses_warning, severity_of. destruct rev; intros H.
  - destruct (Qle_bool v (critical_level th)); [eauto |].
    apply Qle_bool_iff in H. rewrite H. eauto.
  - destruct (Qle_bool (critical_level th) v); [eauto |].
    apply Qle_bool_iff in H. rewrite H. eauto.
Qed.

(** With the levels in their order (the warning level first met), a
    value has a severity exactly when it crosses the warning level. *)
Lemma severity_iff_crossing (th : HealthThreshold) (rev : bool) (v : Q) :
  (if rev then (critical_level th <= warning_level th)%Q
   else (warning_level th <= critical_level th)%Q) ->
  is_Some (severity_of th rev v) <-> crosses_warning th rev v.
Proof.
  intros Hord. split; [| apply severity_of_crossing].
  unfold severity_of, crosses_warning. destruct rev.
  - destruct (Qle_bool v (critical_level th)) eqn:E1.
    + intros _. apply Qle_bool_iff in E1. apply (Qle_trans _ _ _ E1 Hord).
    + destruct (Qle_bool v (warning_level th)) eqn:E2.
      * intros _. apply Qle_bool_iff. exact E2.
      * intros [x Hx]. discriminate.
  - destruct (Qle_bool (critical_level th) v) eqn:E1.
    + intros _. apply Qle_bool_iff in E1. apply (Qle_trans _ _ _ Hord E1).
    + destruct (Qle_bool (warning_level th) v) eqn:E2.
      * intros _. apply Qle_bool_iff. exact E2.
      * intros [x Hx]. discriminate.
Qed.

Lemma crossing_fires (mon : QuestDBHealthMonitor) (now : Z) (key : string) (v : Q)
    (rev : bool) (th : HealthThreshold) :
  thresholds mon !! key = Some th -> crosses_warning th rev v ->
  in_cooldown mon key now = false ->
  is_Some (new_alert mon now (key, v, rev)).
Proof.
  intros Hth Hx Hcd. unfold new_alert. rewrite Hth, Hcd.
  destruct (severity_of_crossing th rev v Hx) as [sev ->]. eauto.
Qed.

(** A value that crosses the warning level of its metric does not pass the
    resolution test. *)
Lemma crossing_not_resolvable (mon : QuestDBHealthMonitor) (m : HealthMetrics)
    (key : string) (v : Q) (rev : bool) (th : HealthThreshold) (a : HealthAlert) :
  (key, v, rev) ∈ checks mon m -> thresholds mon !! key = Some th ->
  crosses_warning th rev v -> alert_type a = key ->
  resolvable m (thresholds mon) a = false.
Proof.
  intros Hc Hth Hx Ht. unfold resolvable. rewrite Ht, Hth.
  destruct (negb (resolved a)); [cbn [andb] | reflexivity].
  unfold checks in Hc. repeat (apply elem_of_cons in Hc as [[= -> -> ->] | Hc]).
  - cbn. apply Qle_bool_iff in Hx. unfold Qltb. rewrite Hx. reflexivity.
  - cbn. apply Qle_bool_iff in Hx. unfold Qltb. rewrite Hx. reflexivity.
  - cbn. apply Qle_bool_iff in Hx. unfold Qltb. rewrite Hx. reflexivity.
  - reflexivity.
  - inversion Hc.
Qed.

Lemma fired_types_subset (mon : QuestDBHealthMonitor) (now : Z)
    (cs : list (string * Q * bool)) (t : string) :
  t ∈ alert_type <$> omap (new_alert mon now) cs -> t ∈ check_name <$> cs.
Proof.
  intros H. apply list_elem_of_fmap in H as (a & -> & Ha).
  apply list_elem_of_omap in Ha as (c & Hc & Hn).
  apply new_alert_Some in Hn as [Ht _]. rewrite Ht.
  apply list_elem_of_fmap. eauto.
Qed.

(** One run creates at most one alert per metric. *)
Lemma fired_types_NoDup (mon : QuestDBHealthMonitor) (now : Z)
    (cs : list (string * Q * bool)) :
  NoDup (check_name <$> cs) -> NoDup (alert_type <$> omap (new_alert mon now) cs).
Proof.
  induction cs as [|c cs IH]; intros Hnd; [apply NoDup_nil; trivial |].
  cbn [fmap list_fmap] in Hnd. apply NoDup_cons in Hnd as [Hfresh Hnd].
  cbn [omap list_omap]. destruct (new_alert mon now c) as [a|] eqn:Ea; [| apply IH, Hnd].
  cbn [fmap list_fmap]. apply NoDup_cons. split; [| apply IH, Hnd].
  intros Hin. apply fired_types_subset in Hin.
  apply new_alert_Some in Ea as [Ht _]. rewrite Ht in Hin. exact (Hfresh Hin).
Qed.

Lemma core_lookup (s1 s2 : list HealthAlert) (r : nat) (b : HealthAlert) :
  core <$> s2 = core <$> s1 -> s1 !! r = Some b ->
  exists b', s2 !! r = Some b' /\ core b' = core b.
Proof.
  intros Hc Hb.
  assert (H : (core <$> s2) !! r = Some (core b)).
  { rewrite Hc, list_lookup_fmap, Hb. reflexivity. }
  rewrite list_lookup_fmap in H. destruct (s2 !! r) as [b'|]; [| discriminate].
  cbn [fmap option_fmap option_map] in H.
  exists b'. split; [reflexivity | congruence].
Qed.

Lemma core_lookup_inv (s1 s2 : list HealthAlert) (r : nat) (b' : HealthAlert) :
  core <$> s2 = core <$> s1 -> s2 !! r = Some b' ->
  exists b, s1 !! r = Some b /\ core b' = core b.
Proof.
  intros Hc Hb. destruct (core_lookup s2 s1 r b' (eq_sym Hc) Hb) as (b & H1 & H2).
  eauto.
Qed.

(** The state between the two loops of a run, and the run in its terms. *)
Lemma run_facts (m : HealthMetrics) (now : Z) (mon : QuestDBHealthMonitor) :
  alerts_filed mon ->
  exists active1,
    let fired := omap (new_alert mon now) (checks mon m) in
    let store1 := alert_store mon ++ fired in
    let final := foldl (resolve_one m now (thresholds mon)) (store1, active1)
                       (map_to_list active1) in
    _check_alert_conditions m now mon
      = (with_alerts final.1 final.2 mon, seq (length (alert_store mon)) (length fired)) /\
    (forall k, k ∉ check_name <$> checks mon m -> active1 !! k = active_alerts mon !! k) /\
    (forall c, c ∈ checks mon m ->
       match new_alert mon now c with
       | None => active1 !! check_name c = active_alerts mon !! check_name c
       | Some a => exists ref, active1 !! check_name c = Some ref /\
                               store1 !! ref = Some a /\ length (alert_store mon) <= ref
       end) /\
    alerts_filed (with_alerts store1 active1 mon).
Proof.
  intros Hfiled.
  destruct (check_phase now (checks mon m) (checks_NoDup mon m) mon []
              (alerts_filed_stored mon Hfiled)) as (active1 & Hfold & Hout & Hin & _).
  exists active1. cbn zeta. split; [| split; [exact Hout |]; split; [exact Hin |]].
  - unfold _check_alert_conditions. rewrite Hfold. cbn [app].
    unfold _check_resolved_alerts.
    rewrite alert_store_with_alerts.
    change (active_alerts (with_alerts ?s ?a mon)) with a.
    change (thresholds (with_alerts ?s ?a mon)) with (thresholds mon).
    destruct (foldl (resolve_one m now (thresholds mon)) _ _) as [s2 a2]. reflexivity.
  - intros k ref Hk. cbn in Hk |- *.
    assert (Hold : active_alerts mon !! k = Some ref ->
                   exists a, (alert_store mon ++ omap (new_alert mon now) (checks mon m)) !! ref
                               = Some a /\ alert_type a = k).
    { intros H. destruct (Hfiled k ref H) as (a & Ha & Ht).
      exists a. split; [apply lookup_app_l_Some; exact Ha | exact Ht]. }
    destruct (decide (k ∈ check_name <$> checks mon m)) as [Hin'|Hnin].
    + apply list_elem_of_fmap in Hin' as (c & -> & Hc). specialize (Hin c Hc).
      destruct (new_alert mon now c) as [a|] eqn:Ea.
      * destruct Hin as (ref' & H1 & H2 & _). rewrite H1 in Hk. injection Hk as <-.
        exists a. split; [exact H2 |]. apply new_alert_Some in Ea as [Ht _]. exact Ht.
      * apply Hold. rewrite <- Hin. exact Hk.
    + apply Hold. rewrite <- (Hout k Hnin). exact Hk.
Qed.

Lemma core_type (a b : HealthAlert) : core a = core b -> alert_type a = alert_type b.
Proof. unfold core. congruence. Qed.

Lemma core_time (a b : HealthAlert) : core a = core b -> timestamp a = timestamp b.
Proof. unfold core. congruence. Qed.

(** A run changes the store and the active alerts only. *)
Lemma run_frame (m : HealthMetrics) (now : Z) (mon : QuestDBHealthMonitor) :
  alerts_filed mon ->
  exists store active, (_check_alert_conditions m now mon).1 = with_alerts store active mon.
Proof.
  intros Hf. destruct (run_facts m now mon Hf) as (active1 & Hrun & _).
  cbn zeta in Hrun. rewrite Hrun. eauto.
Qed.

(** A run keeps the active alerts filed. *)
Lemma run_filed (m : HealthMetrics) (now : Z) (mon : QuestDBHealthMonitor) :
  alerts_filed mon -> alerts_filed (_check_alert_conditions m now mon).1.
Proof.
  intros Hf. destruct (run_facts m now mon Hf) as (active1 & Hrun & _ & _ & Hf1).
  cbn zeta in Hrun, Hf1. rewrite Hrun. cbn [fst].
  intros k r Hk. cbn in Hk |- *.
  apply resolve_fold_active in Hk. destruct (Hf1 k r Hk) as (b & Hb & Ht).
  cbn in Hb.
  destruct (core_lookup _ _ r b (resolve_fold_core m now (thresholds mon)
              (map_to_list active1) _ active1) Hb) as (b' & Hb' & Hc).
  exists b'. split; [exact Hb' |]. rewrite (core_type _ _ Hc). exact Ht.
Qed.


(** A run returns at most one alert per metric. *)
Lemma run_fires_once (m : HealthMetrics) (now : Z) (mon : QuestDBHealthMonitor)
    (r r' : nat) (b b' : HealthAlert) :
  alerts_filed mon ->
  r ∈ (_check_alert_conditions m now mon).2 ->
  r' ∈ (_check_alert_conditions m now mon).2 ->
  alert_store (_check_alert_conditions m now mon).1 !! r = Some b ->
  alert_store (_check_alert_conditions m now mon).1 !! r' = Some b' ->
  alert_type b = alert_type b' -> r = r'.
Proof.
  intros Hf. destruct (run_facts m now mon Hf) as (active1 & Hrun & _).
  cbn zeta in Hrun. rewrite Hrun. cbn [fst snd]. rewrite alert_store_with_alerts.
  set (fired := omap (new_alert mon now) (checks mon m)).
  intros Hr Hr' Hb Hb' Ht.
  apply elem_of_seq in Hr as [Hlo _]. apply elem_of_seq in Hr' as [Hlo' _].
  pose proof (resolve_fold_core m now (thresholds mon) (map_to_list active1)
                (alert_store mon ++ fired) active1) as Hcore.
  destruct (core_lookup_inv _ _ r b Hcore Hb) as (b1 & Hb1 & Hc).
  destruct (core_lookup_inv _ _ r' b' Hcore Hb') as (b1' & Hb1' & Hc').
  rewrite lookup_app_r in Hb1 by exact Hlo. rewrite lookup_app_r in Hb1' by exact Hlo'.
  assert (Hi : r - length (alert_store mon) = r' - length (alert_store mon)).
  { apply (NoDup_lookup (alert_type <$> fired) _ _ (alert_type b1)).
    - apply fired_types_NoDup, checks_NoDup.
    - rewrite list_lookup_fmap, Hb1. reflexivity.
    - rewrite list_lookup_fmap, Hb1'. cbn.
      rewrite <- (core_type _ _ Hc), <- (core_type _ _ Hc'), Ht. reflexivity. }
  lia.
Qed.

(** The active alert of a key whose check creates no alert in this run
    stays as it is when it does not pass the resolution test. *)
Lemma run_stays (m : HealthMetrics) (now : Z) (mon : QuestDBHealthMonitor)
    (key : string) (ref : nat) (a : HealthAlert) :
  alerts_filed mon ->
  active_alerts mon !! key = Some ref -> alert_store mon !! ref = Some a ->
  (forall c, c ∈ checks mon m -> check_name c = key -> new_alert mon now c = None) ->
  resolvable m (thresholds mon) a = false ->
  active_alerts (_check_alert_conditions m now mon).1 !! key = Some ref /\
  alert_store (_check_alert_conditions m now mon).1 !! ref = Some a.
Proof.
  intros Hf Hk Ha Hquiet Hno.
  destruct (run_facts m now mon Hf) as (active1 & Hrun & Hout & Hin & _).
  cbn zeta in Hrun, Hin. rewrite Hrun. cbn [fst]. cbn [active_alerts alert_store with_alerts].
  assert (Hk1 : active1 !! key = Some ref).
  { destruct (decide (key ∈ check_name <$> checks mon m)) as [Hin'|Hnin].
    - apply list_elem_of_fmap in Hin' as (c & Hn & Hc). specialize (Hin c Hc).
      rewrite (Hquiet c Hc (eq_sym Hn)) in Hin. rewrite Hn, Hin, <- Hn. exact Hk.
    - rewrite (Hout key Hnin). exact Hk. }
  destruct (resolve_fold_stays m now (thresholds mon) key ref a (map_to_list active1) Hno)
    with (store := alert_store mon ++ omap (new_alert mon now) (checks mon m))
         (active := active1) as [H1 H2].
  - intros k r Hkr. apply elem_of_map_to_list in Hkr.
    destruct (decide (r = ref)) as [|Hne]; [left; assumption | right].
    split; [exact Hne |]. intros ->. rewrite Hk1 in Hkr. congruence.
  - apply lookup_app_l_Some. exact Ha.
  - split; [rewrite H2; exact Hk1 | exact H1].
Qed.

(** The active alert of a key whose check creates no alert in this run is
    marked resolved, and its key removed, when it passes the test. *)
Lemma run_goes (m : HealthMetrics) (now : Z) (mon : QuestDBHealthMonitor)
    (key : string) (ref : nat) (a : HealthAlert) :
  alerts_filed mon ->
  active_alerts mon !! key = Some ref -> alert_store mon !! ref = Some a ->
  (forall c, c ∈ checks mon m -> check_name c = key -> new_alert mon now c = None) ->
  resolvable m (thresholds mon) a = true ->
  active_alerts (_check_alert_conditions m now mon).1 !! key = None /\
  alert_store (_check_alert_conditions m now mon).1 !! ref = Some (mark_resolved now a).
Proof.
  intros Hf Hk Ha Hquiet Hyes.
  destruct (Hf key ref Hk) as (a' & Ha' & Htype). rewrite Ha in Ha'. injection Ha' as <-.
  destruct (run_facts m now mon Hf) as (active1 & Hrun & Hout & Hin & Hf1).
  cbn zeta in Hrun, Hin, Hf1. rewrite Hrun. cbn [fst]. cbn [active_alerts alert_store with_alerts].
  set (store1 := alert_store mon ++ omap (new_alert mon now) (checks mon m)) in *.
  assert (Hk1 : active1 !! key = Some ref).
  { destruct (decide (key ∈ check_name <$> checks mon m)) as [Hin'|Hnin].
    - apply list_elem_of_fmap in Hin' as (c & Hn & Hc). specialize (Hin c Hc).
      rewrite (Hquiet c Hc (eq_sym Hn)) in Hin. rewrite Hn, Hin, <- Hn. exact Hk.
    - rewrite (Hout key Hnin). exact Hk. }
  assert (Ha1 : store1 !! ref = Some a) by (apply lookup_app_l_Some; exact Ha).
  assert (Helem : (key, ref) ∈ map_to_list active1) by (apply elem_of_map_to_list; exact Hk1).
  apply list_elem_of_split in Helem as (l1 & l2 & Hsplit).
  pose proof (NoDup_map_to_list active1) as Hnd. rewrite Hsplit in Hnd.
  apply NoDup_app in Hnd as (_ & Hnd1 & Hnd2). apply NoDup_cons in Hnd2 as [Hnd2 _].
  rewrite Hsplit.
  destruct (resolve_fold_goes m now (thresholds mon) key ref a l1 l2 store1 active1 Hyes)
    as [H1 H2]; [| exact Ha1 | split; [exact H2 | exact H1]].
  intros k r Hkr.
  assert (Hkr' : active1 !! k = Some r).
  { apply elem_of_map_to_list. rewrite Hsplit. set_solver. }
  assert (Hneq : (k, r) <> (key, ref)).
  { intros [= -> ->]. apply elem_of_app in Hkr as [H|H]; [| exact (Hnd2 H)].
    apply (Hnd1 _ H). left. }
  split.
  - intros ->. destruct (Hf1 k ref Hkr') as (b & Hb & Hbt). cbn in Hb.
    rewrite Ha1 in Hb. injection Hb as <-. apply Hneq. congruence.
  - intros ->. rewrite Hk1 in Hkr'. apply Hneq. congruence.
Qed.

(** A check that creates an alert which does not pass the resolution test
    returns it, and leaves it active under its key. *)
Lemma run_fires (m : HealthMetrics) (now : Z) (mon : QuestDBHealthMonitor)
    (c : string * Q * bool) (a : HealthAlert) :
  alerts_filed mon -> c ∈ checks mon m -> new_alert mon now c = Some a ->
  resolvable m (thresholds mon) a = false ->
  exists r, r ∈ (_check_alert_conditions m now mon).2 /\
            alert_store (_check_alert_conditions m now mon).1 !! r = Some a /\
            active_alerts (_check_alert_conditions m now mon).1 !! check_name c = Some r.
Proof.
  intros Hf Hc Hn Hno.
  destruct (run_facts m now mon Hf) as (active1 & Hrun & _ & Hin & _).
  cbn zeta in Hrun, Hin. rewrite Hrun. cbn [fst snd]. cbn [active_alerts alert_store with_alerts].
  specialize (Hin c Hc). rewrite Hn in Hin. destruct Hin as (ref & Hk1 & Ha1 & Hlo).
  exists ref.
  destruct (resolve_fold_stays m now (thresholds mon) (check_name c) ref a
              (map_to_list active1) Hno)
    with (store := alert_store mon ++ omap (new_alert mon now) (checks mon m))
         (active := active1) as [H1 H2].
  - intros k r Hkr. apply elem_of_map_to_list in Hkr.
    destruct (decide (r = ref)) as [|Hne]; [left; assumption | right].
    split; [exact Hne |]. intros ->. rewrite Hk1 in Hkr. congruence.
  - exact Ha1.
  - split; [| split; [exact H1 | rewrite H2; exact Hk1]].
    apply elem_of_seq. split; [exact Hlo |].
    apply lookup_lt_Some in Ha1. rewrite length_app in Ha1. lia.
Qed.

(** *** [update_status] *)

Lemma update_status_run (sd : StatusData) (now : Z) (mon : QuestDBHealthMonitor)
    (st : HealthStatus) :
  sd_status sd = Some st ->
  let run := _check_alert_conditions (snapshot sd st now) now (count_check st now mon) in
  active_alerts (update_status sd now mon) = active_alerts run.1 /\
  alert_store (update_status sd now mon) = alert_store run.1 /\
  alerts (current_status (update_status sd now mon)) = run.2 /\
  thresholds (update_status sd now mon) = thresholds run.1 /\
  alert_cooldown_minutes (update_status sd now mon) = alert_cooldown_minutes run.1.
Proof.
  intros H. unfold update_status. rewrite H. cbn zeta.
  destruct (_check_alert_conditions _ _ _) as [mon' new]. repeat split.
Qed.

Lemma count_check_filed (st : HealthStatus) (now : Z) (mon : QuestDBHealthMonitor) :
  alerts_filed mon -> alerts_filed (count_check st now mon).
Proof. intros H. exact H. Qed.

(** [update_status] keeps the active alerts filed. *)
Lemma update_status_filed (sd : StatusData) (now : Z) (mon : QuestDBHealthMonitor) :
  alerts_filed mon -> alerts_filed (update_status sd now mon).
Proof.
  intros Hf. destruct (sd_status sd) as [st|] eqn:Est;
    [| unfold update_status; rewrite Est; exact Hf].
  destruct (update_status_run sd now mon st Est) as (Ha & Hs & _).
  intros k r. rewrite Ha, Hs.
  apply (run_filed _ now _ (count_check_filed st now mon Hf)).
Qed.

Lemma new_monitor_filed (now : Z) : alerts_filed (new_monitor now).
Proof. intros k r H. cbn in H. rewrite lookup_empty in H. discriminate. Qed.



Example warned_state :
  active_alerts warned !! "success_rate" = Some 0 /\
  alert_store warned = [warning_92] /\
  alerts (current_status warned) = [0].
Proof. vm_compute. repeat split. Qed.


(** *** The success-rate scenario *)

Lemma Qle_bool_false (x y : Q) : (y < x)%Q -> Qle_bool x y = false.
Proof.
  intros H. destruct (Qle_bool x y) eqn:E; [| reflexivity].
  apply Qle_bool_iff in E. exfalso. exact (Qlt_not_le _ _ H E).
Qed.

Lemma Qle_bool_true (x y : Q) : (x <= y)%Q -> Qle_bool x y = true.
Proof. apply Qle_bool_iff. Qed.

Lemma success_rate_observed (sd : StatusData) (st : HealthStatus) (now : Z)
    (mon : QuestDBHealthMonitor) (c : string * Q * bool) :
  c ∈ observed sd st now mon -> check_name c = "success_rate" ->
  c = ("success_rate", _calculate_success_rate sd, true).
Proof.
  unfold observed, checks. intros Hc Hn.
  repeat (apply elem_of_cons in Hc as [-> | Hc]); try discriminate Hn.
  - reflexivity.
  - inversion Hc.
Qed.

Lemma success_rate_is_observed (sd : StatusData) (st : HealthStatus) (now : Z)
    (mon : QuestDBHealthMonitor) :
  ("success_rate", _calculate_success_rate sd, true) ∈ observed sd st now mon.
Proof. do 2 apply list_elem_of_further. apply list_elem_of_here. Qed.

(** C7.  With the success-rate thresholds at warning 95 and critical 90,
    on a monitor with no active success-rate alert, an update with a
    success rate of 92 creates an alert for [success_rate] of severity
    [warning], returns it as the only alert for that key, and leaves it
    the key's active alert; a following update with a success rate of 96
    marks that alert resolved, at the time of the update, and removes the
    key from the active alerts. *)
Theorem success_rate_alert_resolves (mon : QuestDBHealthMonitor) (sd1 sd2 : StatusData)
    (st1 st2 : HealthStatus) (t1 t2 : Z) (th : HealthThreshold) :
  alerts_filed mon ->
  thresholds mon !! "success_rate" = Some th ->
  (warning_level th == 95)%Q -> (critical_level th == 90)%Q ->
  active_alerts mon !! "success_rate" = None ->
  sd_status sd1 = Some st1 -> sd_status sd2 = Some st2 ->
  (_calculate_success_rate sd1 == 92)%Q -> (_calculate_success_rate sd2 == 96)%Q ->
  let mon1 := update_status sd1 t1 mon in
  let mon2 := update_status sd2 t2 mon1 in
  exists ref a,
    active_alerts mon1 !! "success_rate" = Some ref /\
    alert_store mon1 !! ref = Some a /\
    alert_type a = "success_rate" /\ severity a = "warning" /\ resolved a = false /\
    ref ∈ alerts (current_status mon1) /\
    (forall r b, r ∈ alerts (current_status mon1) -> alert_store mon1 !! r = Some b ->
                 alert_type b = "success_rate" -> r = ref) /\
    active_alerts mon2 !! "success_rate" = None /\
    exists a', alert_store mon2 !! ref = Some a' /\ resolved a' = true /\
               resolved_at a' = Some t2 /\ core a' = core a.
Proof.
  intros Hf Hth Hw Hc Hnone Hst1 Hst2 H92 H96 mon1 mon2.
  (* the first update *)
  destruct (update_status_run sd1 t1 mon st1 Hst1) as (Eact & Estore & Enew & Eth & _).
  fold mon1 in Eact, Estore, Enew, Eth.
  set (mon0 := count_check st1 t1 mon) in *. set (m1 := snapshot sd1 st1 t1) in *.
  assert (Hf0 : alerts_filed mon0) by exact Hf.
  assert (Hx1 : crosses_warning th true (_calculate_success_rate sd1)).
  { unfold crosses_warning. rewrite H92, Hw. discriminate. }
  assert (Hcd : in_cooldown mon0 "success_rate" t1 = false).
  { unfold in_cooldown. cbn [active_alerts mon0 count_check]. rewrite Hnone. reflexivity. }
  destruct (crossing_fires mon0 t1 "success_rate" _ true th Hth Hx1 Hcd) as [a Ha].
  pose proof (success_rate_is_observed sd1 st1 t1 mon) as Hobs1.
  apply new_alert_Some in Ha as Hfacts.
  destruct Hfacts as (Hat & _ & Hres & _ & th' & Hth' & Hsev).
  unfold check_name in Hat, Hth'. cbn [fst snd] in Hat, Hth', Hsev.
  cbn [thresholds mon0 count_check] in Hth'. rewrite Hth in Hth'. injection Hth' as <-.
  assert (Hwarn : severity a = "warning").
  { unfold severity_of in Hsev.
    rewrite Qle_bool_false in Hsev by (rewrite H92, Hc; reflexivity).
    rewrite Qle_bool_true in Hsev by (rewrite H92, Hw; discriminate).
    congruence. }
  destruct (run_fires m1 t1 mon0 _ a Hf0 Hobs1 Ha) as (ref & Hr & Hra & Hrk).
  { apply (crossing_not_resolvable mon0 m1 "success_rate" _ true th a Hobs1 Hth Hx1 Hat). }
  unfold check_name in Hrk. cbn [fst] in Hrk.
  (* the second update *)
  assert (Hf1 : alerts_filed mon1) by (apply update_status_filed; exact Hf).
  assert (Hth1 : thresholds mon1 !! "success_rate" = Some th).
  { rewrite Eth. destruct (run_frame m1 t1 mon0 Hf0) as (s & ac & ->). exact Hth. }
  destruct (update_status_run sd2 t2 mon1 st2 Hst2) as (Eact2 & Estore2 & _).
  fold mon2 in Eact2, Estore2.
  set (mon10 := count_check st2 t2 mon1) in *. set (m2 := snapshot sd2 st2 t2) in *.
  assert (Hk1 : active_alerts mon10 !! "success_rate" = Some ref)
    by (cbn [active_alerts mon10 count_check]; rewrite Eact; exact Hrk).
  assert (Ha1 : alert_store mon10 !! ref = Some a)
    by (cbn [alert_store mon10 count_check]; rewrite Estore; exact Hra).
  destruct (run_goes m2 t2 mon10 "success_rate" ref a Hf1 Hk1 Ha1) as [Hgone Hmarked].
  { intros c Hc2 Hn2.
    rewrite (success_rate_observed sd2 st2 t2 mon1 c Hc2 Hn2).
    unfold new_alert. cbn [thresholds mon10 count_check]. rewrite Hth1.
    destruct (in_cooldown mon10 "success_rate" t2); [reflexivity |].
    unfold severity_of.
    rewrite Qle_bool_false by (rewrite H96, Hc; reflexivity).
    rewrite Qle_bool_false by (rewrite H96, Hw; reflexivity).
    reflexivity. }
  { unfold resolvable. rewrite Hres, Hat. cbn [thresholds mon10 count_check].
    rewrite Hth1. cbn. unfold Qltb.
    rewrite Qle_bool_false by (rewrite H96, Hw; reflexivity). reflexivity. }
  exists ref, a. rewrite Eact, Estore, Enew, Eact2, Estore2.
  split; [exact Hrk |]. split; [exact Hra |]. split; [exact Hat |].
  split; [exact Hwarn |]. split; [exact Hres |]. split; [exact Hr |].
  split.
  - intros r b Hrb Hb Hbt.
    apply (run_fires_once m1 t1 mon0 r ref b a Hf0 Hrb Hr Hb Hra). congruence.
  - split; [exact Hgone |].
    exists (mark_resolved t2 a). split; [exact Hmarked |]. repeat split.
Qed.

(** The theorem from a new monitor with its default thresholds, the first
    update at time 0 and the second a minute later: one alert is active
    after the first update, none after the second. *)
Lemma success_rate_alert_resolves_witness :
  (exists ref a,
     active_alerts warned !! "success_rate" = Some ref /\
     alert_store warned !! ref = Some a /\ severity a = "warning" /\
     active_alerts (update_status (quiet_with_success_rate 96) 60000000 warned)
       !! "success_rate" = None /\
     exists a', alert_store (update_status (quiet_with_success_rate 96) 60000000 warned)
                  !! ref = Some a' /\ resolved a' = true) /\
  get_active_alerts warned = [warning_92] /\
  get_active_alerts (update_status (quiet_with_success_rate 96) 60000000 warned) = [].
Proof.
  split; [| split; vm_compute; reflexivity].
  destruct (success_rate_alert_resolves (new_monitor 0)
              (quiet_with_success_rate 92) (quiet_with_success_rate 96)
              HEALTHY HEALTHY 0 60000000
              {| warning_level := 95; critical_level := 90;
                 description :=
                   "Query success rate percentage (reversed - lower is worse)" |}
              (new_monitor_filed 0) ltac:(vm_compute; reflexivity)
              ltac:(reflexivity) ltac:(reflexivity) ltac:(vm_compute; reflexivity)
              eq_refl eq_refl ltac:(vm_compute; reflexivity) ltac:(vm_compute; reflexivity))
    as (ref & a & H1 & H2 & _ & H4 & _ & _ & _ & H8 & a' & H9 & H10 & _).
  exists ref, a. split; [exact H1 |]. split; [exact H2 |]. split; [exact H4 |].
  split; [exact H8 |]. exists a'. split; assumption.
Defined.

End HealthMonitorFacts.

(** ** More properties of schema_manager.py *)

Module SchemaOpsFacts.
Import Py Schema SchemaOps SchemaFacts.

Lemma find_name_In (cs : list ColumnDefinition) (c : ColumnDefinition) :
  NoDup (name <$> cs) -> c ∈ cs ->
  List.find (fun c' => String.eqb (name c') (name c)) cs = Some c.
Proof.
  induction cs as [|c0 cs IH]; intros Hnd Hin.
  - inversion Hin.
  - rewrite fmap_cons in Hnd. apply NoDup_cons in Hnd as [Hnotin Hnd].
    cbn [List.find]. destruct (String.eqb (name c0) (name c)) eqn:E.
    + apply String.eqb_eq in E.
      apply elem_of_cons in Hin as [->|Hin]; [reflexivity|].
      exfalso. apply Hnotin. rewrite E. apply list_elem_of_fmap. eauto.
    + apply elem_of_cons in Hin as [->|Hin].
      * rewrite String.eqb_refl in E. discriminate.
      * apply IH; assumption.
Qed.

Lemma find_name_Some (cs : list ColumnDefinition) (n : string) (c : ColumnDefinition) :
  List.find (fun c' => String.eqb (name c') n) cs = Some c -> c ∈ cs /\ name c = n.
Proof.
  induction cs as [|c0 cs IH]; cbn [List.find]; [discriminate|].
  destruct (String.eqb (name c0) n) eqn:E.
  - intros [= <-]. apply String.eqb_eq in E. split; [apply list_elem_of_here | exact E].
  - intros H. destruct (IH H) as [? ?]. split; [apply list_elem_of_further|]; assumption.
Qed.

Lemma remove_dups_id {A} `{EqDecision A} (l : list A) :
  NoDup l -> remove_dups l = l.
Proof.
  induction 1 as [|x l Hx Hnd IH]; [reflexivity|].
  cbn [remove_dups]. destruct (decide_rel elem_of x l); [contradiction|].
  rewrite IH. reflexivity.
Qed.

Lemma _validate_schema_Ok (s : TableSchema) :
  _validate_schema s = Ok tt <->
  table_name s <> "" /\ columns s <> [] /\
  (exists tc, get_column s (timestamp_column s) = Some tc /\ type tc = TIMESTAMP) /\
  NoDup (column_names s).
Proof.
  unfold _validate_schema. split.
  - intros H. pose proof (_validate_schema_NoDup s H) as Hnd.
    unfold _validate_schema in H.
    destruct (String.eqb (table_name s) "") eqn:En; [discriminate|].
    apply String.eqb_neq in En.
    destruct (columns s) as [|c0 cs] eqn:Ec; [discriminate|].
    destruct (get_column s (timestamp_column s)) as [tc|] eqn:Et; [|discriminate].
    destruct (type tc) eqn:Ety; cbn in H; try discriminate.
    repeat split; [exact En | discriminate | eexists; split; [reflexivity | exact Ety] | exact Hnd].
  - intros (Hn & Hc & (tc & Ht & Hty) & Hnd).
    apply String.eqb_neq in Hn. rewrite Hn.
    destruct (columns s) as [|c0 cs] eqn:Ec; [congruence|].
    rewrite Ht, Hty. cbn [is_timestamp negb].
    assert (Hlen : length (column_names s) = length (remove_dups (column_names s))).
    { rewrite (remove_dups_id _ Hnd). reflexivity. }
    rewrite <- Hlen, Nat.eqb_refl. reflexivity.
Qed.

(** X1. In a schema that passed [_validate_schema], [get_column] finds
    every column under its own name (no column is shadowed by another of
    the same name), finds nothing else, and the column named by
    [timestamp_column] exists and has type TIMESTAMP. *)
Theorem get_column_finds (s : TableSchema) :
  _validate_schema s = Ok tt ->
  (forall c, c ∈ columns s -> get_column s (name c) = Some c) /\
  (forall n c, get_column s n = Some c -> c ∈ columns s /\ name c = n) /\
  exists tc, get_column s (timestamp_column s) = Some tc /\ type tc = TIMESTAMP.
Proof.
  intros H. apply _validate_schema_Ok in H as (_ & _ & Hts & Hnd).
  split; [|split].
  - intros c Hc. apply find_name_In; assumption.
  - intros n c Hc. apply find_name_Some. exact Hc.
  - exact Hts.
Qed.

Lemma get_column_finds_witness :
  (forall c, c ∈ columns Samples.quotes -> get_column Samples.quotes (name c) = Some c) /\
  (forall n c, get_column Samples.quotes n = Some c ->
               c ∈ columns Samples.quotes /\ name c = n) /\
  exists tc, get_column Samples.quotes (timestamp_column Samples.quotes) = Some tc /\
             type tc = TIMESTAMP.
Proof. apply (get_column_finds Samples.quotes). reflexivity. Defined.

Lemma existsb_name (cs : list ColumnDefinition) (n : string) :
  existsb (fun col => String.eqb (name col) n) cs = true <-> n ∈ name <$> cs.
Proof.
  rewrite existsb_exists, list_elem_of_fmap. split.
  - intros (c & Hin & E). apply String.eqb_eq in E. exists c.
    split; [symmetry; exact E | apply list_elem_of_In; exact Hin].
  - intros (c & -> & Hin). exists c.
    split; [apply list_elem_of_In; exact Hin | apply String.eqb_refl].
Qed.

Lemma find_app_l {A} (f : A -> bool) (l1 l2 : list A) (x : A) :
  List.find f l1 = Some x -> List.find f (l1 ++ l2) = Some x.
Proof.
  induction l1 as [|a l1 IH]; cbn [List.find app]; [discriminate|].
  destruct (f a); [trivial | exact IH].
Qed.

Lemma find_app_r {A} (f : A -> bool) (l1 l2 : list A) :
  List.find f l1 = None -> List.find f (l1 ++ l2) = List.find f l2.
Proof.
  induction l1 as [|a l1 IH]; cbn [List.find app]; [trivial|].
  destruct (f a); [discriminate | exact IH].
Qed.

Lemma find_name_None (cs : list ColumnDefinition) (n : string) :
  n ∉ name <$> cs -> List.find (fun c' => String.eqb (name c') n) cs = None.
Proof.
  intros Hn. destruct (List.find _ cs) as [c|] eqn:E; [|reflexivity].
  apply find_name_Some in E as [Hin <-]. exfalso. apply Hn.
  apply list_elem_of_fmap. eauto.
Qed.

(** X2. [add_column] on a schema that passed [_validate_schema]: a name
    that is taken is refused with [ValueError]; otherwise the column is
    appended, the schema still passes [_validate_schema] (which
    [add_column] does not run again), [get_column] finds the new column
    and answers as before for every other name. *)
Theorem add_column_keeps_schema_valid (s : TableSchema) (c : ColumnDefinition) :
  _validate_schema s = Ok tt ->
  (name c ∈ column_names s -> add_column s c = Err ValueError) /\
  (name c ∉ column_names s ->
   exists s', add_column s c = Ok s' /\
     columns s' = columns s ++ [c] /\
     _validate_schema s' = Ok tt /\
     get_column s' (name c) = Some c /\
     (forall n, n <> name c -> get_column s' n = get_column s n)).
Proof.
  intros Hv. unfold add_column. split.
  - intros Hin. apply existsb_name in Hin. rewrite Hin. reflexivity.
  - intros Hnin.
    destruct (existsb _ (columns s)) eqn:E;
      [apply existsb_name in E; contradiction|].
    eexists. split; [reflexivity|]. cbn [columns].
    split; [reflexivity|].
    apply _validate_schema_Ok in Hv as (Hn & Hc & (tc & Hts & Hty) & Hnd).
    split; [|split].
    + apply _validate_schema_Ok. cbn [table_name columns timestamp_column].
      split; [exact Hn|]. split; [destruct (columns s); discriminate|].
      split.
      * exists tc. split; [|exact Hty]. unfold get_column. cbn [columns timestamp_column].
        apply find_app_l. exact Hts.
      * unfold column_names. cbn [columns]. rewrite fmap_app. apply NoDup_app.
        split; [exact Hnd|]. split.
        -- intros x Hx Hx'. apply list_elem_of_singleton in Hx'. subst x. contradiction.
        -- apply NoDup_singleton.
    + unfold get_column. cbn [columns]. rewrite find_app_r by (apply find_name_None; exact Hnin).
      cbn [List.find]. rewrite String.eqb_refl. reflexivity.
    + intros n Hne. unfold get_column. cbn [columns].
      destruct (List.find (fun c' => String.eqb (name c') n) (columns s)) as [c'|] eqn:E'.
      * apply find_app_l. exact E'.
      * rewrite find_app_r by exact E'. cbn [List.find].
        destruct (String.eqb (name c) n) eqn:En; [|reflexivity].
        apply String.eqb_eq in En. congruence.
Qed.

Lemma add_column_keeps_schema_valid_witness :
  add_column Samples.quotes Samples.price = Err ValueError /\
  exists s', add_column Samples.quotes (Samples.column "venue" SYMBOL true VNone) = Ok s' /\
     columns s' = columns Samples.quotes ++ [Samples.column "venue" SYMBOL true VNone] /\
     _validate_schema s' = Ok tt /\
     get_column s' "venue" = Some (Samples.column "venue" SYMBOL true VNone).
Proof.
  split.
  - apply (add_column_keeps_schema_valid Samples.quotes Samples.price eq_refl).
    apply (bool_decide_unpack _). vm_compute. exact I.
  - destruct (add_column_keeps_schema_valid Samples.quotes
                (Samples.column "venue" SYMBOL true VNone) eq_refl) as [_ H].
    destruct H as (s' & H1 & H2 & H3 & H4 & _).
    + apply (bool_decide_unpack _). vm_compute. exact I.
    + exists s'. repeat split; assumption.
Defined.

Lemma ColumnType_of_value_type_value (ty : ColumnType) :
  ColumnType_of_value (type_value ty) = Some ty.
Proof. destruct ty; reflexivity. Qed.

Lemma column_from_dict_to_dict (c : ColumnDefinition) :
  column_from_dict (column_to_dict c) = Ok c.
Proof.
  unfold column_from_dict, column_to_dict.
  cbn [cd_name cd_type cd_nullable cd_symbol_capacity cd_symbol_cache cd_index
       cd_default_value cd_description default].
  rewrite ColumnType_of_value_type_value. destruct c; reflexivity.
Qed.

Lemma columns_from_dict_to_dict (cs : list ColumnDefinition) :
  columns_from_dict (column_to_dict <$> cs) = Ok cs.
Proof.
  induction cs as [|c cs IH]; [reflexivity|].
  rewrite fmap_cons. cbn [columns_from_dict].
  rewrite column_from_dict_to_dict. cbn. rewrite IH. reflexivity.
Qed.

(** X3. Serialization round trip: [from_dict(to_dict(schema))] rebuilds
    the very schema when it passes [_validate_schema] (as every schema
    built by the constructor does), and raises [ValueError] otherwise (a
    schema that [add_column] or an assignment has made invalid). *)
Theorem from_dict_to_dict (s : TableSchema) :
  from_dict (to_dict s) =
    if is_ok (_validate_schema s) then Ok s else Err LoadValueError.
Proof.
  unfold from_dict, to_dict. cbn [td_columns td_table_name td_timestamp_column
    td_partition_by td_wal_enabled td_description td_version default].
  rewrite columns_from_dict_to_dict. cbn.
  replace {| table_name := table_name s; columns := columns s;
             timestamp_column := timestamp_column s; partition_by := partition_by s;
             wal_enabled := wal_enabled s; schema_description := schema_description s;
             version := version s |} with s by (destruct s; reflexivity).
  destruct (_validate_schema s); reflexivity.
Qed.

Lemma lower_ascii_idemp (c : Ascii.ascii) : lower_ascii (lower_ascii c) = lower_ascii c.
Proof. destruct c as [[] [] [] [] [] [] [] []]; reflexivity. Qed.

Lemma lower_idemp (s : string) : lower (lower s) = lower s.
Proof.
  induction s as [|c s IH]; [reflexivity|].
  cbn [lower]. rewrite lower_ascii_idemp, IH. reflexivity.
Qed.

Lemma type_mapping_Some (k : string) (ty : ColumnType) :
  type_mapping !! k = Some ty -> k = lower (type_value ty).
Proof.
  unfold type_mapping. intros H. apply elem_of_list_to_map_2 in H.
  repeat (apply elem_of_cons in H as [[= -> ->]|H]; [reflexivity|]).
  inversion H.
Qed.

(** X4. [_map_questdb_type] inverts [ColumnType.value] whatever the case
    of the letters, so that the type names written by [to_sql] map back
    to the column types they came from; it does not depend on the case of
    its argument; and a name that is no column type maps to STRING. *)
Theorem map_questdb_type_inverts_value :
  (forall ty, _map_questdb_type (type_value ty) = ty /\
              _map_questdb_type (lower (type_value ty)) = ty) /\
  (forall s, _map_questdb_type (lower s) = _map_questdb_type s) /\
  (forall s, (forall ty, lower s <> lower (type_value ty)) ->
             _map_questdb_type s = STRING).
Proof.
  split; [|split].
  - intros ty. destruct ty; split; reflexivity.
  - intros s. unfold _map_questdb_type. rewrite lower_idemp. reflexivity.
  - intros s Hs. unfold _map_questdb_type.
    destruct (type_mapping !! lower s) as [ty|] eqn:E; [|reflexivity].
    apply type_mapping_Some in E. exfalso. exact (Hs ty E).
Qed.

Section WithBuiltins.
Context {B : Builtins}.

(** X5. What [validate_value] returns has the Python type of the column:
    a float for DOUBLE and FLOAT, an int for LONG and INT, a bool for
    BOOLEAN, a str for STRING and SYMBOL, a datetime for TIMESTAMP; a DATE
    column returns a date or, since a [datetime] is a [date] and is
    returned unchanged, a datetime; [None] is returned for [None] only, by
    a nullable column. *)
Theorem validate_value_typed (c : ColumnDefinition) (v v' : value) :
  validate_value c v = Ok v' ->
  if is_none v then v' = VNone /\ nullable c = true
  else has_type (type c) v' = true.
Proof.
  unfold validate_value. destruct (is_none v) eqn:Hn.
  - destruct (nullable c); cbn [negb]; [|discriminate]. intros [= <-]. split; reflexivity.
  - intros H. apply reraise_ok in H.
    destruct (type c); cbn [convert] in H.
    + destruct v; try discriminate.
      * destruct (fromisoformat (replace_Z s)); [|discriminate]. injection H as <-. reflexivity.
      * injection H as <-. reflexivity.
    + injection H as <-. reflexivity.
    + injection H as <-. reflexivity.
    + destruct (float v); [|discriminate]. injection H as <-. reflexivity.
    + destruct (float v); [|discriminate]. injection H as <-. reflexivity.
    + destruct (int_of_float v); [|discriminate]. injection H as <-. reflexivity.
    + destruct (int_of_float v); [|discriminate]. injection H as <-. reflexivity.
    + destruct v; injection H as <-; reflexivity.
    + destruct v; try discriminate.
      * destruct (strptime_ymd s); [|discriminate]. injection H as <-. reflexivity.
      * injection H as <-. reflexivity.
      * injection H as <-. reflexivity.
    + injection H as <-. cbn. rewrite Hn. reflexivity.
Qed.

End WithBuiltins.

Lemma validate_value_typed_witness :
  has_type DATE (VDatetime {| dt_ordinal := 738887; dt_micros := 5; dt_utcoffset := None |})
    = true.
Proof.
  exact (@validate_value_typed Samples.sample_builtins
           (Samples.column "day" DATE true VNone)
           (VDatetime {| dt_ordinal := 738887; dt_micros := 5; dt_utcoffset := None |})
           _ eq_refl).
Defined.

Section Doubles.
Local Open Scope Z_scope.


Lemma int_of_float_exact {B : Builtins} (n : Z) :
  (Z.abs n <= 2 ^ 53)%Z -> int_of_float (VInt n) = Ok n.
Proof.
  intros H. unfold int_of_float. cbn [float].
  destruct (Z.eq_dec (Z.abs n) (2 ^ 53)%Z) as [E|E].
  { destruct (Z.abs_eq_or_opp n) as [E'|E']; rewrite E' in E.
    - rewrite E. vm_compute. reflexivity.
    - replace n with (- 2 ^ 53)%Z by lia. vm_compute. reflexivity. }
  destruct (Z.eq_dec n 0) as [->|Hn0]; [reflexivity|].
  assert (Ha : (0 < Z.abs n)%Z) by lia.
  assert (Hlog : (Z.log2 (Z.abs n) + 1 - PyFloat.prec <= 0)%Z).
  { unfold PyFloat.prec. assert (Z.log2 (Z.abs n) < 53)%Z; [|lia].
    apply Z.log2_lt_pow2; [exact Ha | lia]. }
  pose proof (PyFloatFacts.of_Z_small (n <? 0)%Z (Z.abs n) Ha Hlog) as Hof.
  assert (Hn : (if (n <? 0)%Z then (- Z.abs n)%Z else Z.abs n) = n).
  { destruct (n <? 0)%Z eqn:Es; [apply Z.ltb_lt in Es | apply Z.ltb_ge in Es]; lia. }
  rewrite Hn in Hof. rewrite Hof.
  change (PyFloat.trunc (S754_finite (n <? 0) (Z.to_pos (Z.abs n)) 0) = Ok n).
  rewrite (PyFloatFacts.trunc_finite_nonneg_exp (n <? 0)%Z (Z.abs n) 0 Ha (Z.le_refl 0)).
  rewrite Z.pow_0_r, Z.mul_1_r. rewrite Hn. reflexivity.
Qed.

End Doubles.

Section Errors.
Context {B : Builtins}.


(** X7. A LONG or INT column converts through [float]: an int of absolute
    value up to [2^53] is returned as it is, while a larger one can come
    back changed without an error ([2^53 + 1] comes back as [2^53]). *)
Theorem integer_column_exact (c : ColumnDefinition) (n : Z) :
  type c ∈ [LONG; INT] ->
  ((Z.abs n <= 2 ^ 53)%Z -> validate_value c (VInt n) = Ok (VInt n)) /\
  validate_value c (VInt (2 ^ 53 + 1)) = Ok (VInt (2 ^ 53)).
Proof.
  intros Hty. unfold validate_value. cbn [is_none].
  assert (Hc : forall v, convert (type c) v = (n ← int_of_float v; Ok (VInt n))).
  { destruct (type c); try (exfalso; set_solver); reflexivity. }
  rewrite !Hc. split.
  - intros Hn. rewrite (int_of_float_exact n Hn). reflexivity.
  - vm_compute. reflexivity.
Qed.

End Errors.

Lemma integer_column_exact_witness :
  @validate_value Samples.sample_builtins (Samples.column "volume" LONG true VNone)
    (VInt (- 9007199254740992)) = Ok (VInt (- 9007199254740992)) /\
  @validate_value Samples.sample_builtins (Samples.column "volume" LONG true VNone)
    (VInt (2 ^ 53 + 1)) = Ok (VInt (2 ^ 53)).
Proof.
  destruct (@integer_column_exact Samples.sample_builtins
              (Samples.column "volume" LONG true VNone) (- 9007199254740992)) as [H1 H2].
  - cbn. set_solver.
  - split; [apply H1; vm_compute; discriminate | exact H2].
Defined.

Section Records.
Context {B : Builtins}.

Lemma validate_columns_required (cs : list ColumnDefinition)
    (record acc : gmap string value) (c : ColumnDefinition) :
  c ∈ cs -> required c = true -> default VNone (record !! name c) = VNone ->
  is_ok (validate_columns cs record acc) = false.
Proof.
  intros Hin Hreq Hrec. revert acc.
  induction cs as [|c0 cs IH]; intros acc; [inversion Hin|].
  cbn [validate_columns].
  apply elem_of_cons in Hin as [<-|Hin].
  - unfold required in Hreq. apply andb_true_iff in Hreq as [Hnull Hdef].
    unfold field_value. rewrite Hrec. cbn [is_none andb]. rewrite Hdef. cbn [negb].
    unfold validate_value. cbn [is_none]. rewrite Hnull. reflexivity.
  - destruct (validate_value c0 (field_value record c0)); cbn; [apply IH; exact Hin | reflexivity].
Qed.

(** X8. [validate_record] rejects every record that leaves out (or gives
    [None] for) a column that is NOT NULL and has no default value,
    whatever else the record holds. *)
Theorem validate_record_requires (s : TableSchema) (record : gmap string value)
    (c : ColumnDefinition) :
  c ∈ columns s -> required c = true -> default VNone (record !! name c) = VNone ->
  is_ok (validate_record s record) = false.
Proof. intros. eapply validate_columns_required; eassumption. Qed.

(** X9. The rows sent to the store line up with the columns: for a
    schema that passed [_validate_schema], [record_to_values] of a
    validated record lists, in the order of the columns (the order of the
    names in [to_insert_sql]), the value [validate_value] returned for
    each column. *)
Theorem record_to_values_validated (s : TableSchema) (record validated : gmap string value) :
  _validate_schema s = Ok tt ->
  validate_record s record = Ok validated ->
  Forall2 (fun c x => validate_value c (field_value record c) = Ok x)
          (columns s) (record_to_values s validated).
Proof.
  intros Hv H. apply _validate_schema_NoDup in Hv.
  apply validate_columns_spec in H as (_ & _ & Hall).
  unfold record_to_values. apply Forall2_fmap_r, Forall_Forall2_diag, Forall_forall.
  intros c Hc. destruct (Hall Hv c Hc) as (v & Hval & Hlook).
  unfold compose. rewrite Hlook. exact Hval.
Qed.

End Records.

Lemma validate_record_requires_witness :
  is_ok (@validate_record Samples.sample_builtins Samples.quotes
           (<["timestamp" := VStr "2024-01-02T00:00:00Z"]> ∅)) = false.
Proof.
  apply (@validate_record_requires Samples.sample_builtins Samples.quotes _ Samples.price).
  - apply list_elem_of_further, list_elem_of_here.
  - reflexivity.
  - reflexivity.
Defined.

Lemma record_to_values_validated_witness :
  exists validated,
    @validate_record Samples.sample_builtins Samples.quotes Samples.quote_ok = Ok validated /\
    Forall2 (fun c x => @validate_value Samples.sample_builtins c
                          (@field_value Samples.quote_ok c) = Ok x)
            (columns Samples.quotes) (record_to_values Samples.quotes validated).
Proof.
  destruct (@validate_record Samples.sample_builtins Samples.quotes Samples.quote_ok)
    as [validated|] eqn:E; [|vm_compute in E; discriminate].
  exists validated. split; [reflexivity|].
  exact (@record_to_values_validated Samples.sample_builtins Samples.quotes
           Samples.quote_ok validated eq_refl E).
Defined.

End SchemaOpsFacts.

(** ** More properties of client.py *)

Module ClientOpsFacts.
Import Py Schema Client ClientOps ClientFacts.

(** *** The retry loop *)

Lemma attempts_from (db : Store) (retry : Z) (i : nat) :
  forall left k,
    Z.of_nat (k + left) = retry -> 0 < left ->
    (attempts db retry i k left = (true, None) <->
     exists k', k <= k' < k + left /\ insert db i k' = None /\
       forall j, k <= j < k' -> is_Some (insert db i j) /\ rollback db i j = None) /\
    (attempts db retry i k left <> (true, None) ->
     exists msg, attempts db retry i k left = (false, Some msg)).
Proof.
  induction left as [|left IH]; intros k Hk Hleft; [lia|].
  cbn [attempts]. destruct (insert db i k) as [msg|] eqn:Ei.
  - destruct (Z.of_nat k =? retry - 1)%Z eqn:Elast.
    + apply Z.eqb_eq in Elast. assert (left = 0) by lia. subst left. split.
      * split; [discriminate|]. intros (k' & Hk' & Hins & _).
        assert (k' = k) by lia. subst k'. congruence.
      * intros _. eauto.
    + apply Z.eqb_neq in Elast. assert (Hl : 0 < left) by lia.
      destruct (rollback db i k) as [msg'|] eqn:Er.
      * split; [|intros _; eauto].
        split; [discriminate|]. intros (k' & Hk' & Hins & Hbefore).
        assert (k < k') by (destruct (decide (k' = k)); [subst; congruence | lia]).
        destruct (Hbefore k) as [_ Hrb]; [lia|]. congruence.
      * destruct (IH (S k)) as [[IH1 IH2] IH3]; [lia | exact Hl |].
        split; [split|exact IH3].
        -- intros H. destruct (IH1 H) as (k' & Hk' & Hins & Hbefore).
           exists k'. split; [lia|]. split; [exact Hins|].
           intros j Hj. destruct (decide (j = k)) as [->|Hne].
           ++ rewrite Ei, Er. split; [eauto | reflexivity].
           ++ apply Hbefore. lia.
        -- intros (k' & Hk' & Hins & Hbefore). apply IH2.
           assert (k < k') by (destruct (decide (k' = k)); [subst; congruence | lia]).
           exists k'. split; [lia|]. split; [exact Hins|].
           intros j Hj. apply Hbefore. lia.
  - split; [|intros H; congruence].
    split; [intros _|reflexivity].
    exists k. split; [lia|]. split; [exact Ei|]. intros j Hj. lia.
Qed.

(** X10. The retry loop of [execute_batch_insert], with a positive
    [retry_attempts]: a chunk is committed exactly when one of the first
    [retry_attempts] attempts succeeds, every attempt before it having
    failed and been rolled back; otherwise the loop raises (the error of
    the last attempt, or of a rollback that failed). *)
Theorem chunk_committed_iff (db : Store) (retry : Z) (i : nat) :
  (0 < retry)%Z ->
  (attempts db retry i 0 (Z.to_nat retry) = (true, None) <->
   exists k, (Z.of_nat k < retry)%Z /\ first_success db i k) /\
  (attempts db retry i 0 (Z.to_nat retry) <> (true, None) ->
   exists msg, attempts db retry i 0 (Z.to_nat retry) = (false, Some msg)).
Proof.
  intros Hr.
  destruct (attempts_from db retry i (Z.to_nat retry) 0) as [Hiff Hne]; [lia | lia |].
  split; [|exact Hne]. rewrite Hiff. unfold first_success. split.
  - intros (k & Hk & Hins & Hb). exists k. split; [lia|]. split; [exact Hins|].
    intros j Hj. apply Hb. lia.
  - intros (k & Hk & Hins & Hb). exists k. split; [lia|]. split; [exact Hins|].
    intros j Hj. apply Hb. lia.
Qed.

Lemma chunk_committed_iff_witness :
  attempts second_chunk_fails 3 0 0 (Z.to_nat 3) = (true, None) /\
  exists msg, attempts second_chunk_fails 3 1 0 (Z.to_nat 3) = (false, Some msg).
Proof.
  destruct (chunk_committed_iff second_chunk_fails 3 0 eq_refl) as [H0 _].
  destruct (chunk_committed_iff second_chunk_fails 3 1 eq_refl) as [_ H1].
  split.
  - apply H0. exists 0. split; [reflexivity|]. split; [reflexivity|]. intros j Hj. lia.
  - apply H1. vm_compute. discriminate.
Defined.

(** *** What the store commits *)

Lemma concat_fmap_chunks {A C} (f : A -> C) (L : list (list A)) :
  concat (fmap (M:=list) f <$> L) = f <$> concat L.
Proof.
  induction L as [|l L IH]; [reflexivity|].
  rewrite fmap_cons. cbn [concat]. rewrite fmap_app, IH. reflexivity.
Qed.

Lemma chunks_length_le {A} (bs : nat) (fuel : nat) :
  forall l : list A, Forall (fun ch => length ch <= bs) (chunks fuel bs l).
Proof.
  induction fuel as [|fuel IH]; intros l; cbn [chunks]; [constructor|].
  destruct l as [|x l]; constructor; [|apply IH].
  rewrite length_take. lia.
Qed.

Lemma chunks_fmap {A C} (f : A -> C) (bs fuel : nat) :
  forall l : list A,
    fmap (M:=list) f <$> chunks fuel bs l = chunks fuel bs (f <$> l).
Proof.
  induction fuel as [|fuel IH]; intros l; cbn [chunks]; [reflexivity|].
  destruct l as [|x l]; [reflexivity|].
  change (f <$> x :: l) with (f x :: (f <$> l)). cbv iota.
  change (f x :: (f <$> l)) with (f <$> x :: l).
  rewrite fmap_cons, IH, fmap_take, fmap_drop. reflexivity.
Qed.

Lemma concat_chunks_prefix {A} (bs fuel : nat) :
  forall l : list A, concat (chunks fuel bs l) `prefix_of` l.
Proof.
  induction fuel as [|fuel IH]; intros l; cbn [chunks]; [apply prefix_nil|].
  destruct l as [|x l]; [apply prefix_nil|]. cbn [concat].
  rewrite <- (take_drop bs (x :: l)) at 3. apply prefix_app, IH.
Qed.

Lemma insert_chunks_committed (db : Store) (retry : Z) (s : TableSchema) :
  (0 < retry)%Z ->
  forall batches i committed,
  exists j, j <= length batches /\
    (insert_chunks db retry s i batches committed).1
      = committed ++ (fmap (M:=list) (record_to_values s) <$> take j batches) /\
    ((insert_chunks db retry s i batches committed).2 = None -> j = length batches).
Proof.
  intros Hr. induction batches as [|batch rest IH]; intros i committed; cbn [insert_chunks].
  - exists 0. cbn. rewrite app_nil_r. repeat split; lia.
  - destruct (attempts_from db retry i (Z.to_nat retry) 0) as [_ Hne]; [lia | lia |].
    destruct (attempts db retry i 0 (Z.to_nat retry)) as [done [msg|]] eqn:Ea.
    + exists 0. cbn. rewrite app_nil_r. split; [lia|]. split; [reflexivity | discriminate].
    + destruct done.
      * destruct (IH (S i) (committed ++ [record_to_values s <$> batch]))
          as (j & Hj & Hc & Hn).
        exists (S j). cbn [length take]. split; [lia|]. rewrite Hc.
        split; [|intros H; rewrite (Hn H); reflexivity].
        rewrite fmap_cons, <- app_assoc. reflexivity.
      * destruct Hne as [msg Hmsg]; [discriminate | discriminate].
Qed.

Lemma insert_chunks_no_retry (db : Store) (retry : Z) (s : TableSchema) :
  (retry <= 0)%Z ->
  forall batches i committed,
    insert_chunks db retry s i batches committed = (committed, None).
Proof.
  intros Hr. induction batches as [|batch rest IH]; intros i committed;
    cbn [insert_chunks]; [reflexivity|].
  replace (Z.to_nat retry) with 0 by lia. cbn [attempts]. apply IH.
Qed.

Section WithBuiltins.
Context {B : Builtins}.

Lemma validate_all_valid_records (s : TableSchema) (data : list (gmap string value)) :
  forall vd i f,
    (validate_all s data vd i f).1.1 = vd ++ valid_records s data /\
    (validate_all s data vd i f).1.2 = i + length (valid_records s data).
Proof.
  unfold valid_records.
  induction data as [|record rest IH]; intros vd i f; cbn [validate_all omap list_omap].
  - cbn. rewrite app_nil_r. split; [reflexivity | lia].
  - destruct (validate_record s record) as [v|e].
    + destruct (IH (vd ++ [v]) (S i) f) as [H1 H2]. rewrite H1, H2.
      rewrite <- app_assoc. cbn. split; [reflexivity | lia].
    + apply IH.
Qed.

(** What [execute_batch_insert] has committed when it returns, for a
    table with a schema: some of the first chunks of the validated rows;
    all of them on success, when retries and batch size are positive;
    none when one of the two is not. *)
Lemma execute_batch_insert_cases (m : QuestDBManager) (db : Store) (table : string)
    (data : list (gmap string value)) (batch_size : Z) (s : TableSchema) :
  get_schema (schema_manager m) table = Some s ->
  let rows := record_to_values s <$> valid_records s data in
  let all := chunks (length rows) (Z.to_nat batch_size) rows in
  let out := execute_batch_insert m db table data batch_size in
  (exists j, out.1.2 = take j all) /\
  (success out.2 = true -> records_inserted out.2 = length rows) /\
  (success out.2 = true -> (0 < retry_attempts (config m))%Z -> (0 < batch_size)%Z ->
     out.1.2 = all) /\
  ((retry_attempts (config m) <= 0)%Z \/ (batch_size < 0)%Z -> out.1.2 = []) /\
  (connect db = None -> batch_size <> 0%Z -> rows <> [] ->
   (retry_attempts (config m) <= 0)%Z \/ (batch_size < 0)%Z -> success out.2 = true).
Proof.
  intros Hs rows all out. subst out. unfold execute_batch_insert.
  destruct data as [|record rest].
  { subst all rows. cbn. split; [exists 0; reflexivity|].
    repeat split; try reflexivity; intros; congruence. }
  set (data := record :: rest) in *. unfold try_block. rewrite Hs.
  destruct (validate_all_valid_records s data [] 0 0) as [Hvd Hi].
  destruct (validate_all s data [] 0 0) as [[vd i] f] eqn:Hv.
  cbn [fst snd] in Hvd, Hi. rewrite app_nil_l in Hvd. rewrite Nat.add_0_l, <- Hvd in Hi.
  assert (Hrows : rows = record_to_values s <$> vd) by (subst rows; rewrite Hvd; reflexivity).
  assert (Hlen : length rows = length vd) by (rewrite Hrows; apply length_fmap).
  assert (Halldef : all = chunks (length rows) (Z.to_nat batch_size) rows) by reflexivity.
  clearbody all. clearbody rows.
  destruct vd as [|v vd'] eqn:Evd.
  { cbn. split; [exists 0; reflexivity|].
    repeat split; try discriminate; try reflexivity.
    intros _ _ Hne. exfalso. apply Hne. rewrite Hrows. reflexivity. }
  rewrite <- Evd in *. cbv beta iota zeta.
  destruct (connect db) as [msg|] eqn:Ec.
  { cbn. split; [exists 0; reflexivity|]. repeat split; try discriminate; reflexivity. }
  destruct (batch_size =? 0)%Z eqn:Eb0.
  { cbn. split; [exists 0; reflexivity|]. repeat split; try discriminate; try reflexivity.
    intros _ Hb. apply Z.eqb_eq in Eb0. contradiction. }
  apply Z.eqb_neq in Eb0.
  set (batches := if (batch_size <? 0)%Z then []
                  else chunks (length vd) (Z.to_nat batch_size) vd).
  assert (Hall : fmap (M:=list) (record_to_values s) <$> batches
                 = if (batch_size <? 0)%Z then [] else all).
  { subst batches all. destruct (batch_size <? 0)%Z; [reflexivity|].
    rewrite Hlen, Hrows. apply chunks_fmap. }
  clear Halldef.
  destruct (batch_size <? 0)%Z eqn:Eneg.
  { apply Z.ltb_lt in Eneg. subst batches. cbn.
    split; [exists 0; reflexivity|].
    repeat split; try reflexivity; try lia; try (intros _; rewrite Hlen; exact Hi). }
  apply Z.ltb_ge in Eneg.
  destruct (Z_lt_le_dec 0 (retry_attempts (config m))) as [Hr|Hr].
  - destruct (insert_chunks_committed db (retry_attempts (config m)) s Hr batches 0 [])
      as (j & Hj & Hc & Hn).
    destruct (insert_chunks db (retry_attempts (config m)) s 0 batches [])
      as [committed [msg|]] eqn:Eins; cbn [fst snd] in Hc, Hn; cbn;
      rewrite app_nil_l in Hc; rewrite fmap_take, Hall in Hc.
    + split; [exists j; exact Hc|].
      repeat split; try discriminate; intros; lia.
    + specialize (Hn eq_refl). subst j.
      assert (Hc' : committed = all).
      { rewrite Hc. apply take_ge. rewrite <- Hall, length_fmap. reflexivity. }
      split; [exists (length all); rewrite firstn_all; exact Hc'|].
      repeat split; try reflexivity; try (intros; lia); try (intros; exact Hc');
        try (intros _; rewrite Hlen; exact Hi).
  - rewrite (insert_chunks_no_retry db _ s Hr). cbn.
    split; [exists 0; reflexivity|].
    repeat split; try reflexivity; try lia; try (intros _; rewrite Hlen; exact Hi).
Qed.


(** X11. What a successful batched insert has done, retries and batch
    size being positive: the store has committed exactly the rows of the
    records that passed validation, in the order of the batch, in chunks
    of at most [batch_size] rows, and [records_inserted] is their
    number. *)
Theorem success_commits_all_rows (m : QuestDBManager) (db : Store) (table : string)
    (data : list (gmap string value)) (batch_size : Z) (s : TableSchema) :
  get_schema (schema_manager m) table = Some s ->
  (0 < retry_attempts (config m))%Z -> (0 < batch_size)%Z ->
  success (execute_batch_insert m db table data batch_size).2 = true ->
  concat (execute_batch_insert m db table data batch_size).1.2
    = record_to_values s <$> valid_records s data /\
  records_inserted (execute_batch_insert m db table data batch_size).2
    = length (concat (execute_batch_insert m db table data batch_size).1.2) /\
  Forall (fun chunk => length chunk <= Z.to_nat batch_size)
         (execute_batch_insert m db table data batch_size).1.2.
Proof.
  intros Hs Hr Hb Hok.
  destruct (execute_batch_insert_cases m db table data batch_size s Hs)
    as (_ & Hn & Hall & _).
  rewrite (Hall Hok Hr Hb), (Hn Hok).
  assert (Hbs : 0 < Z.to_nat batch_size) by lia.
  rewrite (concat_chunks (Z.to_nat batch_size) _ _ Hbs (Nat.le_refl _)).
  split; [reflexivity|]. split; [reflexivity|]. apply chunks_length_le.
Qed.

(** X12. A batched insert never commits anything but validated rows, in
    the order of the batch and each at most once: whatever the store
    answers, the committed chunks put together are a prefix of the rows of
    the records that passed validation.  A failure does not undo the
    chunks committed before it. *)
Theorem committed_rows_prefix (m : QuestDBManager) (db : Store) (table : string)
    (data : list (gmap string value)) (batch_size : Z) (s : TableSchema) :
  get_schema (schema_manager m) table = Some s ->
  concat (execute_batch_insert m db table data batch_size).1.2
    `prefix_of` (record_to_values s <$> valid_records s data).
Proof.
  intros Hs.
  destruct (execute_batch_insert_cases m db table data batch_size s Hs)
    as ((j & Hj) & _).
  rewrite Hj.
  etransitivity; [|apply (concat_chunks_prefix (Z.to_nat batch_size))].
  rewrite <- (take_drop j (chunks _ _ _)) at 2. rewrite concat_app.
  apply prefix_app_r. reflexivity.
Qed.

(** X13. With [retry_attempts] at zero or below, or a negative batch
    size, the loops of [execute_batch_insert] make no attempt: the call
    still reports success and counts every valid record as inserted,
    while the store has committed nothing. *)
Theorem insert_without_attempts (m : QuestDBManager) (db : Store) (table : string)
    (data : list (gmap string value)) (batch_size : Z) (s : TableSchema) :
  get_schema (schema_manager m) table = Some s ->
  connect db = None -> batch_size <> 0%Z -> valid_records s data <> [] ->
  (retry_attempts (config m) <= 0)%Z \/ (batch_size < 0)%Z ->
  success (execute_batch_insert m db table data batch_size).2 = true /\
  records_inserted (execute_batch_insert m db table data batch_size).2
    = length (valid_records s data) /\
  (execute_batch_insert m db table data batch_size).1.2 = [].
Proof.
  intros Hs Hc Hb Hv Hno.
  destruct (execute_batch_insert_cases m db table data batch_size s Hs)
    as (_ & Hn & _ & Hnone & Hok).
  assert (Hsucc : success (execute_batch_insert m db table data batch_size).2 = true).
  { apply Hok; try assumption. intros H. apply fmap_nil_inv in H. contradiction. }
  split; [exact Hsucc|]. split; [|apply Hnone; exact Hno].
  rewrite (Hn Hsucc). apply length_fmap.
Qed.

End WithBuiltins.

Lemma success_commits_all_rows_witness :
  concat (@execute_batch_insert Samples.sample_builtins quotes_manager good_store
            "quotes" [Samples.quote_ok; Samples.quote_bad; Samples.quote_ok] 1).1.2
    = record_to_values Samples.quotes
        <$> @valid_records Samples.sample_builtins Samples.quotes
              [Samples.quote_ok; Samples.quote_bad; Samples.quote_ok] /\
  records_inserted (@execute_batch_insert Samples.sample_builtins quotes_manager
                      good_store "quotes"
                      [Samples.quote_ok; Samples.quote_bad; Samples.quote_ok] 1).2
    = length (concat (@execute_batch_insert Samples.sample_builtins quotes_manager
                        good_store "quotes"
                        [Samples.quote_ok; Samples.quote_bad; Samples.quote_ok] 1).1.2) /\
  Forall (fun chunk => length chunk <= Z.to_nat 1)
         (@execute_batch_insert Samples.sample_builtins quotes_manager good_store
            "quotes" [Samples.quote_ok; Samples.quote_bad; Samples.quote_ok] 1).1.2.
Proof.
  apply (@success_commits_all_rows Samples.sample_builtins quotes_manager good_store
           "quotes" [Samples.quote_ok; Samples.quote_bad; Samples.quote_ok] 1
           Samples.quotes); vm_compute; reflexivity.
Defined.

(** Two valid records in chunks of one, on a store that refuses the
    second chunk: the call fails, and the first row stays committed. *)
Lemma committed_rows_prefix_witness :
  concat (@execute_batch_insert Samples.sample_builtins quotes_manager
            second_chunk_fails "quotes" [Samples.quote_ok; Samples.quote_ok] 1).1.2
    `prefix_of` (record_to_values Samples.quotes
                   <$> @valid_records Samples.sample_builtins Samples.quotes
                         [Samples.quote_ok; Samples.quote_ok]) /\
  success (@execute_batch_insert Samples.sample_builtins quotes_manager
             second_chunk_fails "quotes" [Samples.quote_ok; Samples.quote_ok] 1).2 = false /\
  length (concat (@execute_batch_insert Samples.sample_builtins quotes_manager
                    second_chunk_fails "quotes"
                    [Samples.quote_ok; Samples.quote_ok] 1).1.2) = 1.
Proof.
  split; [|split; vm_compute; reflexivity].
  apply (@committed_rows_prefix Samples.sample_builtins quotes_manager second_chunk_fails
           "quotes" [Samples.quote_ok; Samples.quote_ok] 1 Samples.quotes).
  vm_compute. reflexivity.
Defined.

Lemma insert_without_attempts_witness :
  success (@execute_batch_insert Samples.sample_builtins no_retry_manager good_store
             "quotes" [Samples.quote_ok] 1000).2 = true /\
  records_inserted (@execute_batch_insert Samples.sample_builtins no_retry_manager
                      good_store "quotes" [Samples.quote_ok] 1000).2
    = length (@valid_records Samples.sample_builtins Samples.quotes [Samples.quote_ok]) /\
  (@execute_batch_insert Samples.sample_builtins no_retry_manager good_store
     "quotes" [Samples.quote_ok] 1000).1.2 = [].
Proof.
  apply (@insert_without_attempts Samples.sample_builtins no_retry_manager good_store
           "quotes" [Samples.quote_ok] 1000 Samples.quotes).
  - vm_compute. reflexivity.
  - reflexivity.
  - discriminate.
  - vm_compute. discriminate.
  - left. vm_compute. discriminate.
Defined.

(** *** Queries *)

(** X14. [execute_query] with a positive [retry_attempts] always returns
    a result and counts the query once: [total_queries] grows by one and
    so does exactly one of [successful_queries] and [failed_queries].  It
    succeeds exactly when the connection is obtained and one of the first
    [retry_attempts] attempts goes through, the earlier ones having been
    rolled back; a failure carries the error message, which is also stored
    in [last_error].  With [retry_attempts] at zero or below and a
    connection, the loop body never runs: the function returns [None] and
    counts nothing. *)
Theorem execute_query_counts (m : QuestDBManager) (db : Store) :
  ((0 < retry_attempts (config m))%Z ->
   exists r, (execute_query m db).2 = Some r /\
     total_queries (metrics (execute_query m db).1) = S (total_queries (metrics m)) /\
     (qr_success r = true <->
        connect db = None /\
        exists k, (Z.of_nat k < retry_attempts (config m))%Z /\ first_success db 0 k) /\
     (qr_success r = true ->
        successful_queries (metrics (execute_query m db).1)
          = S (successful_queries (metrics m)) /\
        failed_queries (metrics (execute_query m db).1) = failed_queries (metrics m) /\
        last_error (metrics (execute_query m db).1) = last_error (metrics m)) /\
     (qr_success r = false ->
        failed_queries (metrics (execute_query m db).1) = S (failed_queries (metrics m)) /\
        successful_queries (metrics (execute_query m db).1)
          = successful_queries (metrics m) /\
        is_Some (qr_error r) /\
        last_error (metrics (execute_query m db).1) = qr_error r)) /\
  ((retry_attempts (config m) <= 0)%Z -> connect db = None ->
   execute_query m db = (m, None)).
Proof.
  unfold execute_query. split.
  - intros Hr.
    destruct (attempts_from db (retry_attempts (config m)) 0
                (Z.to_nat (retry_attempts (config m))) 0) as [Hiff Hne]; [lia | lia |].
    assert (Hfirst :
      attempts db (retry_attempts (config m)) 0 0 (Z.to_nat (retry_attempts (config m)))
        = (true, None) <->
      exists k, (Z.of_nat k < retry_attempts (config m))%Z /\ first_success db 0 k).
    { rewrite Hiff. unfold first_success. split.
      - intros (k & Hk & Hins & Hb). exists k. split; [lia|]. split; [exact Hins|].
        intros j Hj. apply Hb. lia.
      - intros (k & Hk & Hins & Hb). exists k. split; [lia|]. split; [exact Hins|].
        intros j Hj. apply Hb. lia. }
    clear Hiff.
    destruct (connect db) as [msg|] eqn:Ec.
    { eexists. split; [reflexivity|]. cbn. split; [reflexivity|].
      split; [split; [discriminate | intros [? _]; discriminate]|].
      split; [discriminate|]. intros _. repeat split. eauto. }
    destruct (attempts db _ 0 0 _) as [done [msg|]] eqn:Ea.
    + assert (Hno : ~ exists k, (Z.of_nat k < retry_attempts (config m))%Z /\
                                  first_success db 0 k).
      { intros H. apply Hfirst in H. discriminate. }
      destruct done; (eexists; split; [reflexivity|]; cbn; split; [reflexivity|];
        split; [split; [discriminate | intros [_ H]; contradiction]|];
        split; [discriminate|]; intros _; repeat split; eauto).
    + destruct done.
      * eexists. split; [reflexivity|]. cbn. split; [reflexivity|].
        split; [split; [intros _; split; [reflexivity | apply Hfirst; reflexivity]
                       | reflexivity]|].
        split; [intros _; repeat split | discriminate].
      * destruct Hne as [msg Hmsg]; discriminate.
  - intros Hr Hc. rewrite Hc. replace (Z.to_nat (retry_attempts (config m))) with 0 by lia.
    reflexivity.
Qed.

End ClientOpsFacts.

(** ** More properties of registry.py *)

Module RegistryOpsFacts.
Import Registry RegistryOps RegistryFacts.

Ltac reg_simpl :=
  cbn [feeds feed_categories feed_priorities startup_order shutdown_order
       registry_metrics health_check_interval heartbeat_timeout
       _update_registry_metrics _update_startup_order with_priorities with_feeds
       with_categories category priority fst snd].

(** *** Registration *)

Lemma register_feed_feeds (inst : FeedInstance) (now : Z) (r : FeedRegistry) :
  feeds (register_feed inst now r).1 = <[feed_name inst := fresh_info inst now]> (feeds r).
Proof.
  unfold register_feed, fresh_info. cbn [feeds with_feeds with_categories feed_priorities].
  destruct (feed_priorities r !! or_default (inst_priority inst) "medium"); reflexivity.
Qed.

Lemma elem_of_startup_order (r : FeedRegistry) (fname p : string) :
  p ∈ priority_classes -> fname ∈ class_list r p ->
  fname ∈ startup_order (_update_startup_order r).
Proof.
  intros Hp Hin. rewrite startup_order_by_class. unfold priority_classes in Hp.
  rewrite !elem_of_app.
  repeat (apply elem_of_cons in Hp as [->|Hp]; [tauto|]). inversion Hp.
Qed.

(** X15. [register_feed] with a priority that is one of the four classes
    returns [True] and records the feed afresh (status REGISTERED, score
    100, no runs and no failures, also when the name was registered
    before, whatever state that feed was in): the feed is in its priority
    class and its category, it is in the startup order, the shutdown order
    is the startup order reversed, the feed count is up to date, and no
    other feed is touched. *)
Theorem register_feed_registers (inst : FeedInstance) (now : Z) (r : FeedRegistry)
    (l : list string) :
  or_default (inst_priority inst) "medium" ∈ priority_classes ->
  feed_priorities r !! or_default (inst_priority inst) "medium" = Some l ->
  (register_feed inst now r).2 = true /\
  get_feed_info (register_feed inst now r).1 (feed_name inst)
    = Some (fresh_info inst now) /\
  (forall other, other <> feed_name inst ->
     get_feed_info (register_feed inst now r).1 other = get_feed_info r other) /\
  fresh_info inst now ∈ get_feeds_by_priority (register_feed inst now r).1
                          (or_default (inst_priority inst) "medium") /\
  fresh_info inst now ∈ get_feeds_by_category (register_feed inst now r).1
                          (feed_category inst) /\
  feed_name inst ∈ startup_order (register_feed inst now r).1 /\
  shutdown_order (register_feed inst now r).1
    = reverse (startup_order (register_feed inst now r).1) /\
  total_feeds (registry_metrics (register_feed inst now r).1)
    = size (feeds (register_feed inst now r).1).
Proof.
  intros Hp Hl.
  pose proof (register_feed_feeds inst now r) as Hfeeds.
  assert (Hin : forall (l0 : list string) x,
            x ∈ (if bool_decide (x ∈ l0) then l0 else l0 ++ [x])).
  { intros l0 x. case_bool_decide; [assumption|]. apply elem_of_app. right.
    apply list_elem_of_here. }
  assert (Hinfo : forall names, feed_name inst ∈ names ->
            fresh_info inst now ∈ infos (register_feed inst now r).1 names).
  { intros names Hn. unfold infos. apply list_elem_of_omap.
    exists (feed_name inst). split; [exact Hn|]. rewrite Hfeeds. apply lookup_insert_eq. }
  unfold get_feed_info, get_feeds_by_priority, get_feeds_by_category.
  rewrite Hfeeds.
  split; [unfold register_feed; cbn [feed_priorities with_feeds with_categories];
          rewrite Hl; reflexivity|].
  split; [apply lookup_insert_eq|].
  split; [intros other Ho; apply lookup_insert_ne; congruence|].
  revert Hinfo. unfold register_feed.
  cbn [feed_priorities with_feeds with_categories feed_categories feeds]. rewrite Hl.
  cbn [fst]. intros Hinfo.
  split; [|split; [|split; [|split]]].
  - apply Hinfo. cbn. rewrite lookup_insert_eq. cbn. apply Hin.
  - apply Hinfo. cbn. rewrite lookup_insert_eq. cbn. apply Hin.
  - cbn [_update_registry_metrics startup_order].
    change (concat (class_list ?r0 <$> priority_classes))
      with (startup_order (_update_startup_order r0)).
    eapply elem_of_startup_order; [exact Hp|].
    unfold class_list. cbn. rewrite lookup_insert_eq. cbn. apply Hin.
  - reflexivity.
  - reflexivity.
Qed.

Lemma register_feed_registers_witness :
  (register_feed (instance "A" "critical") 5 (new_registry 60 300 0)).2 = true /\
  get_feed_info (register_feed (instance "A" "critical") 5 (new_registry 60 300 0)).1 "A"
    = Some (fresh_info (instance "A" "critical") 5) /\
  "A" ∈ startup_order (register_feed (instance "A" "critical") 5 (new_registry 60 300 0)).1.
Proof.
  destruct (register_feed_registers (instance "A" "critical") 5 (new_registry 60 300 0) [])
    as (H1 & H2 & _ & _ & _ & H3 & _).
  - apply (bool_decide_unpack _). vm_compute. exact I.
  - vm_compute. reflexivity.
  - repeat split; assumption.
Defined.

Lemma start_each_never_calls (fname : string) (names : list string) :
  fname ∉ names ->
  forall i answers clock r results calls,
    CallStart fname ∉ calls ->
    CallStart fname ∉ (start_each names i answers clock r results calls).2.
Proof.
  intros Hn i answers clock r results calls Hc.
  destruct (start_each_calls names i answers clock r results calls) as (started & Hsub & ->).
  rewrite elem_of_app. intros [H|H]; [contradiction|].
  apply list_elem_of_fmap in H as (n & [= <-] & Hin).
  apply Hn. eapply elem_of_sublist; eassumption.
Qed.

(** X16. [register_feed] with a priority that is none of the four classes
    returns [False], but only after it has recorded the feed: the feed is
    then found by [get_feed_info] and listed in its category, while the
    priority classes, the startup order and the registry metrics are left
    as they were, so that [start_all_feeds] never starts it. *)
Theorem register_feed_unknown_priority (inst : FeedInstance) (now : Z) (r : FeedRegistry) :
  feed_priorities r !! or_default (inst_priority inst) "medium" = None ->
  (register_feed inst now r).2 = false /\
  get_feed_info (register_feed inst now r).1 (feed_name inst)
    = Some (fresh_info inst now) /\
  fresh_info inst now ∈ get_feeds_by_category (register_feed inst now r).1
                          (feed_category inst) /\
  feed_priorities (register_feed inst now r).1 = feed_priorities r /\
  startup_order (register_feed inst now r).1 = startup_order r /\
  registry_metrics (register_feed inst now r).1 = registry_metrics r /\
  (feed_name inst ∉ startup_order r ->
   forall answers clock,
     CallStart (feed_name inst)
       ∉ (start_all_feeds answers clock (register_feed inst now r).1).2).
Proof.
  intros Hp.
  pose proof (register_feed_feeds inst now r) as Hfeeds.
  unfold get_feed_info, get_feeds_by_category, infos. rewrite Hfeeds.
  unfold register_feed. cbn [feed_priorities with_feeds with_categories]. rewrite Hp.
  cbn [fst snd feed_categories feed_priorities startup_order registry_metrics
       with_feeds with_categories feeds].
  split; [reflexivity|]. split; [apply lookup_insert_eq|].
  split; [|split; [reflexivity|split; [reflexivity|split; [reflexivity|]]]].
  - apply list_elem_of_omap. exists (feed_name inst).
    split; [|apply lookup_insert_eq].
    rewrite lookup_insert_eq. cbn. case_bool_decide; [assumption|].
    apply elem_of_app. right. apply list_elem_of_here.
  - intros Hn answers clock. unfold start_all_feeds.
    apply start_each_never_calls; [exact Hn | apply not_elem_of_nil].
Qed.

Lemma register_feed_unknown_priority_witness :
  (register_feed (instance "A" "urgent") 5 (new_registry 60 300 0)).2 = false /\
  get_feed_info (register_feed (instance "A" "urgent") 5 (new_registry 60 300 0)).1 "A"
    = Some (fresh_info (instance "A" "urgent") 5) /\
  startup_order (register_feed (instance "A" "urgent") 5 (new_registry 60 300 0)).1 = [] /\
  total_feeds (registry_metrics
                 (register_feed (instance "A" "urgent") 5 (new_registry 60 300 0)).1) = 0.
Proof.
  destruct (register_feed_unknown_priority (instance "A" "urgent") 5 (new_registry 60 300 0))
    as (H1 & H2 & _ & _ & H3 & H4 & _).
  - vm_compute. reflexivity.
  - split; [exact H1|]. split; [exact H2|]. split; [exact H3|].
    rewrite H4. reflexivity.
Defined.

(** *** Registering and unregistering *)

Lemma remove_first_app (x : string) (l : list string) :
  x ∉ l -> remove_first x (l ++ [x]) = l.
Proof.
  induction l as [|y l IH]; intros Hx; cbn [remove_first app].
  - rewrite String.eqb_refl. reflexivity.
  - destruct (String.eqb x y) eqn:E.
    + apply String.eqb_eq in E. subst y. exfalso. apply Hx, list_elem_of_here.
    + rewrite IH; [reflexivity|]. intros H. apply Hx. apply list_elem_of_further, H.
Qed.

(** X17. Registering a new feed and unregistering it again gives the
    registry back: the feeds and the priority classes are as before, the
    startup and shutdown orders are those the classes give, and every
    category has the members it had (a category that did not exist is left
    behind empty). *)
Theorem unregister_after_register (inst : FeedInstance) (t1 t2 : Z) (r : FeedRegistry)
    (l : list string) :
  feeds r !! feed_name inst = None ->
  feed_priorities r !! or_default (inst_priority inst) "medium" = Some l ->
  feed_name inst ∉ l ->
  feed_name inst ∉ default [] (feed_categories r !! feed_category inst) ->
  let out := unregister_feed (feed_name inst) t2 (register_feed inst t1 r).1 in
  out.2 = true /\
  feeds out.1 = feeds r /\
  feed_priorities out.1 = feed_priorities r /\
  startup_order out.1 = startup_order (_update_startup_order r) /\
  shutdown_order out.1 = shutdown_order (_update_startup_order r) /\
  (forall c, default [] (feed_categories out.1 !! c) = default [] (feed_categories r !! c)).
Proof.
  intros Hnew Hl Hnl Hnc out. subst out.
  unfold register_feed. reg_simpl.
  rewrite Hl. rewrite !bool_decide_eq_false_2 by assumption.
  unfold unregister_feed.
  repeat (reg_simpl; rewrite ?lookup_insert_eq).
  rewrite !remove_first_app by assumption.
  rewrite !insert_insert_eq.
  rewrite (insert_id (feed_priorities r) _ l Hl).
  split; [reflexivity|].
  split; [apply delete_insert_id; exact Hnew|].
  split; [reflexivity|].
  split; [reflexivity|].
  split; [reflexivity|].
  intros c. destruct (decide (c = feed_category inst)) as [->|Hc].
  - rewrite lookup_insert_eq. reflexivity.
  - rewrite lookup_insert_ne by congruence. reflexivity.
Qed.

Lemma unregister_after_register_witness :
  let out := unregister_feed "D" 9 (register_feed (instance "D" "high") 8 registry_ABC).1 in
  out.2 = true /\
  feeds out.1 = feeds registry_ABC /\
  feed_priorities out.1 = feed_priorities registry_ABC /\
  startup_order out.1 = startup_order (_update_startup_order registry_ABC).
Proof.
  destruct (unregister_after_register (instance "D" "high") 8 9 registry_ABC [])
    as (H1 & H2 & H3 & H4 & _).
  - vm_compute. reflexivity.
  - vm_compute. reflexivity.
  - apply not_elem_of_nil.
  - apply (bool_decide_unpack _). vm_compute. exact I.
  - repeat split; assumption.
Defined.

(** *** Starting and stopping *)

Lemma feeds_update_feed (fname : string) (g : FeedInfo -> FeedInfo) (r : FeedRegistry) :
  feeds (update_feed fname g r) = alter g fname (feeds r).
Proof. reflexivity. Qed.

Lemma start_feed_outcome (fname : string) (answer : Completion unit) (now : Z)
    (r : FeedRegistry) :
  (forall e, answer = Raises e -> is_Exception e = true) ->
  exists r' cs b,
    start_feed fname answer now r = (r', cs, Returns b) /\
    (forall other, other <> fname -> feeds r' !! other = feeds r !! other) /\
    reported r' fname b /\
    dom (feeds r') = dom (feeds r) /\ startup_order r' = startup_order r.
Proof.
  intros Hex. unfold start_feed, start_feed_try.
  destruct (feeds r !! fname) as [info|] eqn:Hf.
  2:{ exists r, [], false. repeat split; try reflexivity. left. exact Hf. }
  case_bool_decide as Hrun.
  { exists r, [], true. repeat split; try reflexivity. cbn. rewrite Hf. cbn. congruence. }
  destruct answer as [[]|e].
  - eexists _, _, true. split; [reflexivity|].
    rewrite !feeds_update_feed. split; [|split; [|split]].
    + intros other Ho. rewrite !lookup_alter_ne by congruence. reflexivity.
    + cbn. rewrite !lookup_alter_eq, Hf. reflexivity.
    + rewrite !dom_alter_L. reflexivity.
    + reflexivity.
  - rewrite (Hex e eq_refl).
    rewrite bool_decide_eq_true_2
      by (rewrite feeds_update_feed, lookup_alter_eq, Hf; eauto).
    eexists _, _, false. split; [reflexivity|].
    rewrite !feeds_update_feed. split; [|split; [|split]].
    + intros other Ho. rewrite !lookup_alter_ne by congruence. reflexivity.
    + cbn. right. rewrite !lookup_alter_eq, Hf. reflexivity.
    + rewrite !dom_alter_L. reflexivity.
    + reflexivity.
Qed.

Lemma start_each_results (names : list string) :
  forall i answers clock r results calls,
    only_exceptions answers ->
    (forall fname b, results !! fname = Some b -> reported r fname b) ->
    exists r' results' calls',
      start_each names i answers clock r results calls = (r', Returns results', calls') /\
      dom results' = list_to_set names ∪ dom results /\
      (forall fname b, results' !! fname = Some b -> reported r' fname b) /\
      dom (feeds r') = dom (feeds r) /\ startup_order r' = startup_order r.
Proof.
  induction names as [|fname names IH]; intros i answers clock r results calls Hex Hinv.
  - exists r, results, calls. cbn [start_each]. repeat split; try assumption.
    set_solver.
  - cbn [start_each].
    destruct (start_feed_outcome fname (answers i) (clock i) r (Hex i))
      as (r1 & cs & b & -> & Hother & Hrep & Hdom & Hord).
    destruct (IH (S i) answers clock r1 (<[fname := b]> results) (calls ++ cs) Hex)
      as (r' & results' & calls' & -> & Hd & Hinv' & Hdom' & Hord').
    { intros k b' Hk. destruct (decide (k = fname)) as [->|Hne].
      - rewrite lookup_insert_eq in Hk. injection Hk as <-. exact Hrep.
      - rewrite lookup_insert_ne in Hk by congruence.
        specialize (Hinv k b' Hk). unfold reported in *.
        rewrite (Hother k Hne). exact Hinv. }
    exists r', results', calls'. split; [reflexivity|].
    split; [rewrite Hd, dom_insert_L; set_solver|].
    split; [exact Hinv'|]. split; congruence.
Qed.

(** X18. [start_all_feeds], when the instances return or raise
    [Exception]s: it returns a result for exactly the feeds of the startup
    order; a feed reported [True] is RUNNING when the call ends, a feed
    reported [False] is in status ERROR (or is not registered); the set of
    registered feeds and the startup order are unchanged. *)
Theorem start_all_feeds_results (answers : nat -> Completion unit) (clock : nat -> Z)
    (r : FeedRegistry) :
  only_exceptions answers ->
  exists results,
    (start_all_feeds answers clock r).1.2 = Returns results /\
    dom results = list_to_set (startup_order r) /\
    (forall fname b, results !! fname = Some b ->
       reported (start_all_feeds answers clock r).1.1 fname b) /\
    dom (feeds (start_all_feeds answers clock r).1.1) = dom (feeds r) /\
    startup_order (start_all_feeds answers clock r).1.1 = startup_order r.
Proof.
  intros Hex. unfold start_all_feeds.
  destruct (start_each_results (startup_order r) 0 answers clock r ∅ [] Hex)
    as (r' & results' & calls' & -> & Hd & Hinv & Hdom & Hord).
  { intros fname b H. rewrite lookup_empty in H. discriminate. }
  exists results'. cbn [fst snd]. split; [reflexivity|].
  split; [rewrite Hd, dom_empty_L; set_solver|].
  repeat split; assumption.
Qed.

Lemma start_all_feeds_results_witness :
  exists results,
    (start_all_feeds (fun i => if (i =? 1)%nat then Raises boom else Returns tt)
       (fun _ => 0%Z) registry_ABC).1.2 = Returns results /\
    results = <["A" := true]> (<["C" := false]> (<["B" := true]> ∅)) /\
    (forall fname b, results !! fname = Some b ->
       reported (start_all_feeds (fun i => if (i =? 1)%nat then Raises boom else Returns tt)
                   (fun _ => 0%Z) registry_ABC).1.1 fname b).
Proof.
  destruct (start_all_feeds_results
              (fun i => if (i =? 1)%nat then Raises boom else Returns tt)
              (fun _ => 0%Z) registry_ABC) as (results & H1 & _ & H3 & _).
  - intros i e. destruct (i =? 1)%nat; [intros [= <-]; reflexivity | discriminate].
  - exists results. split; [exact H1|]. split; [|exact H3].
    vm_compute in H1. injection H1 as <-. vm_compute. reflexivity.
Defined.

(** X19. [restart_feed] on a registered feed that is not stopped and
    whose instance has a [stop] method.  If [stop()] raises an
    [Exception], the restart returns [False] with the feed in status
    ERROR and [start_standalone()] is never called.  If [stop()] returns,
    the instance is started again: the restart returns [True] with the
    feed RUNNING and its start time set when the start returns, and
    [False] with the feed in status ERROR when the start raises an
    [Exception]. *)
Theorem restart_feed_outcomes (r : FeedRegistry) (fname : string) (info : FeedInfo)
    (started : Completion unit) (now : Z) (e : PyException) :
  feeds r !! fname = Some info -> status info <> STOPPED ->
  has_stop (feed_instance info) = true -> is_Exception e = true ->
  (exists r' info',
     restart_feed fname (Raises e) started now r = (r', [CallStop fname], Returns false) /\
     feeds r' !! fname = Some info' /\ status info' = ERROR /\
     last_error info' = Some (exn_str e)) /\
  (exists r' info',
     restart_feed fname (Returns tt) (Returns tt) now r
       = (r', [CallStop fname; CallStart fname], Returns true) /\
     feeds r' !! fname = Some info' /\ status info' = RUNNING /\
     start_time info' = Some now /\ error_count info' = error_count info) /\
  (exists r' info',
     restart_feed fname (Returns tt) (Raises e) now r
       = (r', [CallStop fname; CallStart fname], Returns false) /\
     feeds r' !! fname = Some info' /\ status info' = ERROR /\
     last_error info' = Some (exn_str e) /\ error_count info' = S (error_count info)).
Proof.
  intros Hf Hst Hstop He.
  unfold restart_feed, stop_feed, stop_feed_try. rewrite Hf.
  rewrite bool_decide_eq_false_2 by exact Hst. rewrite Hstop.
  split; [|split].
  - rewrite He.
    rewrite bool_decide_eq_true_2
      by (rewrite feeds_update_feed, lookup_alter_eq, Hf; eauto).
    cbn [negb]. eexists _, _. split; [reflexivity|].
    rewrite !feeds_update_feed, !lookup_alter_eq, Hf. cbn. repeat split.
  - cbn [negb]. unfold start_feed, start_feed_try.
    rewrite !feeds_update_feed, !lookup_alter_eq, Hf. cbn [fmap option_fmap option_map].
    rewrite bool_decide_eq_false_2 by (cbn; discriminate).
    eexists _, _. split; [reflexivity|].
    rewrite !feeds_update_feed, !lookup_alter_eq, Hf. cbn. repeat split.
  - cbn [negb]. unfold start_feed, start_feed_try.
    rewrite !feeds_update_feed, !lookup_alter_eq, Hf. cbn [fmap option_fmap option_map].
    rewrite bool_decide_eq_false_2 by (cbn; discriminate).
    rewrite He.
    rewrite bool_decide_eq_true_2
      by (rewrite !feeds_update_feed, !lookup_alter_eq, Hf; eauto).
    eexists _, _. split; [reflexivity|].
    rewrite !feeds_update_feed, !lookup_alter_eq, Hf. cbn. repeat split.
Qed.

Lemma restart_feed_outcomes_witness :
  (exists r' info',
     restart_feed "A" (Raises boom) (Returns tt) 7 A_running
       = (r', [CallStop "A"], Returns false) /\
     feeds r' !! "A" = Some info' /\ status info' = ERROR) /\
  (exists r' info',
     restart_feed "A" (Returns tt) (Returns tt) 7 A_running
       = (r', [CallStop "A"; CallStart "A"], Returns true) /\
     feeds r' !! "A" = Some info' /\ status info' = RUNNING /\
     start_time info' = Some 7%Z).
Proof.
  destruct (feeds A_running !! "A") as [info|] eqn:Hinfo; [|vm_compute in Hinfo; discriminate].
  destruct (restart_feed_outcomes A_running "A" info (Returns tt) 7 boom Hinfo)
    as ((r1 & i1 & H1 & H2 & H3 & _) & (r2 & i2 & G1 & G2 & G3 & G4 & _) & _).
  - vm_compute in Hinfo. injection Hinfo as <-. discriminate.
  - vm_compute in Hinfo. injection Hinfo as <-. reflexivity.
  - reflexivity.
  - split; [exists r1, i1 | exists r2, i2]; repeat split; assumption.
Defined.

(** *** Invariants *)


Lemma update_feed_sound (fname : string) (g : FeedInfo -> FeedInfo) (r : FeedRegistry) :
  (forall f, feed_sound fname f -> feed_sound fname (g f)) ->
  feeds_sound r -> feeds_sound (update_feed fname g r).
Proof.
  intros Hg Hr k f. rewrite feeds_update_feed.
  destruct (decide (k = fname)) as [->|Hne].
  - rewrite lookup_alter_eq. destruct (feeds r !! fname) as [f0|] eqn:E; [|discriminate].
    intros [= <-]. apply Hg, Hr, E.
  - rewrite lookup_alter_ne by congruence. apply Hr.
Qed.

Lemma update_registry_metrics_sound (now : Z) (r : FeedRegistry) :
  feeds_sound r -> feeds_sound (_update_registry_metrics now r).
Proof. intros Hr k f. exact (Hr k f). Qed.

Ltac sound_step :=
  first [ apply update_registry_metrics_sound
        | apply update_feed_sound;
          [ let f := fresh "f" in
            intros f (? & ? & ? & ?);
            repeat split;
            cbn [name successful_runs total_runs health_score set_status
                 set_last_heartbeat set_start_time set_error set_metrics set_runs];
            try assumption; try lia | ] ].



Lemma register_feed_sound (inst : FeedInstance) (now : Z) (r : FeedRegistry) :
  feeds_sound r -> feeds_sound (register_feed inst now r).1.
Proof.
  intros Hr k f. rewrite register_feed_feeds.
  destruct (decide (k = feed_name inst)) as [->|Hne].
  - rewrite lookup_insert_eq. intros [= <-]. repeat split; cbn; try lia; discriminate.
  - rewrite lookup_insert_ne by congruence. apply Hr.
Qed.

Lemma record_feed_error_sound (fname error : string) (now : Z) (r : FeedRegistry) :
  feeds_sound r -> feeds_sound (record_feed_error fname error now r).
Proof.
  intros Hr. unfold record_feed_error.
  destruct (feeds r !! fname); [|exact Hr].
  apply update_feed_sound.
  { intros f1 (? & ? & ? & ?).
    destruct (5 <=? consecutive_failures f1)%nat; [repeat split; assumption|].
    destruct (3 <=? consecutive_failures f1)%nat; repeat split; assumption. }
  repeat sound_step. exact Hr.
Qed.

Lemma new_registry_sound (interval timeout now : Z) :
  feeds_sound (new_registry interval timeout now).
Proof. intros k f Hk. cbn in Hk. rewrite lookup_empty in Hk. discriminate. Qed.

Lemma registry_ABC_sound : feeds_sound registry_ABC.
Proof.
  unfold registry_ABC. cbv zeta.
  repeat apply register_feed_sound. apply new_registry_sound.
Qed.



(** *** The registry metrics *)

Lemma count_statuses (l : list FeedInfo) :
  length (filter (fun f => status f = RUNNING) l)
  + length (filter (fun f => status f = HEALTHY) l)
  + length (filter (fun f => status f = DEGRADED) l)
  + length (filter (fun f => status f = UNHEALTHY) l)
  + length (filter (fun f => status f = ERROR) l) <= length l.
Proof.
  induction l as [|f l IH]; [reflexivity|].
  rewrite !filter_cons.
  repeat case_decide; cbn [length]; try lia; congruence.
Qed.

Lemma inject_Z_succ (n : nat) :
  (inject_Z (Z.of_nat (S n)) == inject_Z (Z.of_nat n) + 1)%Q.
Proof. rewrite Nat2Z.inj_succ. unfold Z.succ. rewrite inject_Z_plus. reflexivity. Qed.

Lemma sum_bounds (l : list Q) :
  Forall (fun x => 0 <= x <= 100)%Q l ->
  (0 <= foldr Qplus 0 l <= 100 * inject_Z (Z.of_nat (length l)))%Q.
Proof.
  induction 1 as [|x l [Hlo Hhi] _ [IHlo IHhi]]; cbn [foldr length].
  - split; [apply Qle_refl | discriminate].
  - rewrite inject_Z_succ. split; lra.
Qed.

(** X21. The registry metrics, computed over sound feeds: the average
    health score lies between 0 and 100, the feed count is the number of
    registered feeds, and the five status counts (running, healthy,
    degraded, unhealthy, error) never add up to more than the feed
    count. *)
Theorem registry_metrics_sound (now : Z) (r : FeedRegistry) :
  feeds_sound r ->
  (0 <= avg_health_score (registry_metrics (_update_registry_metrics now r)) <= 100)%Q /\
  total_feeds (registry_metrics (_update_registry_metrics now r)) = size (feeds r) /\
  running_feeds (registry_metrics (_update_registry_metrics now r))
  + healthy_feeds (registry_metrics (_update_registry_metrics now r))
  + degraded_feeds (registry_metrics (_update_registry_metrics now r))
  + unhealthy_feeds (registry_metrics (_update_registry_metrics now r))
  + error_feeds (registry_metrics (_update_registry_metrics now r))
    <= total_feeds (registry_metrics (_update_registry_metrics now r)).
Proof.
  intros Hr. cbn [_update_registry_metrics registry_metrics avg_health_score total_feeds
                  running_feeds healthy_feeds degraded_feeds unhealthy_feeds error_feeds].
  split; [|split; [reflexivity|]].
  - destruct (0 <? size (feeds r))%nat eqn:En; [|split; discriminate].
    apply Nat.ltb_lt in En.
    assert (Hall : Forall (fun x => 0 <= x <= 100)%Q
                     (health_score ∘ snd <$> map_to_list (feeds r))).
    { apply Forall_fmap, Forall_forall. intros [k f] Hin.
      apply elem_of_map_to_list in Hin. destruct (Hr k f Hin) as (_ & _ & Hs). exact Hs. }
    apply sum_bounds in Hall. rewrite length_fmap, length_map_to_list in Hall.
    destruct Hall as [Hlo Hhi].
    assert (Hn : (0 < inject_Z (Z.of_nat (size (feeds r))))%Q).
    { change 0%Q with (inject_Z 0). rewrite <- Zlt_Qlt. lia. }
    split.
    + apply Qle_shift_div_l; [exact Hn|]. lra.
    + apply Qle_shift_div_r; [exact Hn|]. lra.
  - unfold count_status. rewrite <- length_map_to_list.
    rewrite <- (length_fmap snd (map_to_list (feeds r))). apply count_statuses.
Qed.

Lemma registry_metrics_sound_witness :
  (0 <= avg_health_score (registry_metrics (_update_registry_metrics 9 A_degraded))
     <= 100)%Q /\
  total_feeds (registry_metrics (_update_registry_metrics 9 A_degraded)) = 3 /\
  degraded_feeds (registry_metrics (_update_registry_metrics 9 A_degraded)) = 1.
Proof.
  destruct (registry_metrics_sound 9 A_degraded) as (H1 & H2 & _).
  - unfold A_degraded. repeat apply record_feed_error_sound. apply registry_ABC_sound.
  - split; [exact H1|]. split; vm_compute; reflexivity.
Defined.

(** *** Heartbeats and errors *)

Lemma check_heartbeat_marked (t t' : Z) (f : FeedInfo) :
  (last_heartbeat f <? t)%Z = true -> status f ∈ [RUNNING; HEALTHY] ->
  check_heartbeat t' (check_heartbeat t f) = check_heartbeat t f.
Proof.
  intros Hlate Hst. unfold check_heartbeat at 2 3. rewrite Hlate.
  rewrite bool_decide_eq_true_2 by exact Hst.
  unfold check_heartbeat. cbn [last_heartbeat status set_runs set_status].
  destruct (last_heartbeat f <? t')%Z; [|reflexivity].
  rewrite bool_decide_eq_false_2; [reflexivity|].
  rewrite !elem_of_cons, elem_of_nil. intros [|[|[]]]; discriminate.
Qed.

Lemma check_heartbeat_idemp (t : Z) (f : FeedInfo) :
  check_heartbeat t (check_heartbeat t f) = check_heartbeat t f.
Proof.
  destruct (last_heartbeat f <? t)%Z eqn:Hlate.
  - destruct (decide (status f ∈ [RUNNING; HEALTHY])) as [Hst|Hst].
    + apply check_heartbeat_marked; assumption.
    + unfold check_heartbeat. rewrite Hlate, bool_decide_eq_false_2 by exact Hst.
      rewrite Hlate, bool_decide_eq_false_2 by exact Hst. reflexivity.
  - unfold check_heartbeat. rewrite Hlate, Hlate. reflexivity.
Qed.

(** X22. A heartbeat timeout is counted once.  Running the health check
    again at the same time changes no feed; and a feed that a check has
    marked UNHEALTHY (it was RUNNING or HEALTHY with a stale heartbeat) is
    left alone by every later check, whenever it runs: its consecutive
    failures do not grow while it stays silent. *)
Theorem heartbeat_timeout_counted_once (r : FeedRegistry) (now : Z) :
  feeds (_perform_health_checks now (_perform_health_checks now r))
    = feeds (_perform_health_checks now r) /\
  (forall fname info now',
     feeds r !! fname = Some info ->
     (last_heartbeat info < now - heartbeat_timeout r * 1000000)%Z ->
     status info ∈ [RUNNING; HEALTHY] ->
     feeds (_perform_health_checks now' (_perform_health_checks now r)) !! fname
       = feeds (_perform_health_checks now r) !! fname /\
     (consecutive_failures <$> feeds (_perform_health_checks now r) !! fname)
       = Some (S (consecutive_failures info))).
Proof.
  unfold _perform_health_checks.
  cbn [feeds heartbeat_timeout _update_registry_metrics with_feeds]. split.
  - rewrite <- map_fmap_compose. apply map_fmap_ext. intros k f _.
    apply check_heartbeat_idemp.
  - intros fname info now' Hf Hlate Hst. apply Z.ltb_lt in Hlate.
    rewrite !lookup_fmap, Hf. cbn [fmap option_fmap option_map]. split.
    + f_equal. apply check_heartbeat_marked; assumption.
    + unfold check_heartbeat. rewrite Hlate, bool_decide_eq_true_2 by exact Hst.
      reflexivity.
Qed.

Lemma record_feed_error_step (fname error : string) (now : Z) (r : FeedRegistry)
    (info : FeedInfo) :
  feeds r !! fname = Some info ->
  exists info',
    feeds (record_feed_error fname error now r) !! fname = Some info' /\
    consecutive_failures info' = S (consecutive_failures info) /\
    error_count info' = S (error_count info) /\
    status info' = status_after (S (consecutive_failures info)) (status info) /\
    last_error info' = Some error /\ last_heartbeat info' = now /\
    total_runs info' = total_runs info /\ successful_runs info' = successful_runs info.
Proof.
  intros Hf. unfold record_feed_error. rewrite Hf.
  rewrite !feeds_update_feed, !lookup_alter_eq, Hf. cbn [fmap option_fmap option_map].
  eexists. split; [reflexivity|].
  cbn [consecutive_failures set_runs set_last_heartbeat set_error].
  unfold status_after.
  destruct (5 <=? S (consecutive_failures info))%nat; [repeat split|].
  destruct (3 <=? S (consecutive_failures info))%nat; repeat split.
Qed.

Lemma status_after_twice (c n : nat) (st : FeedStatus) :
  c <= n -> status_after n (status_after c st) = status_after n st.
Proof.
  intros Hle. unfold status_after.
  destruct (5 <=? n)%nat eqn:E5; [reflexivity|].
  destruct (3 <=? n)%nat eqn:E3; [reflexivity|].
  apply Nat.leb_gt in E5, E3.
  destruct (5 <=? c)%nat eqn:F5; [apply Nat.leb_le in F5; lia|].
  destruct (3 <=? c)%nat eqn:F3; [apply Nat.leb_le in F3; lia|]. reflexivity.
Qed.

Lemma record_feed_errors_spec (fname : string) (errors : list (string * Z)) :
  forall (r : FeedRegistry) (info : FeedInfo),
    feeds r !! fname = Some info ->
    exists info',
      feeds (record_feed_errors fname errors r) !! fname = Some info' /\
      consecutive_failures info' = consecutive_failures info + length errors /\
      error_count info' = error_count info + length errors /\
      status info' = match errors with
                     | [] => status info
                     | _ => status_after (consecutive_failures info + length errors)
                                         (status info)
                     end /\
      last_error info' = match last errors with
                         | Some e => Some e.1
                         | None => last_error info
                         end /\
      total_runs info' = total_runs info /\ successful_runs info' = successful_runs info.
Proof.
  unfold record_feed_errors.
  induction errors as [|[e t] rest IH]; intros r info Hf; cbn [foldl].
  - exists info. rewrite !Nat.add_0_r. repeat split. exact Hf.
  - destruct (record_feed_error_step fname e t r info Hf)
      as (info1 & Hf1 & Hc1 & He1 & Hs1 & Hl1 & _ & Ht1 & Hr1).
    destruct (IH _ info1 Hf1) as (info' & Hf' & Hc' & He' & Hs' & Hl' & Ht' & Hr').
    exists info'. cbn [length fst]. split; [exact Hf'|].
    split; [lia|]. split; [lia|].
    split; [|split; [|split; congruence]].
    + rewrite Hs', Hc1, Hs1. destruct rest as [|e' rest'].
      * cbn [length]. f_equal. lia.
      * rewrite status_after_twice by (cbn [length]; lia). f_equal. cbn [length]. lia.
    + rewrite Hl', Hl1. destruct rest as [|e' rest']; [reflexivity|].
      cbn [last]. destruct (last (e' :: rest')) eqn:El; [reflexivity|].
      apply last_None in El. discriminate.
Qed.

(** X23. Errors in a row.  After [record_feed_error] has been called
    [n >= 1] times in a row for a registered feed, the consecutive
    failures and the error count have grown by [n], [last_error] is the
    last message, the run statistics are untouched, and the status is
    decided by the count reached alone: UNHEALTHY from 5 on, DEGRADED at 3
    and 4, and the status the feed had before the errors below 3. *)
Theorem errors_in_a_row (fname : string) (errors : list (string * Z)) (r : FeedRegistry)
    (info : FeedInfo) (last_message : string) (last_time : Z) :
  feeds r !! fname = Some info -> last errors = Some (last_message, last_time) ->
  exists info',
    feeds (record_feed_errors fname errors r) !! fname = Some info' /\
    consecutive_failures info' = consecutive_failures info + length errors /\
    error_count info' = error_count info + length errors /\
    status info' = status_after (consecutive_failures info + length errors) (status info) /\
    last_error info' = Some last_message /\
    total_runs info' = total_runs info /\ successful_runs info' = successful_runs info.
Proof.
  intros Hf Hlast.
  destruct (record_feed_errors_spec fname errors r info Hf)
    as (info' & H1 & H2 & H3 & H4 & H5 & H6 & H7).
  exists info'. rewrite Hlast in H5.
  destruct errors as [|e rest]; [discriminate|].
  repeat split; assumption.
Qed.

Lemma errors_in_a_row_witness :
  exists info',
    feeds (record_feed_errors "A" [("e1", 1%Z); ("e2", 2%Z); ("e3", 3%Z)] registry_ABC)
      !! "A" = Some info' /\
    consecutive_failures info' = 3 /\ status info' = DEGRADED /\
    last_error info' = Some "e3".
Proof.
  destruct (feeds registry_ABC !! "A") as [info|] eqn:Hinfo;
    [|vm_compute in Hinfo; discriminate].
  destruct (errors_in_a_row "A" [("e1", 1%Z); ("e2", 2%Z); ("e3", 3%Z)] registry_ABC
              info "e3" 3 Hinfo eq_refl) as (info' & H1 & H2 & _ & H4 & H5 & _).
  exists info'. vm_compute in Hinfo. injection Hinfo as <-.
  split; [exact H1|]. split; [exact H2|]. split; [exact H4 | exact H5].
Defined.

(** *** Starting a category *)

Lemma names_of_infos (r : FeedRegistry) (l : list string) :
  feeds_sound r ->
  name <$> infos r l `sublist_of` l /\
  Forall (fun n => is_Some (feeds r !! n)) (name <$> infos r l).
Proof.
  intros Hr. unfold infos. induction l as [|n l [IH1 IH2]]; cbn [omap list_omap].
  - split; [reflexivity | constructor].
  - destruct (feeds r !! n) as [f|] eqn:E.
    + destruct (Hr n f E) as [Hname _]. rewrite fmap_cons, Hname. split.
      * apply sublist_skip, IH1.
      * constructor; [rewrite E; eauto | exact IH2].
    + split; [apply sublist_cons, IH1 | exact IH2].
Qed.

(** X24. [start_feeds_by_category] calls [start_standalone()] only on
    registered feeds of that category, each at most once and in the order
    in which the category lists them. *)
Theorem start_feeds_by_category_calls (c : string) (answers : nat -> Completion unit)
    (clock : nat -> Z) (r : FeedRegistry) :
  feeds_sound r ->
  exists started,
    started `sublist_of` default [] (feed_categories r !! c) /\
    Forall (fun n => is_Some (feeds r !! n)) started /\
    (start_feeds_by_category c answers clock r).2 = CallStart <$> started.
Proof.
  intros Hr. unfold start_feeds_by_category, get_feeds_by_category.
  destruct (names_of_infos r (default [] (feed_categories r !! c)) Hr) as [Hsub Hall].
  destruct (start_each_calls (name <$> infos r (default [] (feed_categories r !! c)))
              0 answers clock r ∅ []) as (started & Hs & ->).
  exists started. split; [etransitivity; eassumption|]. split; [|reflexivity].
  rewrite Forall_forall in *. intros n Hn. apply Hall.
  eapply elem_of_sublist; eassumption.
Qed.

Lemma start_feeds_by_category_calls_witness :
  exists started,
    started `sublist_of` default [] (feed_categories registry_ABC !! "market") /\
    (start_feeds_by_category "market" always_ok (fun _ => 0%Z) registry_ABC).2
      = CallStart <$> started /\
    (start_feeds_by_category "market" always_ok (fun _ => 0%Z) registry_ABC).2
      = [CallStart "A"; CallStart "B"; CallStart "C"].
Proof.
  destruct (start_feeds_by_category_calls "market" always_ok (fun _ => 0%Z) registry_ABC
              registry_ABC_sound) as (started & H1 & _ & H3).
  exists started. split; [exact H1|]. split; [exact H3|].
  vm_compute. reflexivity.
Defined.

End RegistryOpsFacts.

(** ** More properties of health_monitor.py *)

Module HealthMonitorOpsFacts.
Import HealthMonitor HealthMonitorOps HealthMonitorFacts.

(** *** The history *)

Lemma check_one_history (now : Z) (cs : list (string * Q * bool)) :
  forall acc,
    status_history (foldl (check_one now) acc cs).1 = status_history acc.1 /\
    max_history_size (foldl (check_one now) acc cs).1 = max_history_size acc.1.
Proof.
  induction cs as [|c cs IH]; intros [mon new]; cbn [foldl]; [split; reflexivity|].
  destruct (IH (check_one now (mon, new) c)) as [H1 H2]. rewrite H1, H2.
  unfold check_one. destruct (new_alert mon now c); split; reflexivity.
Qed.

Lemma run_history (m : HealthMetrics) (now : Z) (mon : QuestDBHealthMonitor) :
  status_history (_check_alert_conditions m now mon).1 = status_history mon /\
  max_history_size (_check_alert_conditions m now mon).1 = max_history_size mon.
Proof.
  unfold _check_alert_conditions.
  destruct (check_one_history now (checks mon m) (mon, [])) as [H1 H2].
  destruct (foldl (check_one now) (mon, []) (checks mon m)) as [mon1 new].
  cbn [fst] in *. unfold _check_resolved_alerts.
  destruct (foldl (resolve_one m now (thresholds mon1)) _ _) as [store active].
  cbn. split; assumption.
Qed.

(** X25. The history of [update_status].  After an update that is
    accepted, the snapshot that became [current_status] is the last entry
    of the history and the entries before it are the most recent earlier
    ones, in order.  With a positive [max_history_size], a history within
    the limit stays within it; with a limit of 0 the slice
    [history[-0:]] keeps everything, and the history grows by one entry
    at every update. *)
Theorem history_bounded (sd : StatusData) (st : HealthStatus) (now : Z)
    (mon : QuestDBHealthMonitor) :
  sd_status sd = Some st ->
  let mon' := update_status sd now mon in
  last (status_history mon') = Some (current_status mon') /\
  status_history mon' `suffix_of` status_history mon ++ [current_status mon'] /\
  max_history_size mon' = max_history_size mon /\
  (0 < max_history_size mon -> length (status_history mon) <= max_history_size mon ->
   length (status_history mon') <= max_history_size mon) /\
  (max_history_size mon = 0 ->
   length (status_history mon') = S (length (status_history mon))).
Proof.
  intros Hst. cbv zeta. unfold update_status. rewrite Hst.
  destruct (run_history (snapshot sd st now) now (count_check st now mon)) as [Hh Hm].
  destruct (_check_alert_conditions _ _ _) as [mon1 new] eqn:Erun. cbn [fst] in Hh, Hm.
  cbn [status_history current_status max_history_size].
  rewrite Hh, Hm. cbn [status_history max_history_size count_check].
  set (cur := with_new_alerts (snapshot sd st now) new).
  set (h := status_history mon ++ [cur]).
  assert (Hlen : length h = S (length (status_history mon))).
  { subst h. rewrite length_app. cbn. lia. }
  unfold _add_to_history. fold h.
  destruct (max_history_size mon <? length h)%nat eqn:Hover.
  - apply Nat.ltb_lt in Hover.
    destruct (max_history_size mon =? 0)%nat eqn:Hzero.
    + apply Nat.eqb_eq in Hzero. split; [subst h; apply last_snoc|].
      split; [reflexivity|]. split; [reflexivity|]. split; [lia|]. intros _. exact Hlen.
    + apply Nat.eqb_neq in Hzero. split; [|split; [|split; [reflexivity|split]]].
      * subst h. rewrite drop_app_le by lia. apply last_snoc.
      * apply suffix_drop.
      * intros _ _. rewrite length_drop. lia.
      * intros H0. lia.
  - apply Nat.ltb_ge in Hover. split; [subst h; apply last_snoc|].
    split; [reflexivity|]. split; [reflexivity|]. split; [intros; lia|]. intros; lia.
Qed.

Lemma history_bounded_witness :
  last (status_history warned) = Some (current_status warned) /\
  length (status_history warned) <= 1000.
Proof.
  destruct (history_bounded (quiet_with_success_rate 92) HEALTHY 0 (new_monitor 0) eq_refl)
    as (H1 & _ & _ & H4 & _).
  split; [exact H1|]. apply H4; cbn; lia.
Defined.

(** *** Active alerts are unresolved *)

Lemma resolve_fold_unresolved (m : HealthMetrics) (now : Z)
    (ths : gmap string HealthThreshold) (store1 : list HealthAlert)
    (active1 : gmap string nat) :
  (forall k ref, active1 !! k = Some ref ->
     exists a, store1 !! ref = Some a /\ alert_type a = k) ->
  (forall k ref a, active1 !! k = Some ref -> store1 !! ref = Some a ->
     resolved a = false) ->
  forall k ref a,
    (foldl (resolve_one m now ths) (store1, active1) (map_to_list active1)).2 !! k
      = Some ref ->
    (foldl (resolve_one m now ths) (store1, active1) (map_to_list active1)).1 !! ref
      = Some a ->
    resolved a = false.
Proof.
  intros Hfiled Hunres k ref a Hk Ha.
  pose proof (resolve_fold_active _ _ _ _ _ _ _ _ Hk) as Hk1.
  destruct (Hfiled k ref Hk1) as (a1 & Ha1 & Ht1).
  destruct (resolvable m ths a1) eqn:Eres.
  - exfalso.
    assert (Helem : (k, ref) ∈ map_to_list active1) by (apply elem_of_map_to_list; exact Hk1).
    apply list_elem_of_split in Helem as (l1 & l2 & Hsplit).
    pose proof (NoDup_map_to_list active1) as Hnd. rewrite Hsplit in Hnd.
    apply NoDup_app in Hnd as (_ & Hnd1 & Hnd2). apply NoDup_cons in Hnd2 as [Hnd2 _].
    rewrite Hsplit in Hk.
    destruct (resolve_fold_goes m now ths k ref a1 l1 l2 store1 active1 Eres)
      as [_ H2]; [| exact Ha1 | rewrite H2 in Hk; discriminate].
    intros k' r' Hkr.
    assert (Hkr' : active1 !! k' = Some r').
    { apply elem_of_map_to_list. rewrite Hsplit. set_solver. }
    assert (Hneq : (k', r') <> (k, ref)).
    { intros [= -> ->]. apply elem_of_app in Hkr as [H|H]; [| exact (Hnd2 H)].
      apply (Hnd1 _ H). left. }
    split.
    + intros ->. destruct (Hfiled k' ref Hkr') as (b & Hb & Hbt).
      rewrite Ha1 in Hb. injection Hb as <-. apply Hneq. congruence.
    + intros ->. rewrite Hk1 in Hkr'. apply Hneq. congruence.
  - destruct (resolve_fold_stays m now ths k ref a1 (map_to_list active1) Eres)
      with (store := store1) (active := active1) as [H1 _].
    + intros k' r' Hkr. apply elem_of_map_to_list in Hkr.
      destruct (decide (r' = ref)) as [|Hne]; [left; assumption | right].
      split; [exact Hne |]. intros ->. rewrite Hk1 in Hkr. congruence.
    + exact Ha1.
    + rewrite H1 in Ha. injection Ha as <-. exact (Hunres k ref a1 Hk1 Ha1).
Qed.

Lemma run_unresolved (m : HealthMetrics) (now : Z) (mon : QuestDBHealthMonitor) :
  alerts_filed mon -> alerts_unresolved mon ->
  alerts_unresolved (_check_alert_conditions m now mon).1.
Proof.
  intros Hf Hu.
  destruct (run_facts m now mon Hf) as (active1 & Hrun & Hout & Hin & Hf1).
  cbn zeta in Hrun, Hin, Hf1. rewrite Hrun. cbn [fst].
  intros k ref a. cbn [active_alerts alert_store with_alerts].
  apply resolve_fold_unresolved.
  - intros k' r' Hk'. exact (Hf1 k' r' Hk').
  - intros k' r' a' Hk' Ha'.
    assert (Hold : active_alerts mon !! k' = Some r' -> resolved a' = false).
    { intros Hk0. destruct (Hf k' r' Hk0) as (a0 & Ha0 & _).
      rewrite (lookup_app_l_Some _ _ _ _ Ha0) in Ha'. injection Ha' as <-.
      exact (Hu k' r' a0 Hk0 Ha0). }
    destruct (decide (k' ∈ check_name <$> checks mon m)) as [Hin'|Hnin].
    + apply list_elem_of_fmap in Hin' as (c & Hn & Hc). specialize (Hin c Hc).
      destruct (new_alert mon now c) as [a0|] eqn:En.
      * destruct Hin as (r0 & Hk0 & Ha0 & _). rewrite <- Hn, Hk' in Hk0.
        injection Hk0 as <-. rewrite Ha' in Ha0. injection Ha0 as ->.
        apply new_alert_Some in En. tauto.
      * apply Hold. rewrite Hn, <- Hin, <- Hn. exact Hk'.
    + apply Hold. rewrite <- (Hout k' Hnin). exact Hk'.
Qed.

Lemma run_updates_unresolved (sd : StatusData) (now : Z) (mon : QuestDBHealthMonitor) :
  alerts_filed mon -> alerts_unresolved mon ->
  alerts_unresolved (update_status sd now mon).
Proof.
  intros Hf Hu. destruct (sd_status sd) as [st|] eqn:Est;
    [| unfold update_status; rewrite Est; exact Hu].
  destruct (update_status_run sd now mon st Est) as (Ha & Hs & _).
  intros k r a. rewrite Ha, Hs.
  apply (run_unresolved _ now _ (count_check_filed st now mon Hf)). exact Hu.
Qed.

(** X26. No active alert is a resolved one.  On a monitor whose active
    alerts are filed under their metric and unresolved (a new monitor has
    none), every alert that [get_active_alerts] returns after
    [update_status] is unresolved: an alert that the resolution loop marks
    resolved leaves the active alerts in the same update. *)
Theorem active_alerts_unresolved (sd : StatusData) (now : Z) (mon : QuestDBHealthMonitor) :
  alerts_filed mon -> alerts_unresolved mon ->
  alerts_unresolved (update_status sd now mon) /\
  Forall (fun a => resolved a = false) (get_active_alerts (update_status sd now mon)).
Proof.
  intros Hf Hu.
  assert (Hu' : alerts_unresolved (update_status sd now mon))
    by (apply run_updates_unresolved; assumption).
  split; [exact Hu'|].
  unfold get_active_alerts. apply Forall_forall. intros a Ha.
  apply list_elem_of_omap in Ha as ([k r] & Hin & Hlook).
  apply elem_of_map_to_list in Hin. exact (Hu' k r a Hin Hlook).
Qed.

Lemma new_monitor_unresolved (now : Z) : alerts_unresolved (new_monitor now).
Proof. intros k r a H. cbn in H. rewrite lookup_empty in H. discriminate. Qed.

Lemma active_alerts_unresolved_witness :
  Forall (fun a => resolved a = false) (get_active_alerts warned) /\
  get_active_alerts warned = [warning_92].
Proof.
  destruct (active_alerts_unresolved (quiet_with_success_rate 92) 0 (new_monitor 0)
              (new_monitor_filed 0) (new_monitor_unresolved 0)) as [_ H].
  split; [exact H | vm_compute; reflexivity].
Defined.

(** *** The alert on consecutive failures *)

Lemma not_resolvable_without_attr (m : HealthMetrics) (ths : gmap string HealthThreshold)
    (a : HealthAlert) :
  metric_attr m (alert_type a) = None -> resolvable m ths a = false.
Proof.
  intros H. unfold resolvable. rewrite H.
  destruct (resolved a); [reflexivity|]. destruct (ths !! alert_type a); reflexivity.
Qed.

Lemma checks_by_name (mon : QuestDBHealthMonitor) (m : HealthMetrics)
    (c c' : string * Q * bool) :
  c ∈ checks mon m -> c' ∈ checks mon m -> check_name c = check_name c' -> c = c'.
Proof.
  unfold checks. intros Hc Hc'.
  repeat (apply elem_of_cons in Hc as [->|Hc]);
    repeat (apply elem_of_cons in Hc' as [->|Hc']);
    try (inversion Hc); try (inversion Hc'); cbn; intros; congruence.
Qed.

(** X27. An alert on [consecutive_failures] is never resolved by the
    monitor.  The resolution loop reads the current value with
    [getattr(metrics, 'consecutive_failures', None)], and the metrics
    snapshot has no such attribute: once an alert is active under that
    key, every later [update_status] leaves an alert active under it,
    also a healthy update that resets the count of consecutive failures
    to 0.  Only [reset_alerts] removes it. *)
Theorem consecutive_failures_alert_stays (sd : StatusData) (st : HealthStatus) (now : Z)
    (mon : QuestDBHealthMonitor) (ref : nat) :
  alerts_filed mon -> alerts_unresolved mon -> sd_status sd = Some st ->
  active_alerts mon !! "consecutive_failures" = Some ref ->
  (exists ref' a,
     active_alerts (update_status sd now mon) !! "consecutive_failures" = Some ref' /\
     alert_store (update_status sd now mon) !! ref' = Some a /\
     alert_type a = "consecutive_failures" /\ resolved a = false) /\
  (st = HEALTHY -> consecutive_failures (update_status sd now mon) = 0) /\
  active_alerts (reset_alerts (update_status sd now mon)) = ∅.
Proof.
  intros Hf Hu Hst Hk. split; [|split; [|reflexivity]].
  2:{ intros ->. unfold update_status. rewrite Hst. cbv zeta.
      destruct (run_frame (snapshot sd HEALTHY now) now (count_check HEALTHY now mon)
                  (count_check_filed _ _ _ Hf)) as (store & active & Hrun).
      destruct (_check_alert_conditions _ _ _) as [mon1 new]. cbn [fst] in Hrun.
      subst mon1. reflexivity. }
  destruct (update_status_run sd now mon st Hst) as (Ha & Hs & _). cbv zeta in Ha, Hs.
  rewrite Ha, Hs.
  set (mon0 := count_check st now mon) in *.
  set (m := snapshot sd st now) in *.
  assert (Hf0 : alerts_filed mon0) by (apply count_check_filed; exact Hf).
  set (c := ("consecutive_failures",
             inject_Z (Z.of_nat (consecutive_failures mon0)), false) : string * Q * bool).
  assert (Hc : c ∈ checks mon0 m).
  { unfold checks. do 3 apply list_elem_of_further. apply list_elem_of_here. }
  destruct (new_alert mon0 now c) as [a|] eqn:En.
  - pose proof (new_alert_Some _ _ _ _ En) as (Hty & _ & Hres & _).
    assert (Hno : resolvable m (thresholds mon0) a = false).
    { apply not_resolvable_without_attr. rewrite Hty. reflexivity. }
    destruct (run_fires m now mon0 c a Hf0 Hc En Hno) as (r & _ & Hr & Hact).
    exists r, a. repeat split; assumption.
  - destruct (Hf0 "consecutive_failures" ref Hk) as (a0 & Ha0 & Ht0).
    assert (Hno : resolvable m (thresholds mon0) a0 = false).
    { apply not_resolvable_without_attr. rewrite Ht0. reflexivity. }
    destruct (run_stays m now mon0 "consecutive_failures" ref a0 Hf0 Hk Ha0) as [H1 H2].
    + intros c' Hc' Hn. rewrite <- (checks_by_name mon0 m c c' Hc Hc'); [exact En|].
      rewrite Hn. reflexivity.
    + exact Hno.
    + exists ref, a0. split; [exact H1|]. split; [exact H2|]. split; [exact Ht0|].
      exact (Hu "consecutive_failures" ref a0 Hk Ha0).
Qed.

(** Three unhealthy updates in a row raise the alert; a healthy update
    ten minutes later resets the count and leaves the alert active. *)
Lemma consecutive_failures_alert_stays_witness :
  let failing := {| sd_status := Some UNHEALTHY; sd_connection_test_time_ms := 0;
                    sd_max_connections := 10; sd_active_connections := 0;
                    sd_connection_pool_size := 10; sd_total_queries := 0;
                    sd_failed_queries := 0; sd_successful_queries := 0;
                    sd_avg_query_time := 0; sd_total_tables := 0;
                    sd_uptime_seconds := 0; sd_error := None; sd_last_error := None |} in
  let mon3 := update_status failing 3 (update_status failing 2
                (update_status failing 1 (new_monitor 0))) in
  active_alerts mon3 !! "consecutive_failures" = Some 0 /\
  (exists ref' a,
     active_alerts (update_status (quiet_with_success_rate 100) 600000000 mon3)
       !! "consecutive_failures" = Some ref' /\
     alert_store (update_status (quiet_with_success_rate 100) 600000000 mon3) !! ref'
       = Some a /\
     alert_type a = "consecutive_failures" /\ resolved a = false) /\
  consecutive_failures (update_status (quiet_with_success_rate 100) 600000000 mon3) = 0.
Proof.
  cbv zeta.
  set (failing := {| sd_status := Some UNHEALTHY; sd_connection_test_time_ms := 0;
                     sd_max_connections := 10; sd_active_connections := 0;
                     sd_connection_pool_size := 10; sd_total_queries := 0;
                     sd_failed_queries := 0; sd_successful_queries := 0;
                     sd_avg_query_time := 0; sd_total_tables := 0;
                     sd_uptime_seconds := 0; sd_error := None; sd_last_error := None |}).
  set (mon3 := update_status failing 3 (update_status failing 2
                 (update_status failing 1 (new_monitor 0)))).
  assert (Hk : active_alerts mon3 !! "consecutive_failures" = Some 0)
    by (vm_compute; reflexivity).
  assert (Hf : alerts_filed mon3)
    by (repeat apply update_status_filed; apply new_monitor_filed).
  assert (Hu : alerts_unresolved mon3).
  { unfold mon3.
    repeat (apply run_updates_unresolved;
            [repeat apply update_status_filed; apply new_monitor_filed|]).
    apply new_monitor_unresolved. }
  destruct (consecutive_failures_alert_stays (quiet_with_success_rate 100) HEALTHY
              600000000 mon3 0 Hf Hu eq_refl Hk) as (H1 & H2 & _).
  split; [exact Hk|]. split; [exact H1 | exact (H2 eq_refl)].
Defined.

(** *** Resetting the alerts *)

(** X28. [reset_alerts] also lifts every cooldown.  After a reset, the
    next [update_status] whose value for a checked metric crosses the
    warning level of its threshold pair returns a new alert for that
    metric, stamped with the time of the update, and files it as the
    metric's active alert, however recent the alerts before the reset
    were. *)
Theorem reset_alerts_lifts_cooldown (mon : QuestDBHealthMonitor) (sd : StatusData)
    (st : HealthStatus) (now : Z) (key : string) (v : Q) (rev : bool)
    (th : HealthThreshold) :
  sd_status sd = Some st ->
  (key, v, rev) ∈ observed sd st now (reset_alerts mon) ->
  thresholds mon !! key = Some th ->
  crosses_warning th rev v ->
  exists r b,
    r ∈ alerts (current_status (update_status sd now (reset_alerts mon))) /\
    alert_store (update_status sd now (reset_alerts mon)) !! r = Some b /\
    alert_type b = key /\ timestamp b = now /\ resolved b = false /\
    active_alerts (update_status sd now (reset_alerts mon)) !! key = Some r.
Proof.
  intros Hst Hobs Hth Hcross.
  destruct (update_status_run sd now (reset_alerts mon) st Hst) as (Ha & Hs & Hal & _).
  cbv zeta in Ha, Hs, Hal. rewrite Ha, Hs, Hal.
  set (mon0 := count_check st now (reset_alerts mon)) in *.
  set (m := snapshot sd st now) in *.
  assert (Hf0 : alerts_filed mon0).
  { intros k r H. cbn in H. rewrite lookup_empty in H. discriminate. }
  assert (Hcool : in_cooldown mon0 key now = false).
  { unfold in_cooldown. cbn. rewrite lookup_empty. reflexivity. }
  destruct (crossing_fires mon0 now key v rev th Hth Hcross Hcool) as [a En].
  pose proof (new_alert_Some _ _ _ _ En) as (Hty & Htime & Hres & _).
  assert (Hno : resolvable m (thresholds mon0) a = false).
  { eapply crossing_not_resolvable; [exact Hobs | exact Hth | exact Hcross | exact Hty]. }
  destruct (run_fires m now mon0 (key, v, rev) a Hf0 Hobs En Hno) as (r & Hr & Hstore & Hact).
  exists r, a. repeat split; assumption.
Qed.

(** The monitor that holds a fresh warning on the success rate: without
    a reset the next update at 92 percent is silenced by the cooldown
    (C6); after a reset it raises the alert again at once. *)
Lemma reset_alerts_lifts_cooldown_witness :
  exists r b,
    r ∈ alerts (current_status
                  (update_status (quiet_with_success_rate 92) 1000000 (reset_alerts warned))) /\
    alert_store (update_status (quiet_with_success_rate 92) 1000000 (reset_alerts warned))
      !! r = Some b /\
    alert_type b = "success_rate" /\ timestamp b = 1000000%Z /\
    alerts (current_status (update_status (quiet_with_success_rate 92) 1000000 warned)) = [].
Proof.
  destruct (reset_alerts_lifts_cooldown warned (quiet_with_success_rate 92) HEALTHY 1000000
              "success_rate" (_calculate_success_rate (quiet_with_success_rate 92)) true
              {| warning_level := 95; critical_level := 90;
                 description := "Query success rate percentage (reversed - lower is worse)" |})
    as (r & b & H1 & H2 & H3 & H4 & _).
  - reflexivity.
  - apply success_rate_is_observed.
  - vm_compute. reflexivity.
  - cbn. vm_compute. discriminate.
  - exists r, b. split; [exact H1|]. split; [exact H2|]. split; [exact H3|].
    split; [exact H4|]. vm_compute. reflexivity.
Defined.

(** *** Thresholds *)

(** X29. [update_thresholds] changes the levels of known metrics only:
    a metric that has no threshold is ignored (no threshold is created),
    a metric that is not named keeps its threshold, and for a metric that
    is named each level given replaces the old one while a level left out
    and the description are kept. *)
Theorem update_thresholds_known_only (new : gmap string (option Q * option Q))
    (mon : QuestDBHealthMonitor) (metric : string) :
  thresholds (update_thresholds new mon) !! metric =
    match thresholds mon !! metric with
    | Some th => Some match new !! metric with
                      | Some threshold_config => update_threshold threshold_config th
                      | None => th
                      end
    | None => None
    end.
Proof.
  unfold update_thresholds. cbn [thresholds]. revert metric.
  apply (map_fold_weak_ind (fun (r : gmap string HealthThreshold)
                                (seen : gmap string (option Q * option Q)) =>
    forall metric, r !! metric =
      match thresholds mon !! metric with
      | Some th => Some match seen !! metric with
                        | Some threshold_config => update_threshold threshold_config th
                        | None => th
                        end
      | None => None
      end)).
  - intros metric. rewrite lookup_empty. destruct (thresholds mon !! metric); reflexivity.
  - intros i x seen r Hi IH metric. pose proof (IH i) as Hri. rewrite Hi in Hri.
    destruct (thresholds mon !! i) as [th|] eqn:Eth; rewrite Hri.
    + destruct (decide (metric = i)) as [->|Hne].
      * rewrite !lookup_insert_eq, Eth. reflexivity.
      * rewrite !lookup_insert_ne by congruence. apply IH.
    + destruct (decide (metric = i)) as [->|Hne].
      * rewrite Hri, Eth. reflexivity.
      * rewrite lookup_insert_ne by congruence. apply IH.
Qed.

End HealthMonitorOpsFacts.

(** ** The health check of the manager and the monitor together *)

Module HealthCheckFacts.
Import Client ClientOps HealthCheck.
Import HealthMonitorFacts.

Lemma execute_query_counted (m : QuestDBManager) (db : Store) (r : QueryResult) :
  (execute_query m db).2 = Some r ->
  total_queries (metrics (execute_query m db).1) = S (total_queries (metrics m)).
Proof.
  unfold execute_query. destruct (connect db); [reflexivity|].
  destruct (attempts _ _ _ _ _) as [[] [msg|]]; try reflexivity. discriminate.
Qed.

Lemma zero_of_anything (x : Q) : (0 / x * 100 == 0)%Q.
Proof. unfold Qdiv. rewrite !Qmult_0_l. reflexivity. Qed.

Lemma healthy_status_rate (m : QuestDBManager) (p : Probe) (tables : Z) :
  0 < total_queries (metrics m) ->
  (HealthMonitor._calculate_success_rate (healthy_status m p tables) == 0)%Q.
Proof.
  intros Hpos. unfold HealthMonitor._calculate_success_rate.
  cbn [HealthMonitor.sd_total_queries HealthMonitor.sd_successful_queries healthy_status].
  destruct (Qeq_bool (inject_Z (Z.of_nat (total_queries (metrics m)))) 0) eqn:E.
  - apply Qeq_bool_iff in E. unfold Qeq in E. cbn in E. lia.
  - apply zero_of_anything.
Qed.

Lemma zero_rate_alert (mon : HealthMonitor.QuestDBHealthMonitor)
    (sd : HealthMonitor.StatusData) (st : HealthMonitor.HealthStatus) (now : Z)
    (th : HealthMonitor.HealthThreshold) :
  HealthMonitor.sd_status sd = Some st ->
  HealthMonitor.alerts_filed mon ->
  HealthMonitor.thresholds mon !! "success_rate" = Some th ->
  (HealthMonitor._calculate_success_rate sd == 0)%Q ->
  (0 <= HealthMonitor.critical_level th)%Q -> (0 <= HealthMonitor.warning_level th)%Q ->
  HealthMonitor.in_cooldown mon "success_rate" now = false ->
  exists ref a,
    HealthMonitor.active_alerts (HealthMonitor.update_status sd now mon) !! "success_rate"
      = Some ref /\
    HealthMonitor.alert_store (HealthMonitor.update_status sd now mon) !! ref = Some a /\
    ref ∈ HealthMonitor.alerts
            (HealthMonitor.current_status (HealthMonitor.update_status sd now mon)) /\
    HealthMonitor.severity a = "critical" /\ HealthMonitor.timestamp a = now /\
    HealthMonitor.value a = Some (HealthMonitor._calculate_success_rate sd).
Proof.
  intros Hst Hf Hth Hzero Hcrit Hwarn Hcool.
  destruct (update_status_run sd now mon st Hst) as (Ha & Hs & Hal & _).
  cbv zeta in Ha, Hs, Hal. rewrite Ha, Hs, Hal.
  set (mon0 := HealthMonitor.count_check st now mon) in *.
  set (m := HealthMonitor.snapshot sd st now) in *.
  set (v := HealthMonitor._calculate_success_rate sd) in *.
  assert (Hf0 : HealthMonitor.alerts_filed mon0) by (apply count_check_filed; exact Hf).
  assert (Hc : ("success_rate", v, true) ∈ HealthMonitor.checks mon0 m).
  { apply (success_rate_is_observed sd st now mon). }
  assert (Hle : forall level, (0 <= level)%Q -> Qle_bool v level = true).
  { intros level Hl. apply Qle_bool_true. rewrite Hzero. exact Hl. }
  assert (En : exists a, HealthMonitor.new_alert mon0 now ("success_rate", v, true) = Some a /\
                 HealthMonitor.severity a = "critical" /\
                 HealthMonitor.value a = Some v).
  { unfold HealthMonitor.new_alert.
    change (HealthMonitor.thresholds mon0) with (HealthMonitor.thresholds mon).
    rewrite Hth.
    change (HealthMonitor.in_cooldown mon0 "success_rate" now)
      with (HealthMonitor.in_cooldown mon "success_rate" now).
    rewrite Hcool. unfold HealthMonitor.severity_of. rewrite (Hle _ Hcrit).
    eexists. split; [reflexivity|]. split; reflexivity. }
  destruct En as (a & En & Hsev & Hval).
  pose proof (new_alert_Some _ _ _ _ En) as (Hty & Htime & Hres & _).
  assert (Hno : HealthMonitor.resolvable m (HealthMonitor.thresholds mon0) a = false).
  { unfold HealthMonitor.resolvable. rewrite Hty. cbn [HealthMonitor.check_name fst].
    change (HealthMonitor.thresholds mon0) with (HealthMonitor.thresholds mon).
    rewrite Hth. cbn. unfold HealthMonitor.Qltb.
    change (HealthMonitor.success_rate m) with v.
    fold v. rewrite (Hle _ Hwarn). cbn. apply andb_false_r. }
  destruct (run_fires m now mon0 _ a Hf0 Hc En Hno) as (r & Hr & Hstore & Hact).
  exists r, a. repeat split; assumption.
Qed.

(** X30. The manager's health check and the monitor do not agree on the
    keys of the status dictionary.  When a health check goes well (it is
    not rate-limited, both queries return and the table count has a row),
    the monitor is updated with status HEALTHY, but it looks up
    [successful_queries] in a ['metrics'] dictionary that does not hold
    that key: the success rate it records is 0, and unless a
    [success_rate] alert is in its cooldown it raises a critical
    [success_rate] alert, whatever the real success rate is. *)
Theorem healthy_check_records_zero_success_rate (m : QuestDBManager)
    (mon : HealthMonitor.QuestDBHealthMonitor) (last_health_check current_time : Q)
    (p : Probe) (now : Z) (s : QueryResult) (th : HealthMonitor.HealthThreshold) :
  HealthMonitor.Qltb (current_time - last_health_check) 60 = false ->
  qr_success <$> (execute_query m (ping p)).2 = Some true ->
  (execute_query (execute_query m (ping p)).1 (stats p)).2 = Some s ->
  is_Some (table_count p) ->
  let mon' := (health_check m mon last_health_check current_time p now).1.2 in
  HealthMonitor.status (HealthMonitor.current_status mon') = HealthMonitor.HEALTHY /\
  (HealthMonitor.success_rate (HealthMonitor.current_status mon') == 0)%Q /\
  (HealthMonitor.alerts_filed mon ->
   HealthMonitor.thresholds mon !! "success_rate" = Some th ->
   (0 <= HealthMonitor.critical_level th)%Q -> (0 <= HealthMonitor.warning_level th)%Q ->
   HealthMonitor.in_cooldown mon "success_rate" now = false ->
   exists ref a,
     HealthMonitor.active_alerts mon' !! "success_rate" = Some ref /\
     HealthMonitor.alert_store mon' !! ref = Some a /\
     ref ∈ HealthMonitor.alerts (HealthMonitor.current_status mon') /\
     HealthMonitor.severity a = "critical" /\ HealthMonitor.timestamp a = now).
Proof.
  intros Hgate Hping Hstats [n Hn]. cbv zeta.
  assert (Hmon : exists tables,
            (health_check m mon last_health_check current_time p now).1.2
              = HealthMonitor.update_status
                  (healthy_status (execute_query (execute_query m (ping p)).1 (stats p)).1
                                  p tables) now mon).
  { unfold health_check. rewrite Hgate.
    destruct (execute_query m (ping p)) as [m1 result] eqn:E1. cbn [fst snd] in *.
    destruct result as [r|]; [|discriminate]. injection Hping as Hr. rewrite Hr.
    destruct (execute_query m1 (stats p)) as [m2 stats_result] eqn:E2. cbn [fst snd] in *.
    subst stats_result. destruct (qr_success s).
    - rewrite Hn. exists n. reflexivity.
    - exists 0%Z. reflexivity. }
  destruct Hmon as (tables & ->).
  set (m2 := (execute_query (execute_query m (ping p)).1 (stats p)).1).
  assert (Hpos : 0 < total_queries (metrics m2)).
  { unfold m2. rewrite (execute_query_counted _ _ s Hstats). lia. }
  pose proof (healthy_status_rate m2 p tables Hpos) as Hzero.
  split; [|split].
  - unfold HealthMonitor.update_status. cbn [HealthMonitor.sd_status healthy_status].
    destruct (HealthMonitor._check_alert_conditions _ _ _). reflexivity.
  - unfold HealthMonitor.update_status. cbn [HealthMonitor.sd_status healthy_status].
    destruct (HealthMonitor._check_alert_conditions _ _ _). exact Hzero.
  - intros Hf Hth Hcrit Hwarn Hcool.
    destruct (zero_rate_alert mon (healthy_status m2 p tables) HealthMonitor.HEALTHY now th
                eq_refl Hf Hth Hzero Hcrit Hwarn Hcool)
      as (ref & a & H1 & H2 & H3 & H4 & H5 & _).
    exists ref, a. repeat split; assumption.
Qed.

(** A first health check on a new manager and a new monitor, everything
    working: the monitor ends with a critical alert on the success rate. *)
Lemma healthy_check_records_zero_success_rate_witness :
  let mon' := (health_check quotes_manager (HealthMonitor.new_monitor 0) 0 100
                 all_well 5).1.2 in
  HealthMonitor.status (HealthMonitor.current_status mon') = HealthMonitor.HEALTHY /\
  (HealthMonitor.success_rate (HealthMonitor.current_status mon') == 0)%Q /\
  exists ref a,
    HealthMonitor.active_alerts mon' !! "success_rate" = Some ref /\
    HealthMonitor.alert_store mon' !! ref = Some a /\
    HealthMonitor.severity a = "critical".
Proof.
  cbv zeta.
  destruct (healthy_check_records_zero_success_rate quotes_manager
              (HealthMonitor.new_monitor 0) 0 100 all_well 5
              {| qr_success := true; qr_error := None; qr_execution_time_ms := 1 |}
              {| HealthMonitor.warning_level := 95; HealthMonitor.critical_level := 90;
                 HealthMonitor.description :=
                   "Query success rate percentage (reversed - lower is worse)" |})
    as (H1 & H2 & H3).
  - reflexivity.
  - reflexivity.
  - reflexivity.
  - eexists. reflexivity.
  - split; [exact H1|]. split; [exact H2|].
    destruct H3 as (ref & a & G1 & G2 & _ & G4 & _).
    + apply new_monitor_filed.
    + reflexivity.
    + discriminate.
    + discriminate.
    + reflexivity.
    + exists ref, a. repeat split; assumption.
Defined.

End HealthCheckFacts.
